(** * md3d: markdown to 3D slide deck

    A shallow embedding of [src/md3d/main.py] and the properties of its
    pipeline: installer bootstrap, extraction of embedded images,
    segmentation into sections, and the layout of image panels, slide
    panels, camera keyframes and backdrop.

    Python [str] is [string]; [int] is [Z] or [nat] (loop indices);
    [float] is modelled by exact rationals [Q]; Python exceptions are the
    error side of [result]. *)

From Stdlib Require Import ZArith QArith Qabs String Ascii List.
From stdpp Require Import base gmap strings list pretty.

Local Open Scope Z_scope.

(** ** Python exceptions *)

Inductive exn : Type :=
  | UnboundLocalError
  | TypeError
  | ConnectionError
  | FileNotFoundError
  | FileExistsError
  | IsADirectoryError
  | NotImplementedError
  | AttributeError
  | KeyError
  | CalledProcessError
  | MupdfError.                  (* what fitz raises when it cannot open a file *)

Inductive result (A : Type) : Type :=
  | Ok (a : A)
  | Raise (e : exn).
Arguments Ok {A} a.
Arguments Raise {A} e.

Global Instance result_ret : MRet result := fun A a => Ok a.
Global Instance result_bind : MBind result := fun A B k r =>
  match r with
  | Ok a => k a
  | Raise e => Raise e
  end.

(** What a call returns, without the world it leaves *)
Definition returned {A W : Type} (r : result (A * W)) : result A :=
  match r with
  | Ok (a, _) => Ok a
  | Raise e => Raise e
  end.

(** ** The [str] methods the program uses *)

Module PyStr.

Fixpoint str_take (n : nat) (s : string) : string :=
  match n, s with
  | S n', String c s' => String c (str_take n' s')
  | _, _ => ""
  end.

Fixpoint str_drop (n : nat) (s : string) : string :=
  match n, s with
  | S n', String _ s' => str_drop n' s'
  | _, _ => s
  end.

(** [s.startswith(p)] *)
Definition startswith (p s : string) : bool := String.prefix p s.

(** [s.endswith(p)] *)
Definition endswith (p s : string) : bool :=
  (String.length p <=? String.length s)%nat
  && String.eqb (str_drop (String.length s - String.length p) s) p.

(** Lowest index at which [sub] occurs in [s], as [s.find(sub)] computes it;
    [None] stands for Python's [-1]. *)
Fixpoint str_find (sub s : string) : option nat :=
  if String.prefix sub s then Some 0%nat
  else match s with
       | "" => None
       | String _ s' => S <$> str_find sub s'
       end.

(** [sub in s] *)
Definition contains (sub s : string) : bool :=
  match str_find sub s with Some _ => true | None => false end.

(** A slice bound as Python normalises it: negative bounds count from the
    end, and everything is clamped to [0, len]. *)
Definition clamp (n i : Z) : Z :=
  if i <? 0 then Z.max 0 (i + n) else Z.min i n.

(** [s.find(sub, start)] *)
Definition find (sub s : string) (start : Z) : Z :=
  let n := Z.of_nat (String.length s) in
  let st := if start <? 0 then Z.max 0 (start + n) else start in
  if n <? st then -1
  else match str_find sub (str_drop (Z.to_nat st) s) with
       | Some i => st + Z.of_nat i
       | None => -1
       end.

(** [s[a:b]] *)
Definition slice (s : string) (a b : Z) : string :=
  let n := Z.of_nat (String.length s) in
  let lo := clamp n a in
  let hi := clamp n b in
  str_take (Z.to_nat (hi - lo)) (str_drop (Z.to_nat lo) s).

(** [s.split(sep)] for a non-empty [sep]: find the separator, cut, go on
    after it.  Every round consumes at least one character, so
    [length s] rounds are enough. *)
Fixpoint split_loop (fuel : nat) (sep s : string) : list string :=
  match fuel with
  | O => [s]
  | S fuel' =>
      match str_find sep s with
      | None => [s]
      | Some i =>
          str_take i s :: split_loop fuel' sep (str_drop (i + String.length sep) s)
      end
  end.

Definition split (sep s : string) : list string :=
  split_loop (String.length s) sep s.

(** [sep.join(l)] *)
Definition join (sep : string) (l : list string) : string := String.concat sep l.

End PyStr.

Definition newline : string := String (ascii_of_nat 10) "".

(** ** The machine the program runs on

    The file system maps a path to a directory or to a file's bytes.
    Network requests, printed lines, archive extraction and subprocesses
    are recorded as events, in order.  What the outside world answers
    (HTTP responses, exit statuses, what [pathlib], PIL and the SVG
    importer compute) is the [host]. *)

Inductive node : Type :=
  | Dir
  | File (data : string).

Inductive event : Type :=
  | Print (msg : string)
  | PrintImagePaths (paths : list string)
  | HttpGet (url : string)
  | DmgExtract (dmg dest : string)
  | Subprocess (argv : list string)
  | Chdir (dir : string)
  | SaveMainfile (filepath : string).

Record world : Type := World {
  fs : gmap string node;
  events : list event
}.

Record response : Type := Response {
  status_code : Z;
  content : string
}.

Inductive exit_status : Type :=
  | ExitZero
  | ExitNonZero
  | NoSuchProgram.

Record host : Type := Host {
  platform_system : string;                (* platform.system() *)
  home : string;                           (* str(Path.home()) *)
  requests_get : string -> option response;(* None: the request itself raises *)
  run : list string -> exit_status;        (* how a subprocess ends *)
  dmg_mounts : string -> bool;             (* whether the disk image can be mounted *)
  path_str : string -> string;             (* str(Path(link)) *)
  url_basename : string -> string;         (* os.path.basename(urlparse(link).path) *)
  path_basename : string -> string;        (* os.path.basename(path) *)
  path_stem : string -> string;            (* Path(path).stem *)
  image_size : string -> option (positive * positive);
                                           (* PIL: (img.width, img.height), never 0 *)
  markdown_html : string -> string;        (* markdown.markdown with the extensions *)
  html_pdf : string -> string;             (* the page fitz lays the HTML into *)
  svg_curves : string -> list string;      (* names of the curves import_curve.svg adds
                                              for a file it can read *)
  fcurve : list (nat * Q) -> nat -> Q      (* an F-curve through (frame, value) key
                                              points, evaluated at a frame *)
}.

(** [a / b] on [pathlib] paths, for a relative [b] *)
Definition path_join (a b : string) : string := a +:+ "/" +:+ b.
Infix "//" := path_join (at level 40, left associativity).

Definition emit (e : event) (w : world) : world :=
  {| fs := fs w; events := events w ++ [e] |}.

Definition print (msg : string) (w : world) : world := emit (Print msg) w.

(** [Path.exists] *)
Definition path_exists (p : string) (w : world) : bool :=
  bool_decide (is_Some (fs w !! p)).

(** [Path.mkdir(parents=True, exist_ok=True)]; [chain] lists the missing
    ancestors first and the directory itself last. *)
Fixpoint mkdir_parents (chain : list string) (w : world) : result world :=
  match chain with
  | [] => Ok w
  | p :: rest =>
      match fs w !! p with
      | Some (File _) => Raise FileExistsError
      | Some Dir => mkdir_parents rest w
      | None => mkdir_parents rest {| fs := <[p := Dir]> (fs w); events := events w |}
      end
  end.

(** [with open(dir / name, 'wb') as f: f.write(data)] *)
Definition write_in (dir name data : string) (w : world) : result world :=
  match fs w !! dir with
  | Some Dir =>
      match fs w !! (dir // name) with
      | Some Dir => Raise IsADirectoryError
      | _ => Ok {| fs := <[dir // name := File data]> (fs w); events := events w |}
      end
  | _ => Raise FileNotFoundError
  end.

(** [requests.get(url)] outside any [try] *)
Definition http_get (h : host) (url : string) (w : world) : result (response * world) :=
  match requests_get h url with
  | Some r => Ok (r, emit (HttpGet url) w)
  | None => Raise ConnectionError
  end.

(** [subprocess.run(argv, check=True)] *)
Definition subprocess_run (h : host) (argv : list string) (w : world) : result world :=
  match run h argv with
  | ExitZero => Ok (emit (Subprocess argv) w)
  | ExitNonZero => Raise CalledProcessError
  | NoSuchProgram => Raise FileNotFoundError
  end.

(** ** ToolInstaller: the Inkscape installers

    The three subclasses are declared while [InkscapeInstaller] still
    names the first class of that name (whose constructor only stores the
    paths), so building an installer touches neither disk nor network. *)

Module Installer.

Inductive installer : Type :=
  | WindowsInkscapeInstaller
  | MacOSInkscapeInstaller
  | LinuxInkscapeInstaller.

(** [InkscapeInstallerFactory.get_installer] *)
Definition get_installer (h : host) : result installer :=
  if String.eqb (platform_system h) "Windows" then Ok WindowsInkscapeInstaller
  else if String.eqb (platform_system h) "Darwin" then Ok MacOSInkscapeInstaller
  else if String.eqb (platform_system h) "Linux" then Ok LinuxInkscapeInstaller
  else Raise NotImplementedError.

Definition md3d_dir (h : host) : string := home h // ".md3d".

(** [self.install_path = Path.home() / ".md3d/inkscape"] *)
Definition install_path (h : host) : string := md3d_dir h // "inkscape".

(** [self.binary], as [str(inkscape.binary)] reads it *)
Definition binary (h : host) (i : installer) : string :=
  match i with
  | MacOSInkscapeInstaller => install_path h // "Inkscape.app/Contents/MacOS/inkscape"
  | _ => "None"
  end.

(** [InkscapeInstaller.is_installed] *)
Definition is_installed (h : host) (w : world) : bool :=
  path_exists (install_path h) w.

(** Modelled from the spec: [utils/dmgextractor.py] is not among the
    sources.  The spec has it mount the archive, copy it into the install
    path and unmount on every exit path; a failed mount is a failed
    external command. *)
Definition dmg_extractall (h : host) (dmg dest : string) (w : world) : result world :=
  if dmg_mounts h dmg
  then Ok (emit (DmgExtract dmg dest)
             {| fs := <[dest // "Inkscape.app" := Dir]> (fs w); events := events w |})
  else Raise CalledProcessError.

Definition windows_url : string :=
  "https://inkscape.org/gallery/item/44622/inkscape-1.3.2_2023-11-25_091e20e-x64.7z".
Definition macos_url : string :=
  "https://inkscape.org/gallery/item/44624/Inkscape-1.3.2_arm64.dmg".
Definition linux_url : string :=
  "https://inkscape.org/gallery/item/44615/inkscape-1.3.2.tar.xz".

(** [WindowsInkscapeInstaller.install] *)
Definition install_windows (h : host) (w : world) : result world :=
  let inkscape_path := install_path h in
  let w := print "Downloading Inkscape for Windows..." w in
  '(response, w) ← http_get h windows_url w;
  if status_code response =? 200 then
    w ← write_in inkscape_path "inkscape.7z" (content response) w;
    let w := print "Download completed." w in
    let w := print "Extracting Inkscape..." w in
    w ← subprocess_run h
          ["7z"; "x"; inkscape_path // "inkscape.7z"; "-o" +:+ inkscape_path] w;
    Ok (print "Inkscape installed successfully." w)
  else Ok (print "Failed to download Inkscape." w).

(** [MacOSInkscapeInstaller.install] *)
Definition install_macos (h : host) (w : world) : result world :=
  w ← mkdir_parents [md3d_dir h; install_path h] w;
  let download_path := md3d_dir h in
  let w := print "Downloading Inkscape for MacOS..." w in
  '(response, w) ← http_get h macos_url w;
  if status_code response =? 200 then
    let dmg_path := download_path // "Inkscape.dmg" in
    w ← write_in download_path "Inkscape.dmg" (content response) w;
    let w := print "Download completed." w in
    let w := print "Installing Inkscape..." w in
    dmg_extractall h dmg_path (install_path h) w
  else Ok (print "Failed to download Inkscape." w).

(** [LinuxInkscapeInstaller.install] *)
Definition install_linux (h : host) (w : world) : result world :=
  let source_path := home h // "inkscape_source" in
  let w := print "Downloading Inkscape for Linux..." w in
  '(response, w) ← http_get h linux_url w;
  if status_code response =? 200 then
    w ← write_in source_path "inkscape.tar.xz" (content response) w;
    let w := print "Download completed." w in
    let w := print "Installing Inkscape..." w in
    w ← subprocess_run h
          ["tar"; "-xf"; source_path // "inkscape.tar.xz"; "-C"; source_path] w;
    let build_path := source_path // "build" in
    w ← mkdir_parents [build_path] w;
    let w := emit (Chdir build_path) w in
    w ← subprocess_run h ["cmake"; ".."; "-DCMAKE_INSTALL_PREFIX=" +:+ install_path h] w;
    w ← subprocess_run h ["make"] w;
    w ← subprocess_run h ["make"; "install"] w;
    Ok (print "Inkscape installed successfully." w)
  else Ok (print "Failed to download Inkscape." w).

Definition install (i : installer) (h : host) (w : world) : result world :=
  match i with
  | WindowsInkscapeInstaller => install_windows h w
  | MacOSInkscapeInstaller => install_macos h w
  | LinuxInkscapeInstaller => install_linux h w
  end.

(** The first statement of [main]:
    [if not inkscape.is_installed(): inkscape.install()] *)
Definition ensure_installed (i : installer) (h : host) (w : world) : result world :=
  if is_installed h w then Ok w else install i h w.

(** The calls the idempotence property is about: downloads, and the
    extraction or build steps. *)
Definition is_install_effect (e : event) : bool :=
  match e with
  | HttpGet _ | DmgExtract _ _ | Subprocess _ => true
  | _ => false
  end.

End Installer.

(** ** AssetExtractor: [download_images_from_markdown] *)

Module Extractor.
Import PyStr.

(** The test of the first loop:
    [line.startswith('![') and '](' in line and line.endswith(')')] *)
Definition is_image_line (line : string) : bool :=
  startswith "![" line && contains "](" line && endswith ")" line.

(** [link_start], [link_end] and [image_link] of a matched line *)
Definition image_link (line : string) : string :=
  let link_start := find "](" line 0 + 2 in
  let link_end := find ")" line link_start in
  slice line link_start link_end.

(** [lines.remove(line)]: drops the first element equal to [line] *)
Fixpoint list_remove (line : string) (lines : list string) : list string :=
  match lines with
  | [] => []
  | x :: rest => if decide (x = line) then rest else x :: list_remove line rest
  end.

(** [for line in lines: ...] over a list that the body shrinks.  The
    iterator is a position [idx] into the live list: each round reads
    [lines[idx]], stops when [idx] is past the end, and moves on to
    [idx + 1] whatever the body removed.  The position grows by one per
    round and the list never grows, so [length lines] rounds from position
    0 exhaust it. *)
Fixpoint scan_loop (fuel idx : nat) (lines image_links : list string)
  : list string * list string :=
  match fuel with
  | O => (image_links, lines)
  | S fuel' =>
      match lines !! idx with
      | None => (image_links, lines)
      | Some line =>
          if is_image_line line
          then scan_loop fuel' (S idx) (list_remove line lines)
                 (image_links ++ [image_link line])
          else scan_loop fuel' (S idx) lines image_links
      end
  end.

(** The first loop, from [lines = md_content.split('\n')] on:
    returns [(image_links, lines)]. *)
Definition scan_lines (lines : list string) : list string * list string :=
  scan_loop (length lines) 0 lines [].

(** The same loop resumed at position [idx] of the live list, with the
    rounds that are left. *)
Definition scan_from (idx : nat) (lines image_links : list string)
  : list string * list string :=
  scan_loop (length lines - idx) idx lines image_links.

(** The locals of the second loop that outlive a round.  [None] is a
    name not yet bound.  ([img_name] is only read right after it is
    assigned, in the same branch.) *)
Record locals : Type := Locals {
  img_data : option string;
  img_path : option string
}.

(** The [if link.startswith('http') ... else ...] of one round.  A request
    that raises reaches [except requests.exceptions], which names a module
    and not an exception class, so Python raises [TypeError]; so does
    [raise(f"...")] after a [FileNotFoundError], as a [str] is no
    exception. *)
Definition resolve (h : host) (base_dir link : string) (lv : locals) (w : world)
  : result (locals * world) :=
  if startswith "http" link then
    match requests_get h link with
    | None => Raise TypeError
    | Some response =>
        let w := emit (HttpGet link) w in
        if status_code response =? 200 then
          let img_name := url_basename h link in
          Ok ({| img_data := Some (content response);
                 img_path := Some (base_dir // img_name) |}, w)
        else Ok (lv, w)
    end
  else
    let p := path_str h link in
    match fs w !! p with
    | Some (File data) => Ok ({| img_data := Some data; img_path := Some p |}, w)
    | Some Dir => Raise IsADirectoryError
    | None => Raise TypeError
    end.

(** [with open(img_path, 'wb') as f: f.write(img_data)] and
    [image_paths.append(str(img_path))] *)
Definition store (lv : locals) (w : world) (image_paths : list string)
  : result (world * list string) :=
  match img_path lv with
  | None => Raise UnboundLocalError
  | Some p =>
      match fs w !! p with
      | Some Dir => Raise IsADirectoryError
      | _ =>
          match img_data lv with
          | None => Raise UnboundLocalError
          | Some data =>
              Ok ({| fs := <[p := File data]> (fs w); events := events w |},
                  image_paths ++ [p])
          end
      end
  end.

(** The second loop, [for link in image_links: ...] *)
Fixpoint fetch_loop (h : host) (base_dir : string) (image_links : list string)
    (lv : locals) (w : world) (image_paths : list string)
  : result (world * list string) :=
  match image_links with
  | [] => Ok (w, image_paths)
  | link :: rest =>
      '(lv, w) ← resolve h base_dir link lv w;
      '(w, image_paths) ← store lv w image_paths;
      fetch_loop h base_dir rest lv w image_paths
  end.

(** Returns [(image_paths, cleaned_md_content)] and the world it leaves. *)
Definition download_images_from_markdown
    (h : host) (md_content base_dir : string) (w : world)
  : result (list string * string * world) :=
  let lines := split newline md_content in
  let '(image_links, lines) := scan_lines lines in
  '(w, image_paths) ←
    fetch_loop h base_dir image_links {| img_data := None; img_path := None |} w [];
  let w := emit (PrintImagePaths image_paths) w in
  let cleaned_md_content := join newline lines in
  Ok (image_paths, cleaned_md_content, w).

End Extractor.

(** ** SectionSegmenter and SlideRenderer *)

(** [split_markdown] *)
Definition split_markdown (md_content : string) : list string :=
  PyStr.split "---" md_content.

Module Renderer.

(** [markdown_to_html]: prints, renders, and leaves [test.html] in the
    working directory. *)
Definition markdown_to_html (h : host) (md_text : string) (w : world)
  : result (string * world) :=
  let w := print "Converting Markdown to HTML..." w in
  let w := print md_text w in
  let full_html := markdown_html h md_text in
  match fs w !! "test.html" with
  | Some Dir => Raise IsADirectoryError
  | _ => Ok (full_html,
             {| fs := <["test.html" := File full_html]> (fs w); events := events w |})
  end.

(** [doc.save(dir / name)] of fitz: the directory has to be there, and
    the path must not name a directory. *)
Definition doc_save (dir name data : string) (w : world) : result world :=
  match fs w !! dir with
  | Some Dir =>
      match fs w !! (dir // name) with
      | Some Dir => Raise MupdfError
      | _ => Ok {| fs := <[dir // name := File data]> (fs w); events := events w |}
      end
  | _ => Raise MupdfError
  end.

(** [convert_md_to_pdf]; the path [output_pdf] is given by its directory
    and its file name, as the one call builds it. *)
Definition convert_md_to_pdf (h : host) (md_text dir name : string) (w : world)
  : result world :=
  '(html, w) ← markdown_to_html h md_text w;
  doc_save dir name (html_pdf h html) w.

(** [convert_pdf_to_svg]: a non-zero exit is caught and printed; a program
    that is not there is not. *)
Definition convert_pdf_to_svg (h : host) (inkscape_binary input_pdf output_svg : string)
    (w : world) : result world :=
  let argv := [inkscape_binary; input_pdf; "--export-type=svg";
               "--export-filename=" +:+ output_svg] in
  match run h argv with
  | ExitZero => Ok (emit (Subprocess argv) w)
  | ExitNonZero => Ok (print "An error occurred: " w)
  | NoSuchProgram => Raise FileNotFoundError
  end.

(** [convert_to_svgs], with the loop index [i] of [enumerate] explicit *)
Fixpoint convert_to_svgs_from (h : host) (inkscape_binary : string) (i : nat)
    (md_sections : list string) (base_dir : string) (w : world)
  : result (list string * world) :=
  match md_sections with
  | [] => Ok ([], w)
  | section :: rest =>
      let output_pdf := base_dir // ("section_" +:+ pretty i +:+ ".pdf") in
      let output_svg := base_dir // ("section_" +:+ pretty i +:+ ".svg") in
      w ← convert_md_to_pdf h section base_dir ("section_" +:+ pretty i +:+ ".pdf") w;
      w ← convert_pdf_to_svg h inkscape_binary output_pdf output_svg w;
      '(svg_filenames, w) ← convert_to_svgs_from h inkscape_binary (S i) rest base_dir w;
      Ok (output_svg :: svg_filenames, w)
  end.

Definition convert_to_svgs (h : host) (inkscape_binary : string)
    (md_sections : list string) (base_dir : string) (w : world)
  : result (list string * world) :=
  convert_to_svgs_from h inkscape_binary 0 md_sections base_dir w.

End Renderer.

(** ** SceneComposer: the scene and the layout functions

    Of the host's scene only what placement reads or writes is kept:
    objects with name, location, X rotation, scale, mesh width, solidify
    modifier and location keyframes; the active object, the scene camera,
    the current frame and the material names.  Shader nodes, collections
    and the viewport are left out: nothing here reads them back. *)

Module Layout.
Import PyStr.
Local Open Scope Q_scope.

Record vec3 : Type := Vec3 { vx : Q; vy : Q; vz : Q }.

Record solidify : Type := Solidify { offset : Q; thickness : Q }.

Record object : Type := Object {
  ob_id : nat;                   (* identity: what [obj in existing_objects] compares *)
  ob_name : string;
  ob_location : vec3;
  ob_rotation_x : Q;             (* rotation_euler[0] *)
  ob_scale : vec3;
  ob_extent_x : Q;               (* width of the mesh along X, unscaled *)
  ob_solidify : option solidify; (* modifiers['Solidify'] *)
  ob_keys : gmap nat vec3        (* keyframes of 'location': frame -> value *)
}.

Record scene : Type := Scene {
  objects : list object;         (* bpy.data.objects *)
  next_id : nat;
  active : option nat;           (* bpy.context.active_object *)
  camera : option nat;           (* bpy.context.scene.camera *)
  frame_current : nat;
  materials : list string        (* names in bpy.data.materials *)
}.

Definition set_name (n : string) (o : object) : object :=
  Object (ob_id o) n (ob_location o) (ob_rotation_x o) (ob_scale o)
    (ob_extent_x o) (ob_solidify o) (ob_keys o).
Definition set_location (l : vec3) (o : object) : object :=
  Object (ob_id o) (ob_name o) l (ob_rotation_x o) (ob_scale o)
    (ob_extent_x o) (ob_solidify o) (ob_keys o).
Definition set_rotation_x (r : Q) (o : object) : object :=
  Object (ob_id o) (ob_name o) (ob_location o) r (ob_scale o)
    (ob_extent_x o) (ob_solidify o) (ob_keys o).
Definition set_scale (sc : vec3) (o : object) : object :=
  Object (ob_id o) (ob_name o) (ob_location o) (ob_rotation_x o) sc
    (ob_extent_x o) (ob_solidify o) (ob_keys o).
Definition set_extent_x (e : Q) (o : object) : object :=
  Object (ob_id o) (ob_name o) (ob_location o) (ob_rotation_x o) (ob_scale o)
    e (ob_solidify o) (ob_keys o).
Definition set_solidify (m : solidify) (o : object) : object :=
  Object (ob_id o) (ob_name o) (ob_location o) (ob_rotation_x o) (ob_scale o)
    (ob_extent_x o) (Some m) (ob_keys o).
Definition set_keys (k : gmap nat vec3) (o : object) : object :=
  Object (ob_id o) (ob_name o) (ob_location o) (ob_rotation_x o) (ob_scale o)
    (ob_extent_x o) (ob_solidify o) k.

Definition set_x (x : Q) (v : vec3) : vec3 := Vec3 x (vy v) (vz v).

Definition with_objects (l : list object) (s : scene) : scene :=
  Scene l (next_id s) (active s) (camera s) (frame_current s) (materials s).

(** A write through a reference to the object [id] *)
Definition update_object (id : nat) (f : object -> object) (s : scene) : scene :=
  with_objects ((fun o => if decide (ob_id o = id) then f o else o) <$> objects s) s.

Fixpoint find_object (id : nat) (l : list object) : option object :=
  match l with
  | [] => None
  | o :: rest => if decide (ob_id o = id) then Some o else find_object id rest
  end.

(** The object a reference [id] points to *)
Definition get_object (id : nat) (s : scene) : option object :=
  find_object id (objects s).

(** The host adds an object: fresh identity, at the origin, unit scale,
    and it becomes the active object. *)
Definition new_object (name : string) (extent_x : Q) (s : scene) : scene :=
  let o := Object (next_id s) name (Vec3 0 0 0) 0 (Vec3 1 1 1) extent_x None ∅ in
  Scene (objects s ++ [o]) (S (next_id s)) (Some (next_id s)) (camera s)
    (frame_current s) (materials s).

(** [bpy.ops.mesh.primitive_plane_add(size=size, ...)] *)
Definition primitive_plane_add (size : Q) (s : scene) : scene :=
  new_object "Plane" size s.

(** [bpy.context.active_object], about to be dereferenced *)
Definition active_object (s : scene) : result nat :=
  match active s with
  | Some id => Ok id
  | None => Raise AttributeError
  end.

(** [obj.dimensions.x] of an evaluated object: the mesh width times the
    magnitude of the X scale *)
Definition dimensions_x (o : object) : Q := ob_extent_x o * Qabs (vx (ob_scale o)).

(** [create_material]: only the name matters to what follows *)
Definition create_material (name : string) (s : scene) : scene :=
  Scene (objects s) (next_id s) (active s) (camera s) (frame_current s)
    (materials s ++ [name]).

(** [bpy.data.materials[name]] *)
Definition material (name : string) (s : scene) : result string :=
  if bool_decide (name ∈ materials s) then Ok name else Raise KeyError.

(** One round of [import_and_position_images] *)
Definition position_image (h : host) (offset_y offset_z text_plane_width : Q)
    (i : nat) (img_path : string) (s : scene) : result scene :=
  match image_size h img_path with
  | None => Raise FileNotFoundError
  | Some (width, height) =>
      let img_name := path_basename h img_path in
      let s := primitive_plane_add 1 s in
      plane ← active_object s;
      (* [plane.dimensions] is what the dependency graph evaluated last,
         inside the operator: the scale assigned below is not in it *)
      let evaluated := get_object plane s in
      let s := update_object plane (set_rotation_x 1.5708) s in
      let img_aspect := inject_Z (Z.pos width) / inject_Z (Z.pos height) in
      let s := update_object plane (fun o =>
                 set_scale (Vec3 img_aspect (vy (ob_scale o)) (vz (ob_scale o))) o) s in
      let text_plane_center_x := inject_Z (Z.of_nat i) * text_plane_width in
      let right_edge_text_plane := text_plane_center_x + text_plane_width / 2 in
      let s := update_object plane (fun o =>
                 set_location
                   (Vec3 (right_edge_text_plane - from_option dimensions_x 0 evaluated / 2
                          + inject_Z (Z.of_nat i) / vx (ob_scale o))
                         offset_y offset_z) o) s in
      let s := create_material (img_name +:+ "_Mat") s in
      let s := update_object plane (set_name ("Image " +:+ pretty i)) s in
      Ok s
  end.

Fixpoint position_images_from (h : host) (offset_y offset_z text_plane_width : Q)
    (i : nat) (image_paths : list string) (s : scene) : result scene :=
  match image_paths with
  | [] => Ok s
  | img_path :: rest =>
      s ← position_image h offset_y offset_z text_plane_width i img_path s;
      position_images_from h offset_y offset_z text_plane_width (S i) rest s
  end.

(** [import_and_position_images(image_paths, offset_y, offset_z, text_plane_width)];
    [offset_x] is not used by the body. *)
Definition import_and_position_images (h : host) (image_paths : list string)
    (offset_y offset_z text_plane_width : Q) (s : scene) : result scene :=
  position_images_from h offset_y offset_z text_plane_width 0 image_paths s.

(** The defaults of the signature: [offset_y=-0.05, offset_z=2.8,
    text_plane_width=2] *)
Definition default_offset_y : Q := - (5 # 100).
Definition default_offset_z : Q := 28 # 10.
Definition default_text_plane_width : Q := 2.

(** The X coordinate of the right edge of a panel as the scene shows it:
    centre plus half width *)
Definition right_edge (o : object) : Q := vx (ob_location o) + dimensions_x o / 2.

(** [bpy.ops.import_curve.svg(filepath=svg_file)] on a file the importer
    reads: one new object per curve of the file, [svg_curves] being the
    host's answer for that file.  On a file that was never written the
    operator raises; such a run is not a run of this model. *)
Definition import_curve_svg (h : host) (svg_file : string) (s : scene) : scene :=
  foldl (fun s name => new_object name 0 s) s (svg_curves h svg_file).

(** One round of the scan
    [for obj in bpy.data.objects: if obj not in existing_objects: ...],
    which appends to both [new_objects] and [existing_objects]; the state
    is [(existing_objects, new_objects)]. *)
Definition collect_step (st : list nat * list nat) (o : object) : list nat * list nat :=
  let '(existing, new) := st in
  if bool_decide (ob_id o ∈ existing) then (existing, new)
  else (existing ++ [ob_id o], new ++ [ob_id o]).

(** The whole scan; returns [(existing_objects, new_objects)]. *)
Definition collect_new (objs : list object) (existing_objects : list nat)
  : list nat * list nat :=
  foldl collect_step (existing_objects, []) objs.

(** The key points of one channel of the location keyframes *)
Definition channel (p : vec3 -> Q) (keys : gmap nat vec3) : list (nat * Q) :=
  (fun kv => (kv.1, p kv.2)) <$> map_to_list keys.

(** What the dependency graph makes of an object at frame [f]: a location
    with keyframes is read off its F-curves, channel by channel; a
    location without keyframes stays as it is. *)
Definition evaluate (h : host) (f : nat) (o : object) : object :=
  match map_to_list (ob_keys o) with
  | [] => o
  | _ :: _ =>
      set_location (Vec3 (fcurve h (channel vx (ob_keys o)) f)
                         (fcurve h (channel vy (ob_keys o)) f)
                         (fcurve h (channel vz (ob_keys o)) f)) o
  end.

(** [bpy.context.scene.frame_set(f)]: the frame changes and every object
    is evaluated at it. *)
Definition frame_set (h : host) (f : nat) (s : scene) : scene :=
  Scene (evaluate h f <$> objects s) (next_id s) (active s) (camera s) f (materials s).

(** [obj.keyframe_insert(data_path='location', index=-1)] at the current
    frame *)
Definition keyframe_insert_location (id : nat) (s : scene) : scene :=
  update_object id
    (fun o => set_keys (<[frame_current s := ob_location o]> (ob_keys o)) o) s.

(** The body of [for obj in new_objects:], the camera keyframe included:
    it sits inside this loop in the source. *)
Definition transform_object (h : host) (offset_x : Z) (i : nat) (obj : nat) (s : scene)
  : result scene :=
  let s := update_object obj (set_rotation_x 1.5708) s in
  let s :=
    if contains "Slide" (from_option ob_name "" (get_object obj s)) then
      update_object obj (fun o =>
        set_solidify (Solidify 0 (2 # 100))
          (set_location (set_x (inject_Z (Z.of_nat i * offset_x)) (ob_location o)) o)) s
    else
      update_object obj (fun o =>
        set_solidify (Solidify 0 (10 # 10000))
          (set_location
             (Vec3 (inject_Z (Z.of_nat i * offset_x) - (9 # 10))
                   (vy (ob_location o) - (5 # 100))
                   (vz (ob_location o) + (15 # 100)))
             (set_scale (Vec3 10 10 10) o))) s in
  let s := frame_set h (S i) s in
  match camera s with
  | None => Raise AttributeError
  | Some cam =>
      let s := update_object cam (fun o =>
                 set_location (set_x (inject_Z (offset_x * Z.of_nat i)) (ob_location o)) o) s in
      Ok (keyframe_insert_location cam s)
  end.

Fixpoint transform_objects (h : host) (offset_x : Z) (i : nat) (new_objects : list nat)
    (s : scene) : result scene :=
  match new_objects with
  | [] => Ok s
  | obj :: rest =>
      s ← transform_object h offset_x i obj s;
      transform_objects h offset_x i rest s
  end.

(** The body of [for i, svg_file in enumerate(svg_files):] *)
Definition import_slide (h : host) (offset_x : Z) (i : nat) (svg_file : string)
    (existing_objects : list nat) (s : scene) : result (list nat * scene) :=
  (* the backing plane, resized to 2 x 1 in edit mode *)
  let s := primitive_plane_add 1 s in
  plane ← active_object s;
  let s := update_object plane (fun o => set_extent_x (2 * ob_extent_x o) o) s in
  _ ← material "Slides" s;
  let s := update_object plane (set_name ("Slide " +:+ pretty i)) s in
  let s := import_curve_svg h svg_file s in
  let '(existing_objects, new_objects) := collect_new (objects s) existing_objects in
  s ← transform_objects h offset_x i new_objects s;
  Ok (existing_objects, s).

Fixpoint import_slides_from (h : host) (offset_x : Z) (i : nat) (svg_files : list string)
    (existing_objects : list nat) (s : scene) : result scene :=
  match svg_files with
  | [] => Ok s
  | svg_file :: rest =>
      '(existing_objects, s) ← import_slide h offset_x i svg_file existing_objects s;
      import_slides_from h offset_x (S i) rest existing_objects s
  end.

(** [import_and_transform_svgs(svg_files, offset_x)] *)
Definition import_and_transform_svgs (h : host) (svg_files : list string) (offset_x : Z)
    (s : scene) : result scene :=
  let existing_objects := ob_id <$> objects s in
  import_slides_from h offset_x 0 svg_files existing_objects s.

(** The location keyframes of the scene camera *)
Definition camera_keys (s : scene) : gmap nat vec3 :=
  from_option ob_keys ∅ (camera s ≫= fun cam => get_object cam s).

(** The backdrop block of [main]: the imported backdrop is the active
    object; its X scale is [backdrop_width], Y and Z scale
    [backdrop_height = 10]. *)
Definition place_backdrop (svg_files : list string) (s : scene) : result scene :=
  let backdrop_width := (Z.of_nat (length svg_files) * 6)%Z in
  let s := new_object "backdrop" 1 s in
  backdrop ← active_object s;
  let backdrop_height := 10 in
  let s := update_object backdrop (fun o =>
             set_scale (Vec3 (inject_Z backdrop_width) backdrop_height backdrop_height) o) s in
  let s := update_object backdrop (fun o =>
             set_location (set_x (inject_Z backdrop_width / 2 - (5 # 10)) (ob_location o)) o) s in
  let s := create_material "Backdrop" s in
  Ok s.

End Layout.

(** ** PipelineOrchestrator: [main] *)

Module Pipeline.
Import Layout.

(** [Path.read_text] *)
Definition read_text (p : string) (w : world) : result string :=
  match fs w !! p with
  | Some (File data) => Ok data
  | Some Dir => Raise IsADirectoryError
  | None => Raise FileNotFoundError
  end.

(** The scene part of [main], from "remove the default cube" to the
    backdrop: everything between [convert_to_svgs] and the save. *)
Definition compose_scene (h : host) (image_paths svg_files : list string) (s : scene)
  : result scene :=
  (* remove the default cube and everything else *)
  let s := Scene [] (next_id s) None None (frame_current s) (materials s) in
  let s := create_material "Slides" s in
  s ← import_and_position_images h image_paths
         default_offset_y default_offset_z default_text_plane_width s;
  (* add camera *)
  let s := new_object "Camera" 0 s in
  cam ← active_object s;
  let s := Scene (objects s) (next_id s) (active s) (Some cam) (frame_current s)
             (materials s) in
  let s := update_object cam (fun o =>
             set_rotation_x 1.5708 (set_location (Vec3 0 (- (65 # 10)) 3) o)) s in
  s ← import_and_transform_svgs h svg_files 3 s;
  let s := frame_set h 1 s in
  place_backdrop svg_files s.

(** What a run leaves behind: the world, the scene that was saved, and
    the intermediate values the properties speak about. *)
Record run_report : Type := Report {
  final_world : world;
  final_scene : scene;
  image_paths : list string;
  cleaned_md_content : string;
  markdown_sections : list string;
  svg_files : list string
}.

(** [main(input_md)], starting from world [w] and the host's scene [s]. *)
Definition main (h : host) (inkscape : Installer.installer) (input_md : string)
    (w : world) (s : scene) : result run_report :=
  w ← Installer.ensure_installed inkscape h w;
  let base_dir := Installer.md3d_dir h // "documents" in
  w ← mkdir_parents [Installer.md3d_dir h; base_dir] w;
  input_md_content ← read_text (path_str h input_md) w;
  let base_dir := Installer.md3d_dir h // "images" in
  w ← mkdir_parents [Installer.md3d_dir h; base_dir] w;
  '(image_paths, cleaned_md_content, w) ←
    Extractor.download_images_from_markdown h input_md_content base_dir w;
  let markdown_sections := split_markdown cleaned_md_content in
  '(svg_files, w) ←
    Renderer.convert_to_svgs h (Installer.binary h inkscape) markdown_sections base_dir w;
  s ← compose_scene h image_paths svg_files s;
  let blend := path_stem h input_md +:+ ".blend" in
  let w := emit (SaveMainfile blend) w in
  let w := print ("Conversion complete. Blend file saved as: " +:+ blend) w in
  Ok (Report w s image_paths cleaned_md_content markdown_sections svg_files).

End Pipeline.

(** ** Reference definitions the properties are stated against *)

Module Reference.

Definition is_dash (c : ascii) : bool := Ascii.eqb c "-".

(** The number of delimiters in a document, read left to right: three
    dashes in a row count once and are skipped. *)
Fixpoint delimiter_count (s : string) : nat :=
  match s with
  | "" => O
  | String c1 t =>
      match t with
      | String c2 (String c3 rest) =>
          if is_dash c1 && is_dash c2 && is_dash c3
          then S (delimiter_count rest)
          else delimiter_count t
      | _ => delimiter_count t
      end
  end.

(** Every image line of [pre] is followed, within [pre], by a line that
    is not one. *)
Fixpoint images_isolated (pre : list string) : bool :=
  match pre with
  | [] => true
  | x :: rest =>
      if Extractor.is_image_line x then
        match rest with
        | y :: rest' => negb (Extractor.is_image_line y) && images_isolated rest'
        | [] => false
        end
      else images_isolated rest
  end.

Definition image_lines (lines : list string) : list string :=
  filter (fun line => Extractor.is_image_line line = true) lines.

Definition text_lines (lines : list string) : list string :=
  filter (fun line => Extractor.is_image_line line = false) lines.

(** Writes to an object that leave its identity, or its keyframes, alone *)
Definition keeps_id (f : Layout.object -> Layout.object) : Prop :=
  forall o, Layout.ob_id (f o) = Layout.ob_id o.
Definition keeps_keys (f : Layout.object -> Layout.object) : Prop :=
  forall o, Layout.ob_keys (f o) = Layout.ob_keys o.

(** Object identities are handed out in order: every object of the scene
    was given one below [next_id]. *)
Definition ids_below_next (s : Layout.scene) : Prop :=
  Forall (fun o => (Layout.ob_id o < Layout.next_id s)%nat) (Layout.objects s).

(** A scene in which [import_and_transform_svgs] can run: it has the
    camera [cam] and the material of the slides. *)
Definition scene_ready (cam : nat) (s : Layout.scene) : Prop :=
  Layout.camera s = Some cam
  /\ is_Some (Layout.get_object cam s)
  /\ "Slides" ∈ Layout.materials s
  /\ ids_below_next s.

(** The archive an installer asks for, and the line it prints first. *)
Definition archive_url (i : Installer.installer) : string :=
  match i with
  | Installer.WindowsInkscapeInstaller => Installer.windows_url
  | Installer.MacOSInkscapeInstaller => Installer.macos_url
  | Installer.LinuxInkscapeInstaller => Installer.linux_url
  end.

Definition download_notice (i : Installer.installer) : string :=
  match i with
  | Installer.WindowsInkscapeInstaller => "Downloading Inkscape for Windows..."
  | Installer.MacOSInkscapeInstaller => "Downloading Inkscape for MacOS..."
  | Installer.LinuxInkscapeInstaller => "Downloading Inkscape for Linux..."
  end.

(** A path that names a file of the world *)
Definition is_file (w : world) (p : string) : Prop :=
  exists data, fs w !! p = Some (File data).


(** The paths the second loop returns, read off the links alone: a local
    link gives its own path, a remote link answered with 200 the path
    under [base_dir], and any other remote link the path of the image
    before it, [prev]. *)
Fixpoint returned_paths (h : host) (base_dir : string) (prev : option string)
    (image_links : list string) : list string :=
  match image_links with
  | [] => []
  | link :: rest =>
      let cur :=
        if PyStr.startswith "http" link then
          match requests_get h link with
          | Some r =>
              if status_code r =? 200
              then Some (base_dir // url_basename h link) else prev
          | None => prev
          end
        else Some (path_str h link) in
      match cur with
      | Some p => p :: returned_paths h base_dir cur rest
      | None => []
      end
  end.

(** The name [convert_to_svgs] gives the SVG of section [i] *)
Definition section_svg (base_dir : string) (i : nat) : string :=
  base_dir // ("section_" +:+ pretty i +:+ ".svg").

(** The file name of the PDF of section [i] *)
Definition section_pdf_name (i : nat) : string := "section_" +:+ pretty i +:+ ".pdf".

(** A world in which the pages of a deck can be saved under [base_dir]:
    the directory is there, and neither [test.html] nor the path of any
    section's PDF names a directory. *)
Definition can_save_sections (base_dir : string) (w : world) : Prop :=
  fs w !! base_dir = Some Dir
  /\ fs w !! "test.html" <> Some Dir
  /\ forall i, fs w !! (base_dir // section_pdf_name i) <> Some Dir.

(** The aspect ratio of an image, width over height *)
Definition aspect (size : positive * positive) : Q :=
  inject_Z (Z.pos size.1) / inject_Z (Z.pos size.2).

(** What [import_and_position_images] makes of the image at index [i]:
    name, orientation, scale by the aspect ratio, the two fixed offsets,
    and the centre at [i*w + w/2 - 1/2 + i/aspect]: the half width that is
    subtracted is that of the unscaled plane, 1/2. *)
Definition is_image_panel (h : host) (offset_y offset_z text_plane_width : Q)
    (i : nat) (img_path : string) (img : Layout.object) : Prop :=
  exists size,
    image_size h img_path = Some size
    /\ Layout.ob_name img = "Image " +:+ pretty i
    /\ Layout.ob_rotation_x img = 1.5708%Q
    /\ Layout.ob_scale img = Layout.Vec3 (aspect size) 1 1
    /\ Layout.ob_extent_x img = 1%Q
    /\ Layout.vy (Layout.ob_location img) = offset_y
    /\ Layout.vz (Layout.ob_location img) = offset_z
    /\ (Layout.vx (Layout.ob_location img) ==
          inject_Z (Z.of_nat i) * text_plane_width + text_plane_width / 2 - (1 # 2)
          + inject_Z (Z.of_nat i) / aspect size)%Q.

(** An object as the host adds it: at the origin, unrotated, unit scale,
    no modifier, no keyframes. *)
Definition blank_object (id : nat) (name : string) (extent_x : Q) : Layout.object :=
  Layout.Object id name (Layout.Vec3 0 0 0) 0 (Layout.Vec3 1 1 1) extent_x None ∅.

(** What the inner loop of [import_and_transform_svgs] makes of an object
    of slide [i] whose name contains [Slide] ... *)
Definition as_slide (offset_x : Z) (i : nat) (o : Layout.object) : Layout.object :=
  Layout.Object (Layout.ob_id o) (Layout.ob_name o)
    (Layout.Vec3 (inject_Z (Z.of_nat i * offset_x))
       (Layout.vy (Layout.ob_location o)) (Layout.vz (Layout.ob_location o)))
    1.5708 (Layout.ob_scale o) (Layout.ob_extent_x o)
    (Some (Layout.Solidify 0 (2 # 100))) (Layout.ob_keys o).

(** ... and of any other object. *)
Definition as_curve (offset_x : Z) (i : nat) (o : Layout.object) : Layout.object :=
  Layout.Object (Layout.ob_id o) (Layout.ob_name o)
    (Layout.Vec3 (inject_Z (Z.of_nat i * offset_x) - (9 # 10))
       (Layout.vy (Layout.ob_location o) - (5 # 100))
       (Layout.vz (Layout.ob_location o) + (15 # 100)))
    1.5708 (Layout.Vec3 10 10 10) (Layout.ob_extent_x o)
    (Some (Layout.Solidify 0 (10 # 10000))) (Layout.ob_keys o).

Definition placed (offset_x : Z) (i : nat) (o : Layout.object) : Layout.object :=
  if PyStr.contains "Slide" (Layout.ob_name o)
  then as_slide offset_x i o else as_curve offset_x i o.

(** The command line [convert_pdf_to_svg] runs for section [i] *)
Definition inkscape_argv (inkscape_binary base_dir : string) (i : nat) : list string :=
  [inkscape_binary; base_dir // ("section_" +:+ pretty i +:+ ".pdf");
   "--export-type=svg"; "--export-filename=" +:+ section_svg base_dir i].

End Reference.

(** ** Concrete hosts, worlds and documents *)

Module Example.

(** F-curves that hold the value of the latest key at or before the frame *)
Definition fcurve_hold (points : list (nat * Q)) (f : nat) : Q :=
  (foldl (fun best p => if ((best.1 <=? p.1) && (p.1 <=? f))%nat then p else best)
     (0%nat, 0%Q) points).2.

(** A macOS host whose every HTTP request is answered with status 404. *)
Definition host_404 : host := {|
  platform_system := "Darwin";
  home := "/Users/u";
  requests_get := fun _ => Some (Response 404 "Not Found");
  run := fun _ => ExitZero;
  dmg_mounts := fun _ => true;
  path_str := fun p => p;
  url_basename := fun _ => "b.png";
  path_basename := fun p => p;
  path_stem := fun _ => "deck";
  image_size := fun p => if String.eqb p "wide.png"
                         then Some (2%positive, 1%positive)
                         else Some (1%positive, 1%positive);
  markdown_html := fun md => md;
  html_pdf := fun html => html;
  svg_curves := fun _ => ["Curve"];
  fcurve := fcurve_hold
|}.

(** A Linux host that serves every request with status 200 and on which
    no program can be started. *)
Definition host_200 : host := {|
  platform_system := "Linux";
  home := "/home/u";
  requests_get := fun url => Some (Response 200 ("bytes of " +:+ url));
  run := fun _ => NoSuchProgram;
  dmg_mounts := fun _ => true;
  path_str := fun p => p;
  url_basename := fun _ => "pic.png";
  path_basename := fun p => p;
  path_stem := fun _ => "deck";
  image_size := fun _ => Some (4%positive, 3%positive);
  markdown_html := fun md => md;
  html_pdf := fun html => html;
  svg_curves := fun _ => ["Curve"; "Curve.001"];
  fcurve := fcurve_hold
|}.

Definition images_dir : string := "/Users/u/.md3d/images".

(** Nothing on disk, nothing has happened. *)
Definition fresh_world : world := World ∅ [].

(** The working directory holds [a.png] and [b.png]. *)
Definition world_with_images : world :=
  World (<["a.png" := File "PNG-A"]> (<["b.png" := File "PNG-B"]> ∅)) [].

(** Inkscape's directory is there, and so is the deck [deck.md]. *)
Definition deck_text : string := "# A---".

(** The host's start-up scene: one cube. *)
Definition startup_scene : Layout.scene :=
  Layout.new_object "Cube" 2 (Layout.Scene [] 0 None None 0 []).

(** An empty scene with the slide material. *)
Definition empty_scene : Layout.scene := Layout.Scene [] 0 None None 0 ["Slides"].

(** That scene after the panels of [a.png] (1 by 1) and [wide.png]
    (2 by 1) were placed on the host above. *)
Definition panel_scene : Layout.scene :=
  match Layout.import_and_position_images host_404 ["a.png"; "wide.png"]
          Layout.default_offset_y Layout.default_offset_z
          Layout.default_text_plane_width empty_scene with
  | Ok s => s
  | Raise _ => empty_scene
  end.

(** A scene as [main] hands it to [import_and_transform_svgs]: the
    material, and a camera without keyframes. *)
Definition camera_scene : Layout.scene :=
  let s := Layout.new_object "Camera" 0 empty_scene in
  Layout.Scene (Layout.objects s) (Layout.next_id s) (Layout.active s) (Some 0%nat)
    (Layout.frame_current s) (Layout.materials s).

(** The same, with a cube that was there before the camera. *)
Definition cube_camera_scene : Layout.scene :=
  let s := Layout.new_object "Camera" 0 (Layout.new_object "Cube" 2 empty_scene) in
  Layout.Scene (Layout.objects s) (Layout.next_id s) (Layout.active s) (Some 1%nat)
    (Layout.frame_current s) (Layout.materials s).

(** The two scenes above after [import_and_transform_svgs] has placed a
    deck of two slides in them, with one curve per slide. *)
Definition deck_scene : Layout.scene :=
  match Layout.import_and_transform_svgs host_404 ["s0.svg"; "s1.svg"] 3 camera_scene with
  | Ok s => s
  | Raise _ => empty_scene
  end.

Definition cube_deck_scene : Layout.scene :=
  match Layout.import_and_transform_svgs host_404 ["s0.svg"; "s1.svg"] 3
          cube_camera_scene with
  | Ok s => s
  | Raise _ => empty_scene
  end.

Definition installed_world : world :=
  World (<["/Users/u/.md3d" := Dir]>
           (<["/Users/u/.md3d/inkscape" := Dir]>
              (<["deck.md" := File deck_text]> ∅))) [].

(** The run of [main] on [deck.md], and what it reports. *)
Definition deck_run : result Pipeline.run_report :=
  Pipeline.main host_404 Installer.MacOSInkscapeInstaller "deck.md"
    installed_world startup_scene.

Definition deck_report : Pipeline.run_report :=
  match deck_run with
  | Ok r => r
  | Raise _ => Pipeline.Report fresh_world empty_scene [] "" [] []
  end.

(** A host on which Inkscape fails on the first section of a deck under
    [out], and converts the others. *)
Definition host_flaky : host := {|
  platform_system := "Darwin";
  home := "/Users/u";
  requests_get := fun _ => None;
  run := fun argv =>
           match argv !! 1%nat with
           | Some pdf => if String.eqb pdf "out/section_0.pdf" then ExitNonZero else ExitZero
           | None => ExitZero
           end;
  dmg_mounts := fun _ => true;
  path_str := fun p => p;
  url_basename := fun _ => "b.png";
  path_basename := fun p => p;
  path_stem := fun _ => "deck";
  image_size := fun _ => Some (1%positive, 1%positive);
  markdown_html := fun md => md;
  html_pdf := fun html => html;
  svg_curves := fun _ => ["Curve"];
  fcurve := fcurve_hold
|}.

(** The directory [out] is there, and nothing else. *)
Definition out_world : world := World (<["out" := Dir]> ∅) [].

(** The world after rendering the two sections [# A] and the empty one
    on that host. *)
Definition rendered_world : world :=
  match Renderer.convert_to_svgs host_flaky "inkscape" ["# A"; ""] "out" out_world with
  | Ok (_, w) => w
  | Raise _ => fresh_world
  end.

Definition two_adjacent_images : string :=
  "![a](a.png)" +:+ newline +:+ "![b](b.png)".

Definition three_adjacent_lines : list string :=
  ["![a](a.png)"; "![b](b.png)"; "![c](c.png)"].

Definition local_then_remote : string :=
  "![a](a.png)" +:+ newline +:+ "text" +:+ newline +:+ "![b](http://example.org/b.png)".

Definition remote_only : string := "![b](http://example.org/b.png)".


Definition plain_text : string := "# Title" +:+ newline +:+ "some text".

(** A host whose SVG importer names a curve after the slide's title. *)
Definition host_titled : host := {|
  platform_system := "Linux";
  home := "/home/u";
  requests_get := fun _ => None;
  run := fun _ => ExitZero;
  dmg_mounts := fun _ => true;
  path_str := fun p => p;
  url_basename := fun _ => "pic.png";
  path_basename := fun p => p;
  path_stem := fun _ => "deck";
  image_size := fun _ => Some (4%positive, 3%positive);
  markdown_html := fun md => md;
  html_pdf := fun html => html;
  svg_curves := fun _ => ["Curve"; "Slide title"];
  fcurve := fcurve_hold
|}.

End Example.

(** * Properties *)

Local Arguments String.append !_ _ / : simpl nomatch.

(** ** Strings *)

Section str_facts.
Import PyStr.
Local Open Scope nat_scope.

Lemma str_take_drop n s : str_take n s +:+ str_drop n s = s.
Proof.
  revert s; induction n as [|n IH]; intros [|c s]; simpl; try done.
  by rewrite IH.
Qed.

Lemma str_length_app s t : String.length (s +:+ t) = String.length s + String.length t.
Proof. induction s as [|c s IH]; simpl; [done|]. by rewrite IH. Qed.

Lemma str_app_assoc s t u : (s +:+ t) +:+ u = s +:+ t +:+ u.
Proof. induction s as [|c s IH]; simpl; [done|]. by rewrite IH. Qed.

Lemma str_app_nil_r s : s +:+ "" = s.
Proof. induction s as [|c s IH]; simpl; [done|]. by rewrite IH. Qed.

Lemma str_length_take n s : String.length (str_take n s) = n `min` String.length s.
Proof.
  revert s; induction n as [|n IH]; intros [|c s]; simpl; try done.
  by rewrite IH.
Qed.

Lemma str_length_drop n s : String.length (str_drop n s) = String.length s - n.
Proof.
  revert s; induction n as [|n IH]; intros [|c s]; simpl; try done.
Qed.

Lemma str_drop_app_length s t : str_drop (String.length s) (s +:+ t) = t.
Proof. induction s as [|c s IH]; simpl; [by destruct t|done]. Qed.

Lemma str_take_app_length s t : str_take (String.length s) (s +:+ t) = s.
Proof. induction s as [|c s IH]; simpl; [by destruct t|]. by rewrite IH. Qed.

Lemma str_drop_drop n m s : str_drop n (str_drop m s) = str_drop (m + n) s.
Proof.
  revert s; induction m as [|m IH]; intros s; simpl; [done|].
  destruct s as [|c s]; [by destruct n|]. apply IH.
Qed.

Lemma str_drop_all s n : String.length s <= n -> str_drop n s = "".
Proof.
  revert s; induction n as [|n IH]; intros [|c s] H; simpl in *; try done; try lia.
  apply IH; lia.
Qed.

Lemma str_take_all s n : String.length s <= n -> str_take n s = s.
Proof.
  revert s; induction n as [|n IH]; intros [|c s] H; simpl in *; try done; try lia.
  rewrite IH; [done|lia].
Qed.

Lemma prefix_app p r : String.prefix p (p +:+ r) = true.
Proof.
  induction p as [|c p IH]; [by destruct r|].
  cbn [String.prefix String.append].
  destruct (ascii_dec c c); [done|congruence].
Qed.

Lemma prefix_inv p s : String.prefix p s = true -> s = p +:+ str_drop (String.length p) s.
Proof.
  revert s; induction p as [|c p IH]; intros s H.
  - by destruct s.
  - destruct s as [|d s]; [done|].
    cbn [String.prefix] in H.
    destruct (ascii_dec c d) as [->|]; [|done].
    simpl. f_equal. by apply IH.
Qed.

Lemma prefix_nil_r p : p <> "" -> String.prefix p "" = false.
Proof. by destruct p. Qed.

Lemma prefix_take p n s : String.prefix p (str_take n s) = true -> String.prefix p s = true.
Proof.
  revert n s; induction p as [|c p IH]; intros n s H.
  - by destruct s.
  - destruct n as [|n], s as [|d s]; try done.
    cbn [String.prefix str_take] in *.
    destruct (ascii_dec c d); [|done]. by eapply IH.
Qed.

Lemma str_find_nil sub : sub <> "" -> str_find sub "" = None.
Proof. by destruct sub. Qed.

Lemma str_find_cons sub c s :
  str_find sub (String c s) =
  if String.prefix sub (String c s) then Some 0 else S <$> str_find sub s.
Proof. done. Qed.

Lemma str_find_prefix sub s : String.prefix sub s = true -> str_find sub s = Some 0.
Proof. intros H. destruct s; cbn [str_find]; by rewrite H. Qed.

(** Where [find] points, the needle is. *)
Lemma str_find_Some sub s i :
  str_find sub s = Some i ->
  s = str_take i s +:+ sub +:+ str_drop (i + String.length sub) s.
Proof.
  revert i; induction s as [|c s IH]; intros i.
  - cbn [str_find]. destruct (String.prefix sub "") eqn:Hp; [|done].
    intros [= <-]. by apply prefix_inv in Hp.
  - rewrite str_find_cons. destruct (String.prefix sub (String c s)) eqn:Hp.
    + intros [= <-]. by apply prefix_inv in Hp.
    + destruct (str_find sub s) as [j|] eqn:Hj; [|done].
      intros [= <-]. simpl. f_equal. by apply IH.
Qed.

Lemma str_find_Some_bound sub s i :
  str_find sub s = Some i -> i + String.length sub <= String.length s.
Proof.
  revert i; induction s as [|c s IH]; intros i.
  - cbn [str_find]. destruct (String.prefix sub "") eqn:Hp; [|done].
    intros [= <-]. apply prefix_inv in Hp.
    apply (f_equal String.length) in Hp. rewrite str_length_app in Hp. simpl in *. lia.
  - rewrite str_find_cons. destruct (String.prefix sub (String c s)) eqn:Hp.
    + intros [= <-]. apply prefix_inv in Hp.
      apply (f_equal String.length) in Hp. rewrite str_length_app in Hp. simpl in *. lia.
    + destruct (str_find sub s) as [j|] eqn:Hj; [|done].
      intros [= <-]. specialize (IH j eq_refl). simpl. lia.
Qed.

(** Nothing before that point matches. *)
Lemma str_find_take sub s i :
  sub <> "" -> str_find sub s = Some i -> str_find sub (str_take i s) = None.
Proof.
  intros Hsub. revert i; induction s as [|c s IH]; intros i.
  - by destruct sub.
  - rewrite str_find_cons. destruct (String.prefix sub (String c s)) eqn:Hp.
    + intros [= <-]. by apply str_find_nil.
    + destruct (str_find sub s) as [j|] eqn:Hj; [|done].
      intros [= <-]. change (str_take (S j) (String c s)) with (String c (str_take j s)).
      rewrite str_find_cons.
      destruct (String.prefix sub (String c (str_take j s))) eqn:Hq.
      * change (String c (str_take j s)) with (str_take (S j) (String c s)) in Hq.
        apply prefix_take in Hq. congruence.
      * by rewrite IH.
Qed.

(** A needle that is there is found, at or before where it is known to be. *)
Lemma str_find_app sub pre post :
  exists i, str_find sub (pre +:+ sub +:+ post) = Some i /\ i <= String.length pre.
Proof.
  induction pre as [|c pre IH].
  - exists 0. split; [|done]. change ("" +:+ sub +:+ post) with (sub +:+ post).
    apply str_find_prefix, prefix_app.
  - change (String c pre +:+ sub +:+ post) with (String c (pre +:+ sub +:+ post)).
    rewrite str_find_cons.
    destruct (String.prefix sub (String c (pre +:+ sub +:+ post))).
    + exists 0. split; [done|lia].
    + destruct IH as (i & -> & Hi). exists (S i). split; [done|simpl; lia].
Qed.

End str_facts.

(** ** [str.split] *)

Section split_facts.
Import PyStr.
Local Open Scope nat_scope.

Variable sep : string.
Hypothesis sep_nonempty : sep <> "".

Lemma sep_length_pos : 0 < String.length sep.
Proof. destruct sep; [done|simpl; lia]. Qed.

(** Enough fuel is as good as any other amount that is enough. *)
Lemma split_loop_fuel f1 f2 s :
  String.length s <= f1 -> String.length s <= f2 ->
  split_loop f1 sep s = split_loop f2 sep s.
Proof.
  pose proof sep_length_pos as Hpos.
  revert f2 s; induction f1 as [|f1 IH]; intros f2 s H1 H2.
  - destruct s; [|simpl in H1; lia].
    destruct f2; [done|]. cbn [split_loop]. by rewrite str_find_nil.
  - destruct f2 as [|f2].
    + destruct s; [|simpl in H2; lia].
      cbn [split_loop]. by rewrite str_find_nil.
    + cbn [split_loop]. destruct (str_find sep s) as [i|] eqn:Hi; [|done].
      f_equal. apply str_find_Some_bound in Hi.
      apply IH; rewrite str_length_drop; lia.
Qed.

(** The loop of [split], one round at a time. *)
Lemma split_unfold s :
  split sep s =
  match str_find sep s with
  | None => [s]
  | Some i => str_take i s :: split sep (str_drop (i + String.length sep) s)
  end.
Proof.
  pose proof sep_length_pos as Hpos.
  unfold split. destruct (str_find sep s) as [i|] eqn:Hi.
  - destruct (String.length s) as [|n] eqn:Hn.
    + apply str_find_Some_bound in Hi. lia.
    + cbn [split_loop]. rewrite Hi. f_equal.
      apply str_find_Some_bound in Hi.
      apply split_loop_fuel; rewrite ?str_length_drop; lia.
  - destruct (String.length s); cbn [split_loop]; by rewrite ?Hi.
Qed.

Lemma split_nonempty s : split sep s <> [].
Proof. rewrite split_unfold. by destruct (str_find sep s). Qed.

(** Induction along the rounds of [split]. *)
Lemma split_ind (P : string -> Prop) :
  (forall s, str_find sep s = None -> P s) ->
  (forall s i, str_find sep s = Some i ->
     P (str_drop (i + String.length sep) s) -> P s) ->
  forall s, P s.
Proof.
  intros Hnone Hsome s.
  pose proof sep_length_pos as Hpos.
  remember (String.length s) as n eqn:Hn. revert s Hn.
  induction (lt_wf n) as [n _ IH]; intros s ->.
  destruct (str_find sep s) as [i|] eqn:Hi; [|by apply Hnone].
  apply (Hsome s i Hi). pose proof (str_find_Some_bound _ _ _ Hi).
  eapply IH; [|reflexivity]. rewrite str_length_drop. lia.
Qed.

Lemma join_cons x l : l <> [] -> join sep (x :: l) = x +:+ sep +:+ join sep l.
Proof. by destruct l. Qed.

(** Joining the pieces with the separator gives the string back. *)
Lemma join_split s : join sep (split sep s) = s.
Proof.
  induction s as [s Hs|s i Hi IH] using split_ind; rewrite split_unfold, ?Hs, ?Hi.
  - done.
  - rewrite join_cons by apply split_nonempty.
    rewrite IH. symmetry. by apply str_find_Some.
Qed.

(** No piece contains the separator. *)
Lemma split_pieces_clean s : Forall (fun piece => str_find sep piece = None) (split sep s).
Proof.
  induction s as [s Hs|s i Hi IH] using split_ind; rewrite split_unfold, ?Hs, ?Hi.
  - by constructor.
  - constructor; [|done]. by apply str_find_take.
Qed.

End split_facts.

(** ** SectionSegmenter *)

Section segmenter.
Import PyStr Reference.
Local Open Scope nat_scope.

Lemma delimiter_nonempty : "---" <> "".
Proof. done. Qed.

Lemma delimiter_count_match rest : delimiter_count ("---" +:+ rest) = S (delimiter_count rest).
Proof. done. Qed.

Lemma delimiter_count_skip c t :
  String.prefix "---" (String c t) = false ->
  delimiter_count (String c t) = delimiter_count t.
Proof.
  intros Hp. destruct t as [|c2 [|c3 rest]]; try done.
  cbn [delimiter_count].
  destruct (is_dash c && is_dash c2 && is_dash c3) eqn:E; [|done].
  apply andb_prop in E as [E E3]. apply andb_prop in E as [E1 E2].
  apply Ascii.eqb_eq in E1, E2, E3. subst.
  pose proof (prefix_app "---" rest) as Hq.
  change ("---" +:+ rest) with (String "-" (String "-" (String "-" rest))) in Hq.
  congruence.
Qed.

(** The count, one round of [split] at a time. *)
Lemma delimiter_count_find s :
  delimiter_count s =
  match str_find "---" s with
  | None => 0
  | Some i => S (delimiter_count (str_drop (i + 3) s))
  end.
Proof.
  induction s as [|c t IH]; [done|].
  rewrite str_find_cons. destruct (String.prefix "---" (String c t)) eqn:Hp.
  - rewrite (prefix_inv _ _ Hp) at 1. apply delimiter_count_match.
  - rewrite (delimiter_count_skip _ _ Hp), IH.
    by destruct (str_find "---" t).
Qed.

Lemma split_markdown_length doc :
  length (split_markdown doc) = delimiter_count doc + 1.
Proof.
  unfold split_markdown.
  induction doc as [s Hs|s i Hi IH] using (split_ind "---" delimiter_nonempty);
    rewrite (split_unfold "---" delimiter_nonempty), (delimiter_count_find s), ?Hs, ?Hi.
  - done.
  - cbn [length]. change (String.length "---") with 3 in *. rewrite IH. lia.
Qed.

(** C4. Segmentation is a function of the document text alone.  A document
    with k delimiters (counted left to right, [delimiter_count]) yields
    exactly k+1 sections; joining the sections with the delimiter, in
    order, gives the document back, so section i is the text between the
    delimiters around it, and an empty stretch is kept as an empty string
    at its index; no section contains the delimiter. *)
Theorem split_markdown_sections (doc : string) :
  length (split_markdown doc) = delimiter_count doc + 1
  /\ join "---" (split_markdown doc) = doc
  /\ Forall (fun section => contains "---" section = false) (split_markdown doc).
Proof.
  split; [apply split_markdown_length|]. split.
  - apply (join_split "---" delimiter_nonempty).
  - eapply Forall_impl; [apply (split_pieces_clean "---" delimiter_nonempty)|].
    intros section H. unfold contains. by rewrite H.
Qed.

Example split_markdown_keeps_empty :
  split_markdown "# A------# B---" = ["# A"; ""; "# B"; ""].
Proof. reflexivity. Qed.

End segmenter.

(** ** AssetExtractor: the scan for image lines *)

Section scan_facts.
Import PyStr Extractor.
Local Open Scope nat_scope.

Lemma list_remove_length line lines : length (list_remove line lines) <= length lines.
Proof.
  induction lines as [|x l IH]; simpl; [done|].
  case_decide; simpl; lia.
Qed.

(** Any two amounts of fuel that cover the rest of the list agree. *)
Lemma scan_loop_fuel f1 f2 idx lines links :
  length lines <= idx + f1 -> length lines <= idx + f2 ->
  scan_loop f1 idx lines links = scan_loop f2 idx lines links.
Proof.
  revert f2 idx lines links; induction f1 as [|f1 IH]; intros f2 idx lines links H1 H2.
  - assert (lines !! idx = None) as Hnone by (apply lookup_ge_None_2; lia).
    destruct f2; simpl; by rewrite ?Hnone.
  - destruct f2 as [|f2].
    + assert (lines !! idx = None) as Hnone by (apply lookup_ge_None_2; lia).
      simpl. by rewrite Hnone.
    + simpl. destruct (lines !! idx) as [line|]; [|done].
      pose proof (list_remove_length line lines).
      destruct (is_image_line line); apply IH; lia.
Qed.

Lemma scan_lines_from lines : scan_lines lines = scan_from 0 lines [].
Proof. unfold scan_lines, scan_from. by rewrite Nat.sub_0_r. Qed.

(** One round of the loop. *)
Lemma scan_from_unfold idx lines links :
  scan_from idx lines links =
  match lines !! idx with
  | None => (links, lines)
  | Some line =>
      if is_image_line line
      then scan_from (S idx) (list_remove line lines) (links ++ [image_link line])
      else scan_from (S idx) lines links
  end.
Proof.
  unfold scan_from. destruct (lines !! idx) as [line|] eqn:Hl.
  - pose proof (lookup_lt_Some _ _ _ Hl).
    destruct (length lines - idx) as [|k] eqn:Hk; [lia|].
    simpl. rewrite Hl.
    pose proof (list_remove_length line lines).
    destruct (is_image_line line); apply scan_loop_fuel; lia.
  - apply lookup_ge_None in Hl.
    replace (length lines - idx) with 0 by lia. done.
Qed.

(** Removing a line found at [idx] shifts everything from its own
    position on one place down, the position [idx] included: the first
    equal line is at [idx] or before it. *)
Lemma list_remove_lookup_ge line lines idx k :
  lines !! idx = Some line -> idx <= k ->
  list_remove line lines !! k = lines !! S k.
Proof.
  revert idx k; induction lines as [|x l IH]; intros idx k Hl Hk; [done|].
  simpl. case_decide as Hx; [done|].
  destruct idx as [|idx]; [simpl in Hl; congruence|].
  destruct k as [|k]; [lia|]. simpl in *.
  apply (IH idx); [done|lia].
Qed.

(** A line below the cursor stays below the cursor when a matched line is
    removed and the cursor moves on. *)
Lemma elem_take_list_remove line lines idx B :
  lines !! idx = Some line ->
  B ∈ take idx lines -> B ∈ take (S idx) (list_remove line lines).
Proof.
  revert idx; induction lines as [|x l IH]; intros idx Hl HB.
  - by rewrite take_nil in HB.
  - destruct idx as [|idx]; [by apply elem_of_nil in HB|].
    simpl in Hl, HB. simpl. apply elem_of_cons in HB.
    case_decide as Hx.
    + apply elem_of_take. destruct HB as [->|HB].
      * subst x. exists idx. split; [done|lia].
      * apply elem_of_take in HB as (j & Hj & Hlt). exists j. split; [done|lia].
    + rewrite firstn_cons. apply elem_of_cons. destruct HB as [->|HB]; [by left|].
      right. by apply IH.
Qed.

(** What the cursor has passed and left in the list is in the result. *)
Lemma scan_loop_keeps fuel idx lines links B :
  B ∈ take idx lines -> B ∈ (scan_loop fuel idx lines links).2.
Proof.
  revert idx lines links; induction fuel as [|fuel IH]; intros idx lines links HB.
  - simpl. apply elem_of_take in HB as (j & Hj & _). by eapply list_elem_of_lookup_2.
  - simpl. destruct (lines !! idx) as [line|] eqn:Hl.
    + destruct (is_image_line line); apply IH.
      * by apply elem_take_list_remove.
      * apply elem_of_take in HB as (j & Hj & Hlt).
        apply elem_of_take. exists j. split; [done|lia].
    + simpl. apply elem_of_take in HB as (j & Hj & _). by eapply list_elem_of_lookup_2.
Qed.

(** Links are only ever appended. *)
Lemma scan_loop_links fuel idx lines links :
  exists more, (scan_loop fuel idx lines links).1 = links ++ more.
Proof.
  revert idx lines links; induction fuel as [|fuel IH]; intros idx lines links.
  - exists []. simpl. by rewrite app_nil_r.
  - simpl. destruct (lines !! idx) as [line|]; [|exists []; simpl; by rewrite app_nil_r].
    destruct (is_image_line line); [|apply IH].
    destruct (IH (S idx) (list_remove line lines) (links ++ [image_link line])) as [more ->].
    exists (image_link line :: more). by rewrite <- app_assoc.
Qed.

(** C10 (as amended). When the scan examines an image-marker line [A]
    (the cursor [idx] is on it) and [B] is the line right after it, then
    the round extracts [A]'s locator, removes the first line equal to [A]
    and moves the cursor to [idx + 1], where [B] no longer is: [B] now
    sits at [idx], which the cursor has passed.  [B] is therefore never
    examined in this position, the result's links continue with [A]'s
    locator, and a line equal to [B] is in the returned lines. *)
Theorem scan_skips_line_after_match
    (idx : nat) (lines links : list string) (A B : string) :
  lines !! idx = Some A ->
  is_image_line A = true ->
  lines !! S idx = Some B ->
  scan_from idx lines links
    = scan_from (S idx) (list_remove A lines) (links ++ [image_link A])
  /\ list_remove A lines !! idx = Some B
  /\ (exists more, (scan_from idx lines links).1 = links ++ image_link A :: more)
  /\ B ∈ (scan_from idx lines links).2.
Proof.
  intros HA Hm HB.
  assert (list_remove A lines !! idx = Some B) as Hshift
    by (by rewrite (list_remove_lookup_ge A lines idx idx)).
  assert (scan_from idx lines links
          = scan_from (S idx) (list_remove A lines) (links ++ [image_link A])) as Hstep
    by (by rewrite scan_from_unfold, HA, Hm).
  split; [done|]. split; [done|]. rewrite Hstep. unfold scan_from. split.
  - destruct (scan_loop_links (length (list_remove A lines) - S idx) (S idx)
                (list_remove A lines) (links ++ [image_link A])) as [more ->].
    exists more. by rewrite <- app_assoc.
  - apply scan_loop_keeps. apply elem_of_take. exists idx. split; [done|lia].
Qed.

End scan_facts.

(** ** AssetExtractor: the locator of an image line *)

Section link_facts.
Import PyStr Extractor.

Lemma find_from_nat sub s (start : nat) :
  (start <= String.length s)%nat ->
  find sub s (Z.of_nat start) =
  match str_find sub (str_drop start s) with
  | Some i => Z.of_nat (start + i)
  | None => -1
  end.
Proof.
  intros H. unfold find.
  destruct (Z.ltb_spec (Z.of_nat start) 0) as [?|_]; [lia|].
  destruct (Z.ltb_spec (Z.of_nat (String.length s)) (Z.of_nat start)) as [?|_]; [lia|].
  rewrite Nat2Z.id. destruct (str_find sub (str_drop start s)); [|done].
  by rewrite Nat2Z.inj_add.
Qed.

Lemma find_zero sub s :
  find sub s 0 = match str_find sub s with Some i => Z.of_nat i | None => -1 end.
Proof. apply (find_from_nat sub s 0). lia. Qed.

Lemma slice_nat s (a b : nat) :
  (a <= b)%nat -> (b <= String.length s)%nat ->
  slice s (Z.of_nat a) (Z.of_nat b) = str_take (b - a) (str_drop a s).
Proof.
  intros Hab Hb. unfold slice, clamp.
  destruct (Z.ltb_spec (Z.of_nat a) 0) as [?|_]; [lia|].
  destruct (Z.ltb_spec (Z.of_nat b) 0) as [?|_]; [lia|].
  rewrite !Z.min_l by lia.
  rewrite <- Nat2Z.inj_sub by done. by rewrite !Nat2Z.id.
Qed.

(** The locator in terms of the two searches. *)
Lemma image_link_eq line i j :
  str_find "](" line = Some i ->
  str_find ")" (str_drop (i + 2) line) = Some j ->
  image_link line = str_take j (str_drop (i + 2) line).
Proof.
  intros Hi Hj. unfold image_link.
  pose proof (str_find_Some_bound _ _ _ Hi) as Bi.
  pose proof (str_find_Some_bound _ _ _ Hj) as Bj.
  rewrite str_length_drop in Bj.
  change (String.length "](") with 2%nat in Bi.
  change (String.length ")") with 1%nat in Bj.
  rewrite find_zero, Hi.
  change (Z.of_nat i + 2) with (Z.of_nat i + Z.of_nat 2).
  rewrite <- Nat2Z.inj_add.
  rewrite (find_from_nat ")" line (i + 2)) by lia. rewrite Hj.
  rewrite slice_nat by lia.
  by replace (i + 2 + j - (i + 2))%nat with j by lia.
Qed.

Lemma str_drop_split a b s :
  (a <= b)%nat -> str_drop a s = str_take (b - a) (str_drop a s) +:+ str_drop b s.
Proof.
  intros H. rewrite <- (str_take_drop (b - a) (str_drop a s)) at 1.
  rewrite str_drop_drop. by replace (a + (b - a))%nat with b by lia.
Qed.

(** A line that ends with [)] has one after its first [](]. *)
Lemma image_line_close line i :
  endswith ")" line = true ->
  str_find "](" line = Some i ->
  exists j, str_find ")" (str_drop (i + 2) line) = Some j.
Proof.
  intros He Hi. unfold endswith in He. apply andb_prop in He as [Hn He].
  apply Nat.leb_le in Hn. apply String.eqb_eq in He.
  change (String.length ")") with 1%nat in *.
  pose proof (str_find_Some_bound _ _ _ Hi) as Bi.
  change (String.length "](") with 2%nat in Bi.
  set (n := String.length line) in *.
  destruct (decide (i + 2 = n)%nat) as [Heq|Hne].
  - exfalso. apply str_find_Some in Hi.
    change (String.length "](") with 2%nat in Hi.
    rewrite (str_drop_all line (i + 2)) in Hi by (fold n; lia).
    assert (String.length (str_take i line) = i)%nat as Hlen
      by (rewrite str_length_take; fold n; lia).
    rewrite Hi in He.
    replace (n - 1)%nat with (String.length (str_take i line) + 1)%nat in He by lia.
    rewrite <- str_drop_drop, str_drop_app_length in He. done.
  - rewrite (str_drop_split (i + 2) (n - 1) line) by lia. rewrite He.
    destruct (str_find_app ")" (str_take (n - 1 - (i + 2)) (str_drop (i + 2) line)) "")
      as (j & Hj & _).
    rewrite str_app_nil_r in Hj. by exists j.
Qed.

Lemma str_drop_app_ge x r k :
  (String.length x <= k)%nat -> str_drop k (x +:+ r) = str_drop (k - String.length x) r.
Proof.
  intros H. replace k with (String.length x + (k - String.length x))%nat at 1 by lia.
  by rewrite <- str_drop_drop, str_drop_app_length.
Qed.

(** What follows the closing [)] of the locator, in a line that ends with
    [)], is empty or contains another [)]. *)
Lemma image_line_rest x rest :
  endswith ")" (x +:+ ")" +:+ rest) = true ->
  contains ")" rest = false -> rest = "".
Proof.
  intros He Hc. destruct rest as [|c rest]; [done|exfalso].
  unfold endswith in He. apply andb_prop in He as [_ He]. apply String.eqb_eq in He.
  rewrite <- str_app_assoc in He.
  rewrite str_drop_app_ge in He
    by (rewrite !str_length_app; simpl; lia).
  set (r := String c rest) in *.
  set (k := (String.length ((x +:+ ")") +:+ r) - String.length ")"
             - String.length (x +:+ ")"))%nat) in *.
  pose proof (str_take_drop k r) as Hr. rewrite He in Hr.
  destruct (str_find_app ")" (str_take k r) "") as (j & Hj & _).
  rewrite str_app_nil_r, Hr in Hj.
  unfold contains in Hc. by rewrite Hj in Hc.
Qed.

(** C9 (as amended). For every line that matches the marker pattern, the
    extracted locator is the text between the first [](] of the line and
    the first [)] after it: the line is [pre ]( locator ) rest], [pre]
    ends where the first [](] begins, and the locator contains no [)].
    That [)] is the final one of the line whenever no further [)]
    follows it. *)
Theorem image_link_between (line : string) :
  is_image_line line = true ->
  exists pre rest,
    line = pre +:+ "](" +:+ image_link line +:+ ")" +:+ rest
    /\ str_find "](" line = Some (String.length pre)
    /\ contains ")" (image_link line) = false
    /\ (contains ")" rest = false -> rest = "").
Proof.
  intros Hm. unfold is_image_line in Hm.
  apply andb_prop in Hm as [Hm He]. apply andb_prop in Hm as [_ Hc].
  unfold contains in Hc. destruct (str_find "](" line) as [i|] eqn:Hi; [|done].
  destruct (image_line_close line i He Hi) as [j Hj].
  rewrite (image_link_eq line i j Hi Hj).
  pose proof (str_find_Some_bound _ _ _ Hi) as Bi.
  change (String.length "](") with 2%nat in Bi.
  assert (String.length (str_take i line) = i) as Hlen
    by (rewrite str_length_take; lia).
  assert (line = str_take i line +:+ "](" +:+
                 str_take j (str_drop (i + 2) line) +:+ ")" +:+
                 str_drop (j + 1) (str_drop (i + 2) line)) as Hline.
  { pose proof (str_find_Some _ _ _ Hj) as Hj'.
    pose proof (str_find_Some _ _ _ Hi) as Hi'.
    change (String.length ")") with 1%nat in Hj'.
    change (String.length "](") with 2%nat in Hi'.
    by rewrite <- Hj'. }
  exists (str_take i line), (str_drop (j + 1) (str_drop (i + 2) line)).
  split; [done|]. split; [by rewrite Hlen|]. split.
  - unfold contains. by rewrite (str_find_take ")" _ j).
  - apply (image_line_rest (str_take i line +:+ "](" +:+ str_take j (str_drop (i + 2) line))).
    rewrite !str_app_assoc. by rewrite <- Hline.
Qed.

(** C9, the claim as stated, fails: in [![x](a(1).png)] the text between
    [](] and the final [)] is [a(1).png], and the code extracts [a(1]. *)
Lemma image_link_not_up_to_final_paren :
  ~ (forall line pre loc : string,
       is_image_line line = true ->
       line = pre +:+ "](" +:+ loc +:+ ")" ->
       str_find "](" line = Some (String.length pre) ->
       image_link line = loc).
Proof.
  intros H.
  specialize (H "![x](a(1).png)" "![x" "a(1).png" eq_refl eq_refl eq_refl).
  vm_compute in H. discriminate H.
Qed.

Lemma image_link_between_witness :
  is_image_line "![x](a(1).png)" = true
  /\ exists pre rest,
       "![x](a(1).png)" = pre +:+ "](" +:+ image_link "![x](a(1).png)" +:+ ")" +:+ rest
       /\ str_find "](" "![x](a(1).png)" = Some (String.length pre)
       /\ contains ")" (image_link "![x](a(1).png)") = false
       /\ (contains ")" rest = false -> rest = "").
Proof.
  split; [reflexivity|]. apply (image_link_between "![x](a(1).png)"). reflexivity.
Defined.

End link_facts.

(** ** AssetExtractor: what the code does on concrete documents *)

Section extractor_runs.
Import PyStr Extractor Example.

(** C10, the claim as stated, fails for a pair of consecutive marker
    lines whose first line is itself skipped: of three marker lines in a
    row the second is not extracted and the third does not remain. *)
Lemma second_pair_of_three_not_skipped :
  ~ (forall (pre : list string) (A B : string) (post : list string),
       is_image_line A = true -> is_image_line B = true ->
       image_link A ∈ (scan_lines (pre ++ A :: B :: post)).1
       /\ B ∈ (scan_lines (pre ++ A :: B :: post)).2).
Proof.
  intros H.
  destruct (H ["![a](a.png)"] "![b](b.png)" "![c](c.png)" [] eq_refl eq_refl) as [H1 _].
  vm_compute in H1.
  repeat (apply elem_of_cons in H1 as [H1|H1]; [discriminate H1|]).
  by apply elem_of_nil in H1.
Qed.

Example scan_three_adjacent :
  scan_lines three_adjacent_lines = (["a.png"; "c.png"], ["![b](b.png)"]).
Proof. reflexivity. Qed.

Lemma scan_skips_line_after_match_witness :
  scan_from 0 ["![a](a.png)"; "![b](b.png)"] []
    = scan_from 1 (list_remove "![a](a.png)" ["![a](a.png)"; "![b](b.png)"])
        ([] ++ [image_link "![a](a.png)"])
  /\ list_remove "![a](a.png)" ["![a](a.png)"; "![b](b.png)"] !! 0%nat = Some "![b](b.png)"
  /\ (exists more, (scan_from 0 ["![a](a.png)"; "![b](b.png)"] []).1
                   = [] ++ image_link "![a](a.png)" :: more)
  /\ "![b](b.png)" ∈ (scan_from 0 ["![a](a.png)"; "![b](b.png)"] []).2.
Proof.
  apply (scan_skips_line_after_match 0 ["![a](a.png)"; "![b](b.png)"] []
           "![a](a.png)" "![b](b.png)"); reflexivity.
Defined.

(** C2. The document [![a](a.png)\n![b](b.png)] has two image-marker
    lines, both files exist, and extraction returns one path and leaves
    the second marker line in the text. *)
Theorem download_two_adjacent_images :
  length (filter (fun line => is_image_line line = true)
            (split newline two_adjacent_images)) = 2%nat
  /\ returned (download_images_from_markdown host_404 two_adjacent_images images_dir
                 world_with_images)
     = Ok (["a.png"], "![b](b.png)").
Proof. split; reflexivity. Qed.

(** C7. With every request answered 404: a remote image that follows a
    resolved one raises nothing and is returned under the previous
    image's path; a remote image that comes first ends the run with
    [UnboundLocalError]. *)
Theorem download_failed_fetch :
  returned (download_images_from_markdown host_404 local_then_remote images_dir
              world_with_images)
  = Ok (["a.png"; "a.png"], "text")
  /\ returned (download_images_from_markdown host_404 remote_only images_dir
                 world_with_images)
     = Raise UnboundLocalError.
Proof. split; reflexivity. Qed.

End extractor_runs.

(** ** AssetExtractor: where the scan does extract everything *)

Section isolated_facts.
Import PyStr Extractor Reference.
Local Open Scope nat_scope.

Lemma list_remove_app_fresh x kept l :
  x ∉ kept -> list_remove x (kept ++ x :: l) = kept ++ l.
Proof.
  induction kept as [|k kept IH]; intros Hx; simpl.
  - by rewrite decide_True.
  - apply not_elem_of_cons in Hx as [Hne Hx].
    rewrite decide_False by done. by rewrite IH.
Qed.

Lemma image_line_fresh x kept :
  is_image_line x = true -> Forall (fun l => is_image_line l = false) kept -> x ∉ kept.
Proof.
  intros Hx Hk Hin. rewrite Forall_forall in Hk. apply Hk in Hin. congruence.
Qed.

(** Through a stretch of lines in which no image line directly follows
    another, the scan extracts every image line, in order, removes it,
    and keeps the other lines. *)
Lemma scan_through_isolated pre kept rest links :
  Forall (fun l => is_image_line l = false) kept ->
  images_isolated pre = true ->
  scan_from (length kept) (kept ++ pre ++ rest) links
  = scan_from (length (kept ++ text_lines pre)) ((kept ++ text_lines pre) ++ rest)
      (links ++ (image_link <$> image_lines pre)).
Proof.
  remember (length pre) as n eqn:Hn. revert pre kept links Hn.
  induction (lt_wf n) as [n _ IH]; intros pre kept links -> Hkept Hiso.
  destruct pre as [|x pre].
  - unfold text_lines, image_lines. cbn. by rewrite !app_nil_r.
  - rewrite scan_from_unfold. cbn [app].
    rewrite (list_lookup_middle kept (pre ++ rest) x) by done.
    cbn [images_isolated] in Hiso.
    unfold text_lines, image_lines in *.
    destruct (is_image_line x) eqn:Hx.
    + destruct pre as [|y pre]; [done|].
      apply andb_prop in Hiso as [Hy Hiso]. apply negb_true_iff in Hy.
      cbn [app]. rewrite list_remove_app_fresh by by apply image_line_fresh.
      rewrite (filter_cons_False _ x) by congruence.
      rewrite (filter_cons_True _ y) by done.
      rewrite (filter_cons_True _ x) by done.
      rewrite (filter_cons_False _ y) by congruence.
      replace (kept ++ y :: pre ++ rest) with ((kept ++ [y]) ++ pre ++ rest)
        by (by rewrite <- app_assoc).
      replace (S (length kept)) with (length (kept ++ [y]))
        by (rewrite length_app; simpl; lia).
      rewrite (IH (length pre)) with (pre := pre); [|simpl; lia|done| |done].
      * rewrite fmap_cons. by rewrite <- !app_assoc.
      * apply Forall_app. split; [done|]. by apply Forall_singleton.
    + rewrite (filter_cons_True _ x) by done.
      rewrite (filter_cons_False _ x) by congruence.
      replace (kept ++ x :: pre ++ rest) with ((kept ++ [x]) ++ pre ++ rest)
        by (by rewrite <- app_assoc).
      replace (S (length kept)) with (length (kept ++ [x]))
        by (rewrite length_app; simpl; lia).
      rewrite (IH (length pre)) with (pre := pre); [|simpl; lia|done| |done].
      * by rewrite <- !app_assoc.
      * apply Forall_app. split; [done|]. by apply Forall_singleton.
Qed.

(** A document in which no image line directly follows another, and the
    last line is not one: all image lines are extracted, in order, and
    removed. *)
Lemma scan_lines_isolated lines :
  images_isolated lines = true ->
  scan_lines lines = (image_link <$> image_lines lines, text_lines lines).
Proof.
  intros Hiso. rewrite scan_lines_from.
  pose proof (scan_through_isolated lines [] [] [] (Forall_nil_2 _) Hiso) as H.
  cbn [app length] in H. rewrite !app_nil_r in H. rewrite H.
  rewrite scan_from_unfold. by rewrite lookup_ge_None_2.
Qed.

(** The first two adjacent image lines of a document: the first is
    extracted, and the scan goes on behind the second, which stays. *)
Lemma scan_lines_first_pair pre A B post :
  images_isolated pre = true ->
  is_image_line A = true ->
  scan_lines (pre ++ A :: B :: post)
  = scan_from (S (length (text_lines pre))) (text_lines pre ++ B :: post)
      ((image_link <$> image_lines pre) ++ [image_link A]).
Proof.
  intros Hiso HA. rewrite scan_lines_from.
  pose proof (scan_through_isolated pre [] (A :: B :: post) [] (Forall_nil_2 _) Hiso) as H.
  cbn [app length] in H. rewrite H. clear H.
  rewrite scan_from_unfold.
  rewrite (list_lookup_middle (text_lines pre) (B :: post) A) by done.
  rewrite HA. rewrite list_remove_app_fresh; [done|].
  apply image_line_fresh; [done|]. unfold text_lines.
  apply Forall_forall. intros l Hl. by apply list_elem_of_filter in Hl as [? _].
Qed.

End isolated_facts.

(** ** ToolInstaller *)

Section installer_facts.
Import Installer Example.

(** A refused download on Windows or Linux leaves the disk as it was, so
    the next run tries again. *)
Lemma install_windows_refused h w r :
  requests_get h windows_url = Some r -> status_code r <> 200 ->
  exists w', install_windows h w = Ok w'
             /\ fs w' = fs w
             /\ last (events w') = Some (Print "Failed to download Inkscape.").
Proof.
  intros Hr Hs. unfold install_windows, http_get. rewrite Hr. simpl.
  destruct (Z.eqb_spec (status_code r) 200) as [?|_]; [done|].
  eexists. split; [done|]. split; [done|]. simpl. by rewrite last_snoc.
Qed.

Lemma install_linux_refused h w r :
  requests_get h linux_url = Some r -> status_code r <> 200 ->
  exists w', install_linux h w = Ok w'
             /\ fs w' = fs w
             /\ last (events w') = Some (Print "Failed to download Inkscape.").
Proof.
  intros Hr Hs. unfold install_linux, http_get. rewrite Hr. simpl.
  destruct (Z.eqb_spec (status_code r) 200) as [?|_]; [done|].
  eexists. split; [done|]. split; [done|]. simpl. by rewrite last_snoc.
Qed.

(** On macOS the install directory is made before the download is
    tried: whatever the server answers, the directory is there
    afterwards. *)
Lemma install_macos_marks_installed h w w' :
  install_macos h w = Ok w' -> is_installed h w' = true.
Proof.
  unfold install_macos. cbn [mkdir_parents].
  intros H.
  assert (forall w1, fs w1 !! install_path h = Some Dir ->
            (let w2 := print "Downloading Inkscape for MacOS..." w1 in
             '(response, w3) ← http_get h macos_url w2;
             if status_code response =? 200
             then w4 ← write_in (md3d_dir h) "Inkscape.dmg" (content response) w3;
                  dmg_extractall h (md3d_dir h // "Inkscape.dmg") (install_path h)
                    (print "Installing Inkscape..." (print "Download completed." w4))
             else Ok (print "Failed to download Inkscape." w3)) = Ok w' ->
            is_installed h w' = true) as Hrest.
  { clear. intros w1 Hdir Hrun. cbn zeta in Hrun. unfold http_get in Hrun.
    destruct (requests_get h macos_url) as [r|]; [|done]. cbn in Hrun.
    unfold is_installed, path_exists. apply bool_decide_eq_true.
    destruct (status_code r =? 200).
    - unfold write_in in Hrun. cbn in Hrun.
      destruct (fs w1 !! md3d_dir h) as [[|?]|]; try done.
      destruct (fs w1 !! (md3d_dir h // "Inkscape.dmg")) as [[|?]|] eqn:Hf; try done;
        cbn in Hrun; unfold dmg_extractall in Hrun;
        destruct (dmg_mounts h _); try done; injection Hrun as <-; cbn;
        rewrite !lookup_insert; repeat case_decide; eauto.
    - injection Hrun as <-. cbn. eauto. }
  destruct (fs w !! md3d_dir h) as [[|?]|] eqn:H1; try done; cbn in H.
  - destruct (fs w !! install_path h) as [[|?]|] eqn:H2; try done; cbn in H.
    + by apply (Hrest w).
    + apply (Hrest {| fs := <[install_path h := Dir]> (fs w); events := events w |});
        [cbn; by rewrite lookup_insert_eq|done].
  - rewrite lookup_insert in H. case_decide as Heq.
    + cbn in H. eapply Hrest; [|exact H]. cbn. rewrite <- Heq. by rewrite lookup_insert_eq.
    + destruct (fs w !! install_path h) as [[|?]|] eqn:H2; try done; cbn in H.
      * eapply Hrest; [|exact H]. cbn. by rewrite lookup_insert_ne.
      * eapply Hrest; [|exact H]. cbn. by rewrite lookup_insert_eq.
Qed.

(** C6. macOS, nothing installed, the server answers 404: [install]
    reports the failure and returns, and afterwards the existence check
    says "installed", so the next run does not install. *)
Theorem macos_refused_download_marks_installed :
  is_installed host_404 fresh_world = false
  /\ exists w',
       install MacOSInkscapeInstaller host_404 fresh_world = Ok w'
       /\ last (events w') = Some (Print "Failed to download Inkscape.")
       /\ is_installed host_404 w' = true
       /\ ensure_installed MacOSInkscapeInstaller host_404 w' = Ok w'.
Proof.
  split; [reflexivity|]. eexists. split; [reflexivity|].
  split; [reflexivity|]. split; reflexivity.
Qed.

(** C8. When the install path exists, the first statement of [main]
    returns the world as it found it, and so does running it again: no
    request, no extraction, no subprocess is added to the events. *)
Theorem ensure_installed_idempotent (i : installer) (h : host) (w : world) :
  is_installed h w = true ->
  ensure_installed i h w = Ok w
  /\ (w1 ← ensure_installed i h w; ensure_installed i h w1) = Ok w
  /\ forall w2, (w1 ← ensure_installed i h w; ensure_installed i h w1) = Ok w2 ->
       filter (fun e => is_install_effect e = true) (events w2)
       = filter (fun e => is_install_effect e = true) (events w).
Proof.
  intros H. unfold ensure_installed. rewrite H. cbn. rewrite H.
  split; [done|]. split; [done|]. by intros w2 [= <-].
Qed.

Lemma ensure_installed_idempotent_witness :
  ensure_installed MacOSInkscapeInstaller host_404 installed_world = Ok installed_world
  /\ (w1 ← ensure_installed MacOSInkscapeInstaller host_404 installed_world;
      ensure_installed MacOSInkscapeInstaller host_404 w1) = Ok installed_world
  /\ forall w2,
       (w1 ← ensure_installed MacOSInkscapeInstaller host_404 installed_world;
        ensure_installed MacOSInkscapeInstaller host_404 w1) = Ok w2 ->
       filter (fun e => is_install_effect e = true) (events w2)
       = filter (fun e => is_install_effect e = true) (events installed_world).
Proof.
  apply (ensure_installed_idempotent MacOSInkscapeInstaller host_404 installed_world).
  reflexivity.
Defined.

End installer_facts.

(** ** SceneComposer: image panels *)

Section image_facts.
Import Layout Reference Example.
Local Open Scope Q_scope.

Lemma last_fmap {A B} (f : A -> B) (l : list A) : last (f <$> l) = f <$> last l.
Proof.
  induction l as [|x [|y l] IH]; [done|done|]. exact IH.
Qed.

Lemma find_object_snoc_fresh id l o :
  Forall (fun x => (ob_id x < id)%nat) l -> ob_id o = id ->
  find_object id (l ++ [o]) = Some o.
Proof.
  intros Hl Ho. induction Hl as [|x l Hx _ IH]; cbn.
  - by rewrite decide_True.
  - rewrite decide_False by lia. exact IH.
Qed.

Lemma aspect_pos size : 0 < aspect size.
Proof. destruct size as [width height]. unfold aspect, Qlt. cbn. lia. Qed.

(** Where one round of the loop puts the right edge of the panel it adds.
    The half width it subtracts is that of the plane before it was scaled,
    1/2, and [i / aspect] is added: the right edge ends up
    [(aspect - 1)/2 + i/aspect] beyond the right edge of the text plane. *)
Lemma position_image_right_edge h oy oz tw i img_path s size :
  ids_below_next s ->
  image_size h img_path = Some size ->
  exists s' img,
    position_image h oy oz tw i img_path s = Ok s'
    /\ last (objects s') = Some img
    /\ ob_name img = "Image " +:+ pretty i
    /\ right_edge img ==
         inject_Z (Z.of_nat i) * tw + tw / 2
         + (aspect size - 1) / 2 + inject_Z (Z.of_nat i) / aspect size.
Proof.
  intros Hids Hsize. unfold position_image. rewrite Hsize.
  pose proof (aspect_pos size) as Ha. destruct size as [width height].
  unfold aspect in *. cbn [fst snd] in *.
  set (a := inject_Z (Z.pos width) / inject_Z (Z.pos height)) in *. clearbody a.
  unfold primitive_plane_add.
  change (active_object (new_object "Plane" 1 s)) with (@Ok nat (next_id s)).
  cbn [mbind result_bind].
  assert (get_object (next_id s) (new_object "Plane" 1 s)
          = Some (blank_object (next_id s) "Plane" 1)) as ->.
  { unfold get_object. cbn. by apply find_object_snoc_fresh. }
  eexists _, _. split; [reflexivity|].
  cbn. rewrite !last_fmap, last_snoc. cbn.
  repeat (destruct (decide (next_id s = next_id s)) as [_|?]; [cbn|congruence]).
  split; [reflexivity|]. split; [reflexivity|].
  unfold right_edge, dimensions_x, set_name, set_location, set_scale, set_rotation_x.
  cbn [vx ob_location ob_scale ob_extent_x blank_object].
  rewrite (Qabs_pos a) by by apply Qlt_le_weak.
  change (Qabs 1) with 1.
  generalize (inject_Z (Z.of_nat i) / a).
  generalize (inject_Z (Z.of_nat i)).
  intros x y. field.
Qed.

(** C1. The second image of a deck (index 1), twice as wide as it is
    high, placed with the default text plane width 2: its panel is centred
    at 3 and is 2 wide, so its right edge is at 4, not at
    [1*2 + 2/2 = 3]. *)
Theorem second_image_right_edge :
  exists s img,
    import_and_position_images host_404 ["a.png"; "wide.png"]
      default_offset_y default_offset_z default_text_plane_width empty_scene = Ok s
    /\ objects s !! 1%nat = Some img
    /\ ob_name img = "Image 1"
    /\ vx (ob_location img) == 3
    /\ right_edge img == 4
    /\ ~ right_edge img
         == inject_Z 1 * default_text_plane_width + default_text_plane_width / 2.
Proof.
  eexists _, _. split; [vm_compute; reflexivity|]. split; [vm_compute; reflexivity|].
  split; [vm_compute; reflexivity|]. split; [vm_compute; reflexivity|].
  split; [vm_compute; reflexivity|].
  intros H. apply Qeq_bool_iff in H. vm_compute in H. discriminate H.
Qed.

End image_facts.

(** ** SceneComposer: slides and the camera track *)

Section camera_facts.
Import PyStr Layout Reference.
Local Open Scope nat_scope.

Lemma find_object_id id l o : find_object id l = Some o -> ob_id o = id.
Proof.
  induction l as [|x l IH]; [done|]. simpl. case_decide; [|done]. by intros [= <-].
Qed.

Lemma find_object_fmap id (g : object -> object) l :
  keeps_id g -> find_object id (g <$> l) = g <$> find_object id l.
Proof.
  intros Hg. induction l as [|x l IH]; [done|].
  simpl. rewrite Hg. by case_decide.
Qed.

Lemma find_object_app id l l' :
  is_Some (find_object id l) -> find_object id (l ++ l') = find_object id l.
Proof.
  induction l as [|x l IH]; simpl; [by intros [? ?]|].
  case_decide; [done|]. apply IH.
Qed.

Lemma keeps_id_guard id f : keeps_id f -> keeps_id (fun o => if decide (ob_id o = id) then f o else o).
Proof. intros Hf o. by case_decide. Qed.

Lemma get_object_update c id f s o :
  keeps_id f -> get_object c s = Some o ->
  get_object c (update_object id f s) = Some (if decide (c = id) then f o else o).
Proof.
  intros Hf Ho. unfold get_object, update_object in *. cbn.
  rewrite find_object_fmap by by apply keeps_id_guard.
  rewrite Ho. cbn. by rewrite (find_object_id _ _ _ Ho).
Qed.

Lemma get_object_new c name e s :
  is_Some (get_object c s) -> get_object c (new_object name e s) = get_object c s.
Proof. intros H. unfold get_object, new_object. cbn. by apply find_object_app. Qed.

Lemma ids_below_next_update id f s :
  keeps_id f -> ids_below_next s -> ids_below_next (update_object id f s).
Proof.
  intros Hf H. unfold ids_below_next, update_object in *. cbn.
  apply Forall_fmap. eapply Forall_impl; [exact H|].
  intros o Ho. cbn. by rewrite keeps_id_guard.
Qed.

Lemma ids_below_next_new name e s :
  ids_below_next s -> ids_below_next (new_object name e s).
Proof.
  intros H. unfold ids_below_next, new_object in *. cbn.
  apply Forall_app. split.
  - eapply Forall_impl; [exact H|]. intros o Ho. cbn in *. lia.
  - apply Forall_singleton. cbn. lia.
Qed.

Lemma scene_ready_update cam id f s :
  keeps_id f -> scene_ready cam s -> scene_ready cam (update_object id f s).
Proof.
  intros Hf (Hc & [o Ho] & Hm & Hi). split; [done|]. split; [|split; [done|]].
  - rewrite (get_object_update cam id f s o Hf Ho). eauto.
  - by apply ids_below_next_update.
Qed.

Lemma scene_ready_new cam name e s :
  scene_ready cam s -> scene_ready cam (new_object name e s).
Proof.
  intros (Hc & Ho & Hm & Hi). split; [done|]. split; [|split; [done|]].
  - by rewrite get_object_new.
  - by apply ids_below_next_new.
Qed.

Lemma camera_keys_ready cam s o :
  camera s = Some cam -> get_object cam s = Some o -> camera_keys s = ob_keys o.
Proof. intros Hc Ho. unfold camera_keys. rewrite Hc. cbn. by rewrite Ho. Qed.

Lemma camera_keys_update cam id f s :
  keeps_id f -> keeps_keys f -> scene_ready cam s ->
  camera_keys (update_object id f s) = camera_keys s.
Proof.
  intros Hf Hk (Hc & [o Ho] & _).
  rewrite (camera_keys_ready cam s o Hc Ho).
  rewrite (camera_keys_ready cam (update_object id f s) _ Hc
             (get_object_update cam id f s o Hf Ho)).
  by case_decide.
Qed.

Lemma camera_keys_new cam name e s :
  scene_ready cam s -> camera_keys (new_object name e s) = camera_keys s.
Proof.
  intros (Hc & [o Ho] & _).
  rewrite (camera_keys_ready cam s o Hc Ho).
  apply (camera_keys_ready cam); [done|]. rewrite get_object_new; [done|by exists o].
Qed.

Lemma evaluate_id h f : keeps_id (evaluate h f).
Proof. intros o. unfold evaluate. by destruct (map_to_list (ob_keys o)). Qed.

Lemma evaluate_keys h f : keeps_keys (evaluate h f).
Proof. intros o. unfold evaluate. by destruct (map_to_list (ob_keys o)). Qed.

(** An object without location keyframes is not moved by a frame change. *)
Lemma evaluate_unkeyed h f o : ob_keys o = ∅ -> evaluate h f o = o.
Proof. intros Hk. unfold evaluate. by rewrite Hk, map_to_list_empty. Qed.

Lemma get_object_frame_set h f c s :
  get_object c (frame_set h f s) = evaluate h f <$> get_object c s.
Proof. unfold get_object, frame_set. cbn. apply find_object_fmap, evaluate_id. Qed.

Lemma scene_ready_frame_set cam h f s :
  scene_ready cam s -> scene_ready cam (frame_set h f s).
Proof.
  intros (Hc & [o Ho] & Hm & Hi). split; [done|]. split.
  { rewrite get_object_frame_set, Ho. by eexists. }
  split; [done|]. unfold ids_below_next, frame_set. cbn.
  apply Forall_fmap. eapply Forall_impl; [exact Hi|].
  intros x Hx. cbn. by rewrite evaluate_id.
Qed.

Lemma camera_keys_frame_set cam h f s :
  scene_ready cam s -> camera_keys (frame_set h f s) = camera_keys s.
Proof.
  intros (Hc & [o Ho] & _).
  rewrite (camera_keys_ready cam s o Hc Ho).
  rewrite (camera_keys_ready cam (frame_set h f s) (evaluate h f o) Hc)
    by (by rewrite get_object_frame_set, Ho).
  apply evaluate_keys.
Qed.

(** What one round of the inner loop does to the camera track: whatever
    the object, it keys the camera at frame [i + 1] with X = [offset_x * i]. *)
Lemma transform_object_keys h offset_x i obj cam s :
  scene_ready cam s ->
  exists s' v,
    transform_object h offset_x i obj s = Ok s'
    /\ scene_ready cam s'
    /\ next_id s' = next_id s
    /\ camera_keys s' = <[S i := v]> (camera_keys s)
    /\ vx v = inject_Z (offset_x * Z.of_nat i).
Proof.
  intros Hr. unfold transform_object.
  set (s1 := update_object obj (set_rotation_x 1.5708) s).
  assert (scene_ready cam s1 /\ camera_keys s1 = camera_keys s /\ next_id s1 = next_id s)
    as (Hr1 & Hk1 & Hn1).
  { split; [by apply scene_ready_update|]. split; [|done].
    by apply (camera_keys_update cam). }
  match goal with |- context [if contains "Slide" ?n then ?a else ?b] =>
    set (s2 := if contains "Slide" n then a else b) end.
  assert (scene_ready cam s2 /\ camera_keys s2 = camera_keys s1 /\ next_id s2 = next_id s1)
    as (Hr2 & Hk2 & Hn2).
  { subst s2. destruct (contains "Slide" _).
    - split; [by apply scene_ready_update|]. split; [|done].
      by apply (camera_keys_update cam).
    - split; [by apply scene_ready_update|]. split; [|done].
      by apply (camera_keys_update cam). }
  cbn zeta.
  assert (camera_keys s2 = camera_keys s) as Hks by congruence.
  assert (next_id s2 = next_id s) as Hns by congruence.
  clearbody s2. clear s1 Hr1 Hk1 Hn1 Hk2 Hn2 Hr.
  pose proof (scene_ready_frame_set cam h (S i) s2 Hr2) as Hr3.
  destruct Hr2 as (Hc & [o Ho] & Hm & Hi).
  change (camera (frame_set h (S i) s2)) with (camera s2). rewrite Hc.
  assert (get_object cam (frame_set h (S i) s2) = Some (evaluate h (S i) o)) as Ho3
    by (by rewrite get_object_frame_set, Ho).
  set (s3 := frame_set h (S i) s2) in *.
  set (g := fun o : object =>
              set_location (set_x (inject_Z (offset_x * Z.of_nat i)) (ob_location o)) o).
  set (s4 := update_object cam g s3).
  assert (keeps_id g) as Hg by done.
  assert (get_object cam s4 = Some (g (evaluate h (S i) o))) as Ho4.
  { subst s4. rewrite (get_object_update cam cam g s3 _ Hg Ho3).
    by rewrite decide_True. }
  assert (scene_ready cam s4) as Hr4 by (by apply scene_ready_update).
  set (k := fun o : object =>
              set_keys (<[frame_current s4 := ob_location o]> (ob_keys o)) o).
  assert (keeps_id k) as Hkid by done.
  exists (keyframe_insert_location cam s4), (ob_location (g (evaluate h (S i) o))).
  split; [done|]. split; [by apply scene_ready_update|]. split; [done|].
  split; [|done].
  unfold keyframe_insert_location. fold k.
  rewrite (camera_keys_ready cam (update_object cam k s4) _ Hc
             (get_object_update cam cam k s4 _ Hkid Ho4)).
  rewrite decide_True by done.
  rewrite <- Hks. rewrite (camera_keys_ready cam s2 o Hc Ho).
  cbn. by rewrite evaluate_keys.
Qed.

(** The inner loop: with at least one new object the frame is keyed. *)
Lemma transform_objects_keys h offset_x i new_objects cam s :
  scene_ready cam s ->
  exists s',
    transform_objects h offset_x i new_objects s = Ok s'
    /\ scene_ready cam s'
    /\ next_id s' = next_id s
    /\ (new_objects = [] -> camera_keys s' = camera_keys s)
    /\ (new_objects <> [] ->
        exists v, camera_keys s' = <[S i := v]> (camera_keys s)
                  /\ vx v = inject_Z (offset_x * Z.of_nat i)).
Proof.
  revert s; induction new_objects as [|obj rest IH]; intros s Hr.
  - exists s. do 4 (split; [done|]). intros H. congruence.
  - destruct (transform_object_keys h offset_x i obj cam s Hr)
      as (s1 & v1 & Hrun1 & Hr1 & Hn1 & Hk1 & Hv1).
    destruct (IH s1 Hr1) as (s' & Hrun & Hr' & Hn' & Hnil & Hcons).
    exists s'. cbn [transform_objects]. rewrite Hrun1. cbn.
    split; [done|]. split; [done|]. split; [congruence|]. split; [done|].
    intros _. destruct rest as [|obj' rest'].
    + exists v1. by rewrite Hnil.
    + destruct Hcons as (v & Hk & Hv); [done|].
      exists v. split; [|done]. by rewrite Hk, Hk1, insert_insert_eq.
Qed.

Lemma collect_new_foldl objs existing :
  collect_new objs existing = foldl collect_step (existing, []) objs.
Proof. reflexivity. Qed.

Lemma collect_keeps_new objs existing new :
  new <> [] -> (foldl collect_step (existing, new) objs).2 <> [].
Proof.
  revert existing new; induction objs as [|x objs IH]; intros existing new Hn; [done|].
  cbn. destruct (bool_decide (ob_id x ∈ existing)); apply IH; [done|].
  by destruct new.
Qed.

Lemma collect_finds_new objs existing new o :
  o ∈ objs -> ob_id o ∉ existing -> (foldl collect_step (existing, new) objs).2 <> [].
Proof.
  revert existing new; induction objs as [|x objs IH]; intros existing new Ho Hex.
  - by apply elem_of_nil in Ho.
  - cbn. destruct (bool_decide_reflect (ob_id x ∈ existing)) as [Hx|Hx].
    + apply elem_of_cons in Ho as [->|Ho]; [done|]. by apply IH.
    + apply collect_keeps_new. by destruct new.
Qed.

Lemma collect_bound (P : nat -> Prop) objs existing new :
  Forall P existing -> Forall (fun o => P (ob_id o)) objs ->
  Forall P (foldl collect_step (existing, new) objs).1.
Proof.
  revert existing new; induction objs as [|x objs IH]; intros existing new He Ho; [done|].
  apply Forall_cons in Ho as [Hx Ho].
  cbn. destruct (bool_decide (ob_id x ∈ existing)); apply IH; try done.
  apply Forall_app. split; [done|]. by apply Forall_singleton.
Qed.

Lemma import_curve_svg_ready h svg_file cam s :
  scene_ready cam s ->
  scene_ready cam (import_curve_svg h svg_file s)
  /\ camera_keys (import_curve_svg h svg_file s) = camera_keys s
  /\ next_id s <= next_id (import_curve_svg h svg_file s)
  /\ (forall o, o ∈ objects s -> o ∈ objects (import_curve_svg h svg_file s)).
Proof.
  unfold import_curve_svg. generalize (svg_curves h svg_file) as names.
  intros names; revert s; induction names as [|name names IH]; intros s Hr.
  - cbn. split; [done|]. split; [done|]. split; [lia|done].
  - cbn [foldl]. destruct (IH (new_object name 0 s) (scene_ready_new _ _ _ _ Hr))
      as (Hr' & Hk & Hn & Ho).
    split; [done|]. split; [by rewrite Hk, (camera_keys_new cam)|].
    split; [cbn in Hn; lia|].
    intros o Hin. apply Ho. cbn. apply elem_of_app. by left.
Qed.

Lemma has_object_new name e s :
  exists o, o ∈ objects (new_object name e s) /\ ob_id o = next_id s.
Proof.
  eexists. split.
  - cbn. apply elem_of_app. right. apply list_elem_of_singleton. reflexivity.
  - reflexivity.
Qed.

Lemma has_object_update id' id f s :
  keeps_id f ->
  (exists o, o ∈ objects s /\ ob_id o = id') ->
  exists o, o ∈ objects (update_object id f s) /\ ob_id o = id'.
Proof.
  intros Hf (o & Ho & Hid).
  exists (if decide (ob_id o = id) then f o else o). split.
  - cbn. by apply (list_elem_of_fmap_2
                     (fun o => if decide (ob_id o = id) then f o else o) (objects s) o).
  - case_decide; [by rewrite Hf|done].
Qed.

(** One round of the outer loop: the slide's plane is always a new
    object, so frame [i + 1] is keyed. *)
Lemma import_slide_keys h offset_x i svg_file existing cam s :
  scene_ready cam s ->
  Forall (fun id => id < next_id s) existing ->
  exists existing' s' v,
    import_slide h offset_x i svg_file existing s = Ok (existing', s')
    /\ scene_ready cam s'
    /\ Forall (fun id => id < next_id s') existing'
    /\ camera_keys s' = <[S i := v]> (camera_keys s)
    /\ vx v = inject_Z (offset_x * Z.of_nat i).
Proof.
  intros Hr Hex. unfold import_slide, primitive_plane_add.
  pose proof (scene_ready_new cam "Plane" 1%Q s Hr) as Hr1.
  pose proof (camera_keys_new cam "Plane" 1%Q s Hr) as Hk1.
  set (s1 := new_object "Plane" 1%Q s) in *.
  change (active_object s1) with (@Ok nat (next_id s)). cbn [mbind result_bind].
  set (f2 := fun o : object => set_extent_x (2 * ob_extent_x o)%Q o).
  assert (keeps_id f2) as Hf2 by done.
  pose proof (scene_ready_update cam (next_id s) f2 s1 Hf2 Hr1) as Hr2.
  pose proof (camera_keys_update cam (next_id s) f2 s1 Hf2 (fun _ => eq_refl) Hr1) as Hk2.
  set (s2 := update_object (next_id s) f2 s1) in *.
  unfold material. rewrite bool_decide_eq_true_2 by apply Hr2. cbn [mbind result_bind].
  set (f3 := set_name ("Slide " +:+ pretty i)).
  assert (keeps_id f3) as Hf3 by done.
  pose proof (scene_ready_update cam (next_id s) f3 s2 Hf3 Hr2) as Hr3.
  pose proof (camera_keys_update cam (next_id s) f3 s2 Hf3 (fun _ => eq_refl) Hr2) as Hk3.
  assert (exists o, o ∈ objects (update_object (next_id s) f3 s2) /\ ob_id o = next_id s)
    as (plane & Hplane & Hid).
  { apply has_object_update; [done|]. apply has_object_update; [done|].
    apply has_object_new. }
  assert (next_id (update_object (next_id s) f3 s2) = S (next_id s)) as Hn3 by done.
  set (s3 := update_object (next_id s) f3 s2) in *.
  destruct (import_curve_svg_ready h svg_file cam s3 Hr3) as (Hr4 & Hk4 & Hn4 & Ho4).
  set (s4 := import_curve_svg h svg_file s3) in *.
  rewrite collect_new_foldl.
  pose proof (collect_finds_new (objects s4) existing [] plane (Ho4 _ Hplane)) as Hnew.
  pose proof (collect_bound (fun id => id < next_id s4) (objects s4) existing []) as Hbound.
  destruct (foldl collect_step (existing, []) (objects s4)) as [existing' new_objects].
  destruct (transform_objects_keys h offset_x i new_objects cam s4 Hr4)
    as (s' & Hrun & Hr' & Hn' & _ & Hkeys).
  destruct Hkeys as (v & Hk & Hv).
  { apply Hnew. rewrite Hid. intros Hin.
    rewrite Forall_forall in Hex. apply Hex in Hin. lia. }
  exists existing', s', v. rewrite Hrun. cbn.
  split; [done|]. split; [done|]. split; [|split; [congruence|done]].
  rewrite Hn'. apply Hbound; [|apply Hr4].
  eapply Forall_impl; [exact Hex|]. cbn. intros id Hlt. lia.
Qed.

(** The outer loop, from slide index [i] on. *)
Lemma import_slides_keys h offset_x svg_files i existing cam s :
  scene_ready cam s ->
  Forall (fun id => id < next_id s) existing ->
  dom (camera_keys s) = (set_seq 1 i : gset nat) ->
  (forall f v, camera_keys s !! f = Some v ->
     vx v = inject_Z (offset_x * (Z.of_nat f - 1))) ->
  exists s',
    import_slides_from h offset_x i svg_files existing s = Ok s'
    /\ dom (camera_keys s') = (set_seq 1 (i + length svg_files) : gset nat)
    /\ (forall f v, camera_keys s' !! f = Some v ->
          vx v = inject_Z (offset_x * (Z.of_nat f - 1))).
Proof.
  revert i existing s; induction svg_files as [|svg_file rest IH];
    intros i existing s Hr Hex Hdom Hval.
  - exists s. split; [done|]. split; [|done]. by rewrite Nat.add_0_r.
  - destruct (import_slide_keys h offset_x i svg_file existing cam s Hr Hex)
      as (existing' & s1 & v & Hrun & Hr1 & Hex1 & Hk1 & Hv1).
    destruct (IH (S i) existing' s1 Hr1 Hex1) as (s' & Hrun' & Hdom' & Hval').
    + rewrite Hk1, dom_insert_L, Hdom. by rewrite set_seq_S_end_union_L.
    + intros f v'. rewrite Hk1, lookup_insert. case_decide as Hf.
      * intros [= <-]. rewrite Hv1. f_equal. lia.
      * apply Hval.
    + exists s'. cbn [import_slides_from]. rewrite Hrun. cbn.
      split; [done|]. split; [|done].
      rewrite Hdom'. f_equal. cbn. lia.
Qed.

(** C3. From a scene with the camera and the slide material, in which
    the camera has no keyframes yet, [import_and_transform_svgs] with the
    pitch 3 returns, and for a deck of N slides the camera's keyframes
    are at exactly the frames 1, ..., N, the one at frame f with
    X = 3 * (f - 1). *)
Theorem camera_keyframes (h : host) (svg_files : list string) (cam : nat) (s : scene) :
  scene_ready cam s ->
  camera_keys s = ∅ ->
  exists s',
    import_and_transform_svgs h svg_files 3 s = Ok s'
    /\ dom (camera_keys s') = (set_seq 1 (length svg_files) : gset nat)
    /\ (forall f v, camera_keys s' !! f = Some v ->
          vx v = inject_Z (3 * (Z.of_nat f - 1))).
Proof.
  intros Hr Hempty. unfold import_and_transform_svgs.
  apply (import_slides_keys h 3 svg_files 0 (ob_id <$> objects s) cam s Hr).
  - apply Forall_fmap. apply Hr.
  - by rewrite Hempty, dom_empty_L.
  - intros f v. by rewrite Hempty, lookup_empty.
Qed.

Lemma camera_keyframes_witness :
  scene_ready 0 Example.camera_scene
  /\ camera_keys Example.camera_scene = ∅
  /\ exists s',
       import_and_transform_svgs Example.host_404 ["s0.svg"; "s1.svg"] 3
         Example.camera_scene = Ok s'
       /\ dom (camera_keys s') = (set_seq 1 2 : gset nat)
       /\ (forall f v, camera_keys s' !! f = Some v ->
             vx v = inject_Z (3 * (Z.of_nat f - 1))).
Proof.
  assert (scene_ready 0 Example.camera_scene) as Hr.
  { split; [reflexivity|]. split; [by eexists|]. split.
    - apply list_elem_of_here.
    - apply Forall_singleton. cbn. lia. }
  split; [exact Hr|]. split; [reflexivity|].
  apply (camera_keyframes Example.host_404 ["s0.svg"; "s1.svg"] 0 Example.camera_scene Hr).
  reflexivity.
Defined.

End camera_facts.

(** ** PipelineOrchestrator: the backdrop *)

Section backdrop_facts.
Import Layout Pipeline Reference.

Lemma bind_Ok {A B} (r : result A) (k : A -> result B) (b : B) :
  r ≫= k = Ok b -> exists a, r = Ok a /\ k a = Ok b.
Proof. destruct r as [a|e]; [|done]. intros H. by exists a. Qed.

(** One SVG file name per section, rendered or not. *)
Lemma convert_to_svgs_from_length h bin i md_sections base_dir w svgs w' :
  Renderer.convert_to_svgs_from h bin i md_sections base_dir w = Ok (svgs, w') ->
  length svgs = length md_sections.
Proof.
  revert i w svgs w'; induction md_sections as [|section rest IH]; intros i w svgs w'.
  - by intros [= <- <-].
  - cbn [Renderer.convert_to_svgs_from]. cbn zeta.
    intros H. apply bind_Ok in H as (w0 & _ & H).
    apply bind_Ok in H as (w1 & _ & H).
    apply bind_Ok in H as ([svgs1 w2] & Hrest & H).
    injection H as <- <-. cbn. f_equal. by eapply IH.
Qed.

(** The backdrop is the last object added, scaled by the number of SVG
    files times 6, and by 10. *)
Lemma place_backdrop_scale svg_files s s' :
  place_backdrop svg_files s = Ok s' ->
  exists backdrop,
    last (objects s') = Some backdrop
    /\ ob_name backdrop = "backdrop"
    /\ ob_scale backdrop = Vec3 (inject_Z (Z.of_nat (length svg_files) * 6)) 10 10.
Proof.
  unfold place_backdrop. cbn. intros [= <-]. cbn.
  rewrite !last_fmap, last_snoc. cbn.
  repeat (destruct (decide (next_id s = next_id s)) as [_|?]; [cbn|congruence]).
  by eexists.
Qed.

Lemma compose_scene_backdrop h image_paths svg_files s s' :
  compose_scene h image_paths svg_files s = Ok s' ->
  exists s0, place_backdrop svg_files s0 = Ok s'.
Proof.
  unfold compose_scene. cbn zeta. intros H.
  apply bind_Ok in H as (s1 & _ & H).
  apply bind_Ok in H as (cam & _ & H).
  apply bind_Ok in H as (s2 & _ & H).
  by eexists.
Qed.

(** C5 (as amended). In every run that completes, the backdrop's X scale
    is 6 times the number of sections of the cleaned document, the empty
    sections included (one SVG file, and one slide position, per section:
    the number of delimiters plus one), and its Y and Z scale are 10. *)
Theorem backdrop_width_from_sections
    (h : host) (inkscape : Installer.installer) (input_md : string)
    (w : world) (s : scene) (r : run_report) :
  main h inkscape input_md w s = Ok r ->
  markdown_sections r = split_markdown (cleaned_md_content r)
  /\ length (svg_files r) = length (markdown_sections r)
  /\ length (markdown_sections r) = (delimiter_count (cleaned_md_content r) + 1)%nat
  /\ exists backdrop,
       last (objects (final_scene r)) = Some backdrop
       /\ ob_name backdrop = "backdrop"
       /\ ob_scale backdrop
          = Vec3 (inject_Z (6 * Z.of_nat (length (markdown_sections r)))) 10 10.
Proof.
  unfold main. cbn zeta. intros H.
  apply bind_Ok in H as (w1 & _ & H).
  apply bind_Ok in H as (w2 & _ & H).
  apply bind_Ok in H as (input_md_content & _ & H).
  apply bind_Ok in H as (w3 & _ & H).
  apply bind_Ok in H as ([[paths cleaned] w4] & _ & H).
  apply bind_Ok in H as ([svgs w5] & Hsvgs & H).
  apply bind_Ok in H as (s' & Hscene & H).
  injection H as <-. cbn.
  apply convert_to_svgs_from_length in Hsvgs.
  split; [done|]. split; [done|]. split; [apply split_markdown_length|].
  apply compose_scene_backdrop in Hscene as (s0 & Hb).
  apply place_backdrop_scale in Hb as (backdrop & Hlast & Hname & Hscale).
  exists backdrop. split; [done|]. split; [done|].
  rewrite Hscale, Hsvgs. do 2 f_equal. lia.
Qed.

(** C5, the claim as stated, fails where it counts only the non-empty
    sections: the deck [# A---] has the sections [# A] and the empty
    string, one of them non-empty, and the backdrop's X scale is 12. *)
Lemma backdrop_counts_empty_sections :
  ~ (forall (h : host) (inkscape : Installer.installer) (input_md : string)
            (w : world) (s : scene) (r : run_report),
       main h inkscape input_md w s = Ok r ->
       exists backdrop,
         last (objects (final_scene r)) = Some backdrop
         /\ ob_scale backdrop
            = Vec3 (inject_Z (6 * Z.of_nat
                      (length (filter (fun section => section <> "")
                                 (markdown_sections r))))) 10 10).
Proof.
  intros H.
  assert (main Example.host_404 Installer.MacOSInkscapeInstaller "deck.md"
            Example.installed_world Example.startup_scene = Ok Example.deck_report) as E
    by (vm_compute; reflexivity).
  destruct (H _ _ _ _ _ _ E) as (backdrop & Hlast & Hscale).
  vm_compute in Hlast. injection Hlast as <-.
  vm_compute in Hscale. discriminate Hscale.
Qed.

Lemma backdrop_width_from_sections_witness :
  main Example.host_404 Installer.MacOSInkscapeInstaller "deck.md"
    Example.installed_world Example.startup_scene = Ok Example.deck_report
  /\ markdown_sections Example.deck_report
     = split_markdown (cleaned_md_content Example.deck_report)
  /\ length (svg_files Example.deck_report) = length (markdown_sections Example.deck_report)
  /\ length (markdown_sections Example.deck_report)
     = (delimiter_count (cleaned_md_content Example.deck_report) + 1)%nat
  /\ exists backdrop,
       last (objects (final_scene Example.deck_report)) = Some backdrop
       /\ ob_name backdrop = "backdrop"
       /\ ob_scale backdrop
          = Vec3 (inject_Z (6 * Z.of_nat (length (markdown_sections Example.deck_report))))
              10 10.
Proof.
  assert (main Example.host_404 Installer.MacOSInkscapeInstaller "deck.md"
            Example.installed_world Example.startup_scene = Ok Example.deck_report) as E
    by (vm_compute; reflexivity).
  split; [exact E|].
  exact (backdrop_width_from_sections Example.host_404 Installer.MacOSInkscapeInstaller
           "deck.md" Example.installed_world Example.startup_scene Example.deck_report E).
Defined.

End backdrop_facts.

(** ** ToolInstaller: what a run of [install] leaves behind *)

Section installer_extras.
Import Installer Reference Example.

(** X1. Whatever the platform, an install whose archive request is
    answered with a status other than 200 and that returns, has printed
    its notice, made exactly that one request and printed the failure:
    these three events and no other are added.  On Windows and Linux the
    file system is left exactly as it was. *)
Theorem refused_download_trace (i : installer) (h : host) (w w' : world) (r : response) :
  requests_get h (archive_url i) = Some r ->
  status_code r <> 200 ->
  install i h w = Ok w' ->
  events w' = events w ++ [Print (download_notice i); HttpGet (archive_url i);
                           Print "Failed to download Inkscape."]
  /\ (i <> MacOSInkscapeInstaller -> fs w' = fs w).
Proof.
  intros Hr Hs. apply Z.eqb_neq in Hs.
  destruct i; cbn [install archive_url download_notice] in *.
  - unfold install_windows, http_get. rewrite Hr. cbn. rewrite Hs.
    intros [= <-]. cbn. by rewrite <- !app_assoc.
  - unfold install_macos. intros H. apply bind_Ok in H as (w1 & Hmk & H).
    unfold http_get in H. rewrite Hr in H. cbn in H. rewrite Hs in H.
    injection H as <-. cbn. split; [|done].
    assert (events w1 = events w) as ->; [|by rewrite <- !app_assoc].
    cbn [mkdir_parents] in Hmk.
    destruct (fs w !! md3d_dir h) as [[|?]|]; try done; cbn in Hmk;
    match type of Hmk with
    | context [?m !! install_path h] =>
        destruct (m !! install_path h) as [[|?]|]; try done
    end; by injection Hmk as <-.
  - unfold install_linux, http_get. rewrite Hr. cbn. rewrite Hs.
    intros [= <-]. cbn. by rewrite <- !app_assoc.
Qed.

Lemma refused_download_trace_witness :
  events (World ∅ [Print "Downloading Inkscape for Linux...";
                   HttpGet linux_url; Print "Failed to download Inkscape."])
  = events fresh_world ++ [Print (download_notice LinuxInkscapeInstaller);
                           HttpGet (archive_url LinuxInkscapeInstaller);
                           Print "Failed to download Inkscape."]
  /\ (LinuxInkscapeInstaller <> MacOSInkscapeInstaller ->
      fs (World ∅ [Print "Downloading Inkscape for Linux...";
                   HttpGet linux_url; Print "Failed to download Inkscape."])
      = fs fresh_world).
Proof.
  apply (refused_download_trace LinuxInkscapeInstaller host_404 fresh_world _
           (Response 404 "Not Found")).
  - reflexivity.
  - discriminate.
  - reflexivity.
Defined.

(** X2. On macOS every install that returns, with whatever answer from
    the server, leaves the install path in place: from then on
    [is_installed] holds and the first statement of [main] no longer
    installs anything. *)
Theorem macos_install_never_retried (h : host) (w w' : world) :
  install MacOSInkscapeInstaller h w = Ok w' ->
  is_installed h w' = true
  /\ ensure_installed MacOSInkscapeInstaller h w' = Ok w'.
Proof.
  intros H. apply install_macos_marks_installed in H.
  split; [done|]. unfold ensure_installed. by rewrite H.
Qed.

Lemma macos_install_never_retried_witness :
  install MacOSInkscapeInstaller host_404 fresh_world
  = Ok (World (<["/Users/u/.md3d/inkscape" := Dir]> (<["/Users/u/.md3d" := Dir]> ∅))
          [Print "Downloading Inkscape for MacOS..."; HttpGet macos_url;
           Print "Failed to download Inkscape."])
  /\ is_installed host_404
       (World (<["/Users/u/.md3d/inkscape" := Dir]> (<["/Users/u/.md3d" := Dir]> ∅))
          [Print "Downloading Inkscape for MacOS..."; HttpGet macos_url;
           Print "Failed to download Inkscape."]) = true
  /\ ensure_installed MacOSInkscapeInstaller host_404
       (World (<["/Users/u/.md3d/inkscape" := Dir]> (<["/Users/u/.md3d" := Dir]> ∅))
          [Print "Downloading Inkscape for MacOS..."; HttpGet macos_url;
           Print "Failed to download Inkscape."])
     = Ok (World (<["/Users/u/.md3d/inkscape" := Dir]> (<["/Users/u/.md3d" := Dir]> ∅))
             [Print "Downloading Inkscape for MacOS..."; HttpGet macos_url;
              Print "Failed to download Inkscape."]).
Proof.
  split; [reflexivity|].
  apply (macos_install_never_retried host_404 fresh_world). reflexivity.
Defined.

(** X3. On Windows, when the install directory does not exist (which is
    when [main] calls [install]) and the archive is served with status
    200, writing the archive into that directory raises
    [FileNotFoundError]: the installer never creates it. *)
Theorem windows_install_needs_directory (h : host) (w : world) (r : response) :
  fs w !! install_path h = None ->
  requests_get h windows_url = Some r ->
  status_code r = 200 ->
  install WindowsInkscapeInstaller h w = Raise FileNotFoundError.
Proof.
  intros Hdir Hr Hs. cbn [install]. unfold install_windows, http_get.
  rewrite Hr. cbn. rewrite Hs. cbn. unfold write_in. cbn. by rewrite Hdir.
Qed.

(** X4. On Linux the archive is written into [~/inkscape_source], which
    the installer never creates: without it a download served with status
    200 ends in [FileNotFoundError]. *)
Theorem linux_install_needs_source_directory (h : host) (w : world) (r : response) :
  fs w !! (home h // "inkscape_source") = None ->
  requests_get h linux_url = Some r ->
  status_code r = 200 ->
  install LinuxInkscapeInstaller h w = Raise FileNotFoundError.
Proof.
  intros Hdir Hr Hs. cbn [install]. unfold install_linux, http_get.
  rewrite Hr. cbn. rewrite Hs. cbn. unfold write_in. cbn. by rewrite Hdir.
Qed.

Lemma windows_install_needs_directory_witness :
  install WindowsInkscapeInstaller host_200 fresh_world = Raise FileNotFoundError.
Proof.
  apply (windows_install_needs_directory host_200 fresh_world
           (Response 200 ("bytes of " +:+ windows_url))); reflexivity.
Defined.

Lemma linux_install_needs_source_directory_witness :
  install LinuxInkscapeInstaller host_200 fresh_world = Raise FileNotFoundError.
Proof.
  apply (linux_install_needs_source_directory host_200 fresh_world
           (Response 200 ("bytes of " +:+ linux_url))); reflexivity.
Defined.

End installer_extras.

(** ** AssetExtractor: what the scan keeps, and what it extracts *)

Section scan_extras.
Import PyStr Extractor Reference.
Local Open Scope nat_scope.

Lemma list_remove_sublist line lines : list_remove line lines `sublist_of` lines.
Proof.
  induction lines as [|x l IH]; simpl; [done|].
  case_decide; [by apply sublist_cons|by apply sublist_skip].
Qed.

Lemma list_remove_text line lines :
  is_image_line line = true -> text_lines (list_remove line lines) = text_lines lines.
Proof.
  intros Hm. unfold text_lines. induction lines as [|x l IH]; simpl; [done|].
  case_decide as Hx.
  - subst x. rewrite filter_cons_False by congruence. done.
  - rewrite !filter_cons. case_decide; by rewrite IH.
Qed.

Lemma list_remove_images line lines :
  line ∈ lines -> is_image_line line = true ->
  S (length (image_lines (list_remove line lines))) = length (image_lines lines).
Proof.
  intros Hin Hm. unfold image_lines. induction lines as [|x l IH]; simpl.
  - by apply elem_of_nil in Hin.
  - case_decide as Hx.
    + subst x. by rewrite filter_cons_True.
    + apply elem_of_cons in Hin as [->|Hin]; [done|].
      rewrite !filter_cons. case_decide; simpl; by rewrite <- (IH Hin).
Qed.

Lemma scan_loop_text fuel idx lines links :
  text_lines (scan_loop fuel idx lines links).2 = text_lines lines.
Proof.
  revert idx lines links; induction fuel as [|fuel IH]; intros idx lines links; [done|].
  simpl. destruct (lines !! idx) as [line|] eqn:Hl; [|done].
  destruct (is_image_line line) eqn:Hm; rewrite IH; [|done].
  by apply list_remove_text.
Qed.

Lemma scan_loop_sublist fuel idx lines links :
  (scan_loop fuel idx lines links).2 `sublist_of` lines.
Proof.
  revert idx lines links; induction fuel as [|fuel IH]; intros idx lines links; [done|].
  simpl. destruct (lines !! idx) as [line|] eqn:Hl; [|done].
  destruct (is_image_line line); [|apply IH].
  etrans; [apply IH|apply list_remove_sublist].
Qed.

Lemma scan_loop_count fuel idx lines links :
  length (scan_loop fuel idx lines links).1
  + length (image_lines (scan_loop fuel idx lines links).2)
  = length links + length (image_lines lines).
Proof.
  revert idx lines links; induction fuel as [|fuel IH]; intros idx lines links; [done|].
  simpl. destruct (lines !! idx) as [line|] eqn:Hl; [|done].
  destruct (is_image_line line) eqn:Hm; rewrite IH; [|done].
  rewrite length_app. simpl.
  rewrite <- (list_remove_images line lines); [lia| |done].
  by eapply list_elem_of_lookup_2.
Qed.

Lemma scan_loop_provenance (P : string -> Prop) fuel idx lines links :
  (forall line, line ∈ lines -> is_image_line line = true -> P (image_link line)) ->
  Forall P links -> Forall P (scan_loop fuel idx lines links).1.
Proof.
  revert idx lines links; induction fuel as [|fuel IH]; intros idx lines links HP Hl; [done|].
  simpl. destruct (lines !! idx) as [line|] eqn:Hline; [|done].
  destruct (is_image_line line) eqn:Hm; apply IH; try done.
  - intros x Hx. apply HP. eapply elem_of_sublist; [exact Hx|apply list_remove_sublist].
  - apply Forall_app. split; [done|]. apply Forall_singleton, HP; [|done].
    by eapply list_elem_of_lookup_2.
Qed.

(** X5. The scan never touches a line that is not an image line: the
    lines it returns are the document's lines with some image lines taken
    out, in the original order, and every other line is still there. *)
Theorem scan_keeps_text_lines (lines : list string) :
  text_lines (scan_lines lines).2 = text_lines lines
  /\ (scan_lines lines).2 `sublist_of` lines.
Proof. split; [apply scan_loop_text|apply scan_loop_sublist]. Qed.

(** X6. Every image line of the document is either extracted or left in
    the returned lines: the number of extracted locators plus the number
    of image lines left behind is the number of image lines; and every
    extracted locator is the locator of an image line of the document. *)
Theorem scan_accounts_for_image_lines (lines : list string) :
  length (scan_lines lines).1 + length (image_lines (scan_lines lines).2)
  = length (image_lines lines)
  /\ Forall (fun link => exists line,
               line ∈ lines /\ is_image_line line = true /\ link = image_link line)
       (scan_lines lines).1.
Proof.
  split.
  - unfold scan_lines. by rewrite scan_loop_count.
  - apply scan_loop_provenance; [|done]. intros line Hin Hm. by exists line.
Qed.

End scan_extras.

(** ** AssetExtractor: resolving the links *)

Section fetch_extras.
Import PyStr Extractor Reference.
Local Open Scope nat_scope.

Lemma is_file_insert w p q data e :
  is_file w p -> is_file {| fs := <[q := File data]> (fs w); events := e |} p.
Proof.
  intros [d Hd]. unfold is_file. cbn. rewrite lookup_insert.
  case_decide; eauto.
Qed.

Lemma resolve_inv h base_dir link lv w lv' w' :
  resolve h base_dir link lv w = Ok (lv', w') ->
  fs w' = fs w
  /\ img_path lv' =
     (if startswith "http" link then
        match requests_get h link with
        | Some r =>
            if (status_code r =? 200)%Z
            then Some (base_dir // url_basename h link) else img_path lv
        | None => img_path lv
        end
      else Some (path_str h link)).
Proof.
  unfold resolve. destruct (startswith "http" link).
  - destruct (requests_get h link) as [r|]; [|done].
    destruct (status_code r =? 200)%Z; by intros [= <- <-].
  - destruct (fs w !! path_str h link) as [[|data]|]; try done. by intros [= <- <-].
Qed.

Lemma store_inv lv w paths w' paths' :
  store lv w paths = Ok (w', paths') ->
  exists p data,
    img_path lv = Some p
    /\ w' = {| fs := <[p := File data]> (fs w); events := events w |}
    /\ paths' = paths ++ [p].
Proof.
  unfold store. destruct (img_path lv) as [p|]; [|done].
  destruct (img_data lv) as [data|]; [|by destruct (fs w !! p) as [[|?]|]].
  destruct (fs w !! p) as [[|?]|]; try done; intros [= <- <-]; by exists p, data.
Qed.

Lemma fetch_loop_cons h base_dir link rest lv w paths w' paths' :
  fetch_loop h base_dir (link :: rest) lv w paths = Ok (w', paths') ->
  exists lv1 w1 w2 paths2,
    resolve h base_dir link lv w = Ok (lv1, w1)
    /\ store lv1 w1 paths = Ok (w2, paths2)
    /\ fetch_loop h base_dir rest lv1 w2 paths2 = Ok (w', paths').
Proof.
  cbn [fetch_loop]. intros H.
  apply bind_Ok in H as ([lv1 w1] & Hres & H).
  apply bind_Ok in H as ([w2 paths2] & Hst & H).
  by exists lv1, w1, w2, paths2.
Qed.

Lemma fetch_loop_paths h base_dir links lv w paths w' paths' :
  fetch_loop h base_dir links lv w paths = Ok (w', paths') ->
  paths' = paths ++ returned_paths h base_dir (img_path lv) links.
Proof.
  revert lv w paths; induction links as [|link rest IH]; intros lv w paths.
  - intros [= <- <-]. by rewrite app_nil_r.
  - intros H. apply fetch_loop_cons in H as (lv1 & w1 & w2 & paths2 & Hres & Hst & H).
    apply resolve_inv in Hres as [_ Hpath].
    apply store_inv in Hst as (p & data & Hp & _ & ->).
    apply IH in H. cbn [returned_paths]. cbn zeta.
    rewrite <- Hpath, Hp. rewrite H, Hp. by rewrite <- app_assoc.
Qed.

Lemma fetch_loop_post h base_dir links lv w paths w' paths' :
  fetch_loop h base_dir links lv w paths = Ok (w', paths') ->
  length paths' = length paths + length links
  /\ (Forall (is_file w) paths -> Forall (is_file w') paths').
Proof.
  revert lv w paths; induction links as [|link rest IH]; intros lv w paths.
  - intros [= <- <-]. split; [simpl; lia|done].
  - intros H. apply fetch_loop_cons in H as (lv1 & w1 & w2 & paths2 & Hres & Hst & H).
    apply resolve_inv in Hres as [Hfs _].
    apply store_inv in Hst as (p & data & Hp & -> & ->).
    apply IH in H as [Hlen Hfiles]. split.
    + rewrite Hlen, length_app. simpl. lia.
    + intros Hall. apply Hfiles. apply Forall_app. split.
      * eapply Forall_impl; [exact Hall|]. intros q [d Hq].
        apply is_file_insert. exists d. by rewrite Hfs.
      * apply Forall_singleton. exists data. cbn. by rewrite lookup_insert_eq.
Qed.

Lemma download_inv h md_content base_dir w paths cleaned w' :
  download_images_from_markdown h md_content base_dir w = Ok (paths, cleaned, w') ->
  exists w1,
    fetch_loop h base_dir (scan_lines (split newline md_content)).1
      {| img_data := None; img_path := None |} w [] = Ok (w1, paths)
    /\ cleaned = join newline (scan_lines (split newline md_content)).2
    /\ w' = emit (PrintImagePaths paths) w1.
Proof.
  unfold download_images_from_markdown.
  destruct (scan_lines (split newline md_content)) as [links lines].
  intros H. apply bind_Ok in H as ([w1 paths1] & Hfetch & H).
  injection H as <- <- <-. by exists w1.
Qed.

(** X7. The paths a successful call returns are determined by the
    extracted links and the server's answers alone: a local link gives
    its own path, a remote link answered with 200 the path of its
    basename under [base_dir], and a remote link answered otherwise the
    path of the image before it.  The cleaned text is the lines the scan
    left, joined by newlines. *)
Theorem download_returns_paths
    (h : host) (md_content base_dir : string) (w : world)
    (paths : list string) (cleaned : string) (w' : world) :
  download_images_from_markdown h md_content base_dir w = Ok (paths, cleaned, w') ->
  paths = returned_paths h base_dir None (scan_lines (split newline md_content)).1
  /\ cleaned = join newline (scan_lines (split newline md_content)).2.
Proof.
  intros H. apply download_inv in H as (w1 & Hfetch & -> & _).
  split; [|done]. by apply fetch_loop_paths in Hfetch.
Qed.

(** X8. A successful call returns one path per extracted link, and every
    returned path names a file that is on disk when the call returns. *)
Theorem download_paths_are_files
    (h : host) (md_content base_dir : string) (w : world)
    (paths : list string) (cleaned : string) (w' : world) :
  download_images_from_markdown h md_content base_dir w = Ok (paths, cleaned, w') ->
  length paths = length (scan_lines (split newline md_content)).1
  /\ Forall (is_file w') paths.
Proof.
  intros H. apply download_inv in H as (w1 & Hfetch & _ & ->).
  apply fetch_loop_post in Hfetch as [Hlen Hfiles]. split; [done|].
  by apply Hfiles.
Qed.

Lemma download_returns_paths_witness :
  download_images_from_markdown Example.host_404 Example.local_then_remote
    Example.images_dir Example.world_with_images
  = Ok (["a.png"; "a.png"], "text",
        emit (PrintImagePaths ["a.png"; "a.png"])
          (emit (HttpGet "http://example.org/b.png") Example.world_with_images))
  /\ ["a.png"; "a.png"]
     = returned_paths Example.host_404 Example.images_dir None
         (scan_lines (split newline Example.local_then_remote)).1
  /\ "text" = join newline (scan_lines (split newline Example.local_then_remote)).2.
Proof.
  assert (download_images_from_markdown Example.host_404 Example.local_then_remote
            Example.images_dir Example.world_with_images
          = Ok (["a.png"; "a.png"], "text",
                emit (PrintImagePaths ["a.png"; "a.png"])
                  (emit (HttpGet "http://example.org/b.png") Example.world_with_images)))
    as E by (vm_compute; reflexivity).
  split; [exact E|].
  exact (download_returns_paths _ _ _ _ _ _ _ E).
Defined.

Lemma download_paths_are_files_witness :
  download_images_from_markdown Example.host_404 Example.local_then_remote
    Example.images_dir Example.world_with_images
  = Ok (["a.png"; "a.png"], "text",
        emit (PrintImagePaths ["a.png"; "a.png"])
          (emit (HttpGet "http://example.org/b.png") Example.world_with_images))
  /\ length ["a.png"; "a.png"]
     = length (scan_lines (split newline Example.local_then_remote)).1
  /\ Forall (is_file (emit (PrintImagePaths ["a.png"; "a.png"])
                        (emit (HttpGet "http://example.org/b.png")
                           Example.world_with_images)))
       ["a.png"; "a.png"].
Proof.
  assert (download_images_from_markdown Example.host_404 Example.local_then_remote
            Example.images_dir Example.world_with_images
          = Ok (["a.png"; "a.png"], "text",
                emit (PrintImagePaths ["a.png"; "a.png"])
                  (emit (HttpGet "http://example.org/b.png") Example.world_with_images)))
    as E by (vm_compute; reflexivity).
  split; [exact E|].
  exact (download_paths_are_files _ _ _ _ _ _ _ E).
Defined.


Lemma no_image_lines lines :
  image_lines lines = [] -> images_isolated lines = true /\ text_lines lines = lines.
Proof.
  unfold image_lines, text_lines. induction lines as [|x l IH]; [done|].
  rewrite filter_cons. case_decide as Hx; [done|]. intros Hl.
  apply not_true_is_false in Hx. destruct (IH Hl) as [Hiso Htext].
  split.
  - cbn [images_isolated]. by rewrite Hx.
  - rewrite filter_cons_True by done. by rewrite Htext.
Qed.

Lemma newline_nonempty : newline <> "".
Proof. done. Qed.



(** X10. A document without image lines comes back as it is: no path, the
    same text, nothing requested, nothing on disk changed. *)
Theorem download_without_images (h : host) (md_content base_dir : string) (w : world) :
  image_lines (split newline md_content) = [] ->
  download_images_from_markdown h md_content base_dir w
  = Ok ([], md_content, emit (PrintImagePaths []) w).
Proof.
  intros Hnone. destruct (no_image_lines _ Hnone) as [Hiso Htext].
  unfold download_images_from_markdown.
  rewrite (scan_lines_isolated _ Hiso), Hnone, Htext. cbn.
  by rewrite (join_split newline newline_nonempty).
Qed.

Lemma download_without_images_witness :
  download_images_from_markdown Example.host_404 Example.plain_text
    Example.images_dir Example.fresh_world
  = Ok ([], Example.plain_text, emit (PrintImagePaths []) Example.fresh_world).
Proof.
  apply (download_without_images Example.host_404 Example.plain_text).
  vm_compute. reflexivity.
Defined.



End fetch_extras.

(** ** SlideRenderer *)

Section renderer_extras.
Import Renderer Reference.
Local Open Scope nat_scope.

Lemma convert_to_svgs_from_names h bin i md_sections base_dir w svgs w' :
  convert_to_svgs_from h bin i md_sections base_dir w = Ok (svgs, w') ->
  svgs = section_svg base_dir <$> seq i (length md_sections).
Proof.
  revert i w svgs w'; induction md_sections as [|section rest IH]; intros i w svgs w'.
  - by intros [= <- <-].
  - cbn [convert_to_svgs_from]. cbn zeta.
    intros H. apply bind_Ok in H as (w0 & _ & H).
    apply bind_Ok in H as (w1 & _ & H).
    apply bind_Ok in H as ([svgs1 w2] & Hrest & H).
    injection H as <- <-. cbn. f_equal. by eapply IH.
Qed.

(** X12. When [convert_to_svgs] returns, it returns one file name per
    section, empty sections included, and the name of section i is
    [base_dir/section_i.svg]: the names depend on the position alone, not
    on the text nor on whether Inkscape succeeded. *)
Theorem convert_to_svgs_names
    (h : host) (bin : string) (md_sections : list string) (base_dir : string)
    (w : world) (svgs : list string) (w' : world) :
  convert_to_svgs h bin md_sections base_dir w = Ok (svgs, w') ->
  svgs = section_svg base_dir <$> seq 0 (length md_sections).
Proof. apply convert_to_svgs_from_names. Qed.

Lemma insert_file_not_dir (m : gmap string node) p q data :
  m !! q <> Some Dir -> <[p := File data]> m !! q <> Some Dir.
Proof. intros Hq. rewrite lookup_insert. by case_decide. Qed.

Lemma insert_file_keeps_dir (m : gmap string node) p q data :
  m !! q = Some Dir -> m !! p <> Some Dir -> <[p := File data]> m !! q = Some Dir.
Proof. intros Hq Hp. rewrite lookup_insert. case_decide; [congruence|done]. Qed.

Lemma can_save_insert base_dir w p data ev :
  can_save_sections base_dir w ->
  fs w !! p <> Some Dir ->
  can_save_sections base_dir {| fs := <[p := File data]> (fs w); events := ev |}.
Proof.
  intros (Hd & Ht & Hp) Hnd. split; [|split]; cbn [fs].
  - by apply insert_file_keeps_dir.
  - by apply insert_file_not_dir.
  - intros j. by apply insert_file_not_dir.
Qed.

(** Saving the page of a section leaves the world fit for the next. *)
Lemma convert_md_to_pdf_saves h md_text base_dir i w :
  can_save_sections base_dir w ->
  exists w',
    convert_md_to_pdf h md_text base_dir (section_pdf_name i) w = Ok w'
    /\ can_save_sections base_dir w'.
Proof.
  intros Hs. unfold convert_md_to_pdf, markdown_to_html. cbn [fs print emit].
  pose proof (can_save_insert base_dir w "test.html" (markdown_html h md_text)
                (events (print md_text (print "Converting Markdown to HTML..." w)))
                Hs (proj1 (proj2 Hs))) as Hs0.
  set (w0 := {| fs := <["test.html" := File (markdown_html h md_text)]> (fs w);
                events := events (print md_text
                                    (print "Converting Markdown to HTML..." w)) |}) in *.
  assert (forall k : string * world -> result world,
            match fs w !! "test.html" with
            | Some Dir => Raise IsADirectoryError
            | _ => Ok (markdown_html h md_text, w0)
            end ≫= k = k (markdown_html h md_text, w0)) as ->.
  { intros k. destruct Hs as (_ & Ht & _).
    by destruct (fs w !! "test.html") as [[|html]|]. }
  destruct Hs0 as (Hd & Ht & Hp). unfold doc_save. rewrite Hd.
  pose proof (can_save_insert base_dir w0 (base_dir // section_pdf_name i)
                (html_pdf h (markdown_html h md_text)) (events w0)
                (conj Hd (conj Ht Hp)) (Hp i)) as Hs1.
  destruct (fs w0 !! (base_dir // section_pdf_name i)) as [[|pdf]|] eqn:E;
    [exfalso; by apply (Hp i)| |]; eexists; (split; [reflexivity|exact Hs1]).
Qed.

Lemma convert_pdf_to_svg_fs h bin input_pdf output_svg w w' :
  convert_pdf_to_svg h bin input_pdf output_svg w = Ok w' -> fs w' = fs w.
Proof.
  unfold convert_pdf_to_svg. destruct (run h _); [| |done]; by intros [= <-].
Qed.

Lemma convert_to_svgs_from_total h bin i md_sections base_dir w :
  can_save_sections base_dir w ->
  Forall (fun k => run h (inkscape_argv bin base_dir k) <> NoSuchProgram)
    (seq i (length md_sections)) ->
  exists w',
    convert_to_svgs_from h bin i md_sections base_dir w
    = Ok (section_svg base_dir <$> seq i (length md_sections), w').
Proof.
  revert i w; induction md_sections as [|section rest IH]; intros i w Hsave Hrun.
  - by exists w.
  - cbn [length seq] in Hrun. apply Forall_cons in Hrun as [Hi Hrun].
    cbn [convert_to_svgs_from]. cbn zeta.
    destruct (convert_md_to_pdf_saves h section base_dir i w Hsave) as (w0 & Hpdf & Hsave0).
    unfold section_pdf_name in Hpdf. rewrite Hpdf. cbn [mbind result_bind].
    fold (section_svg base_dir i).
    destruct (convert_pdf_to_svg h bin (base_dir // ("section_" +:+ pretty i +:+ ".pdf"))
                (section_svg base_dir i) w0) as [w1|e] eqn:Hsvg.
    + assert (can_save_sections base_dir w1) as Hsave1.
      { unfold can_save_sections. by rewrite (convert_pdf_to_svg_fs _ _ _ _ _ _ Hsvg). }
      cbn [mbind result_bind].
      destruct (IH (S i) w1 Hsave1 Hrun) as [w' ->]. by exists w'.
    + exfalso. unfold convert_pdf_to_svg in Hsvg.
      fold (section_svg base_dir i) in Hsvg. fold (inkscape_argv bin base_dir i) in Hsvg.
      by destruct (run h (inkscape_argv bin base_dir i)).
Qed.

(** X13. A conversion that exits with a non-zero status does not stop
    [convert_to_svgs]: when the pages can be saved under [base_dir] and
    the program can be started for every section, the call returns, and
    it lists the SVG name of every section, converted or not. *)
Theorem convert_to_svgs_survives_failures
    (h : host) (bin : string) (md_sections : list string) (base_dir : string) (w : world) :
  can_save_sections base_dir w ->
  Forall (fun k => run h (inkscape_argv bin base_dir k) <> NoSuchProgram)
    (seq 0 (length md_sections)) ->
  exists w',
    convert_to_svgs h bin md_sections base_dir w
    = Ok (section_svg base_dir <$> seq 0 (length md_sections), w').
Proof. apply convert_to_svgs_from_total. Qed.

Lemma convert_to_svgs_from_missing h bin i md_sections base_dir w k :
  can_save_sections base_dir w ->
  i <= k < i + length md_sections ->
  run h (inkscape_argv bin base_dir k) = NoSuchProgram ->
  convert_to_svgs_from h bin i md_sections base_dir w = Raise FileNotFoundError.
Proof.
  revert i w; induction md_sections as [|section rest IH]; intros i w Hsave Hk Hrun.
  - simpl in Hk. lia.
  - cbn [convert_to_svgs_from]. cbn zeta.
    destruct (convert_md_to_pdf_saves h section base_dir i w Hsave) as (w0 & Hpdf & Hsave0).
    unfold section_pdf_name in Hpdf. rewrite Hpdf. cbn [mbind result_bind].
    fold (section_svg base_dir i).
    destruct (convert_pdf_to_svg h bin (base_dir // ("section_" +:+ pretty i +:+ ".pdf"))
                (section_svg base_dir i) w0) as [w1|e] eqn:Hsvg.
    + assert (can_save_sections base_dir w1) as Hsave1.
      { unfold can_save_sections. by rewrite (convert_pdf_to_svg_fs _ _ _ _ _ _ Hsvg). }
      cbn [mbind result_bind].
      assert (k <> i) as Hne.
      { intros ->. unfold convert_pdf_to_svg in Hsvg.
        fold (section_svg base_dir i) in Hsvg. fold (inkscape_argv bin base_dir i) in Hsvg.
        by rewrite Hrun in Hsvg. }
      rewrite (IH (S i) w1 Hsave1); [done| |done]. simpl in Hk. lia.
    + cbn [mbind result_bind]. unfold convert_pdf_to_svg in Hsvg.
      match type of Hsvg with context [run h ?argv] => destruct (run h argv) end;
        [done|done|]. by injection Hsvg as <-.
Qed.

(** X14. With the pages saved under [base_dir], if for some section the
    program cannot be started at all (as with the Windows and Linux
    installers, whose binary is [None]), the whole call raises
    [FileNotFoundError], whatever the other conversions did. *)
Theorem convert_to_svgs_missing_program
    (h : host) (bin : string) (md_sections : list string) (base_dir : string)
    (w : world) (k : nat) :
  can_save_sections base_dir w ->
  k < length md_sections ->
  run h (inkscape_argv bin base_dir k) = NoSuchProgram ->
  convert_to_svgs h bin md_sections base_dir w = Raise FileNotFoundError.
Proof.
  intros Hsave Hk. apply convert_to_svgs_from_missing; [done|lia].
Qed.

Lemma can_save_out : can_save_sections "out" Example.out_world.
Proof.
  split; [reflexivity|]. split; [by vm_compute|].
  intros i. unfold Example.out_world. cbn [fs].
  rewrite lookup_insert_ne; [by rewrite lookup_empty|].
  unfold path_join. intros H. apply (f_equal String.length) in H.
  rewrite !str_length_app in H. cbn in H. lia.
Qed.

Lemma convert_to_svgs_names_witness :
  convert_to_svgs Example.host_flaky "inkscape" ["# A"; ""] "out" Example.out_world
  = Ok (["out/section_0.svg"; "out/section_1.svg"], Example.rendered_world)
  /\ Print "An error occurred: " ∈ events Example.rendered_world
  /\ ["out/section_0.svg"; "out/section_1.svg"]
     = section_svg "out" <$> seq 0 (length ["# A"; ""]).
Proof.
  assert (convert_to_svgs Example.host_flaky "inkscape" ["# A"; ""] "out" Example.out_world
          = Ok (["out/section_0.svg"; "out/section_1.svg"], Example.rendered_world)) as E
    by (vm_compute; reflexivity).
  split; [exact E|]. split.
  { vm_compute. do 2 apply list_elem_of_further. apply list_elem_of_here. }
  exact (convert_to_svgs_names _ _ _ _ _ _ _ E).
Defined.

Lemma convert_to_svgs_survives_failures_witness :
  run Example.host_flaky (inkscape_argv "inkscape" "out" 0) = ExitNonZero
  /\ exists w',
       convert_to_svgs Example.host_flaky "inkscape" ["# A"; ""] "out" Example.out_world
       = Ok (section_svg "out" <$> seq 0 (length ["# A"; ""]), w').
Proof.
  split; [reflexivity|].
  apply (convert_to_svgs_survives_failures Example.host_flaky "inkscape" ["# A"; ""] "out"
           Example.out_world).
  - exact can_save_out.
  - repeat constructor; discriminate.
Defined.

Lemma convert_to_svgs_missing_program_witness :
  convert_to_svgs Example.host_200 "None" ["# A"; ""] "out" Example.out_world
  = Raise FileNotFoundError.
Proof.
  apply (convert_to_svgs_missing_program Example.host_200 "None" ["# A"; ""] "out"
           Example.out_world 1).
  - exact can_save_out.
  - simpl. lia.
  - reflexivity.
Defined.

End renderer_extras.

(** ** SceneComposer: all image panels *)

Section image_extras.
Import Layout Reference.
Local Open Scope Q_scope.

(** A write through a reference that no object of the list answers to *)
Lemma update_fresh_objects id (f : object -> object) (l : list object) :
  Forall (fun o => (ob_id o < id)%nat) l ->
  (fun o => if decide (ob_id o = id) then f o else o) <$> l = l.
Proof.
  induction 1 as [|o l Ho _ IH]; [done|].
  cbn. rewrite decide_False by lia. f_equal. exact IH.
Qed.

(** One round of the loop in a scene whose identities are in order: one
    panel is added behind the objects that are there, and these stay as
    they are. *)
Lemma position_image_panel h oy oz tw i img_path s size :
  ids_below_next s ->
  image_size h img_path = Some size ->
  exists s' img,
    position_image h oy oz tw i img_path s = Ok s'
    /\ objects s' = objects s ++ [img]
    /\ ids_below_next s'
    /\ ob_name img = "Image " +:+ pretty i
    /\ ob_rotation_x img = 1.5708
    /\ ob_scale img = Vec3 (aspect size) 1 1
    /\ ob_extent_x img = 1
    /\ vy (ob_location img) = oy
    /\ vz (ob_location img) = oz
    /\ vx (ob_location img) ==
         inject_Z (Z.of_nat i) * tw + tw / 2 - (1 # 2)
         + inject_Z (Z.of_nat i) / aspect size.
Proof.
  intros Hids Hsize. unfold position_image. rewrite Hsize.
  destruct size as [width height]. unfold aspect. cbn [fst snd].
  set (a := inject_Z (Z.pos width) / inject_Z (Z.pos height)). clearbody a.
  unfold primitive_plane_add.
  change (active_object (new_object "Plane" 1 s)) with (@Ok nat (next_id s)).
  cbn [mbind result_bind].
  assert (get_object (next_id s) (new_object "Plane" 1 s)
          = Some (blank_object (next_id s) "Plane" 1)) as ->.
  { unfold get_object. cbn. by apply find_object_snoc_fresh. }
  eexists _, _. split; [reflexivity|].
  unfold ids_below_next. cbn.
  rewrite !fmap_app.
  repeat rewrite (update_fresh_objects (next_id s) _ (objects s)) by exact Hids.
  cbn [fmap list_fmap].
  repeat (destruct (decide (next_id s = next_id s)) as [_|?]; [cbn|congruence]).
  split; [reflexivity|]. split.
  { apply Forall_app. split.
    - eapply Forall_impl; [exact Hids|]. cbn. intros o Ho. lia.
    - apply Forall_singleton. cbn. lia. }
  do 6 (split; [reflexivity|]).
  unfold set_name, set_location, dimensions_x, blank_object.
  cbn [vx ob_location ob_scale ob_extent_x].
  change (Qabs 1) with 1.
  generalize (inject_Z (Z.of_nat i) / a).
  generalize (inject_Z (Z.of_nat i)).
  intros x y. field.
Qed.

Lemma position_images_from_panels h oy oz tw i image_paths s s' :
  ids_below_next s ->
  position_images_from h oy oz tw i image_paths s = Ok s' ->
  exists panels,
    objects s' = objects s ++ panels
    /\ length panels = length image_paths
    /\ ids_below_next s'
    /\ (forall k img_path, image_paths !! k = Some img_path ->
          exists img, panels !! k = Some img
                      /\ is_image_panel h oy oz tw (i + k) img_path img).
Proof.
  revert i s; induction image_paths as [|img_path rest IH]; intros i s Hids Hrun.
  - injection Hrun as <-. exists []. split; [by rewrite app_nil_r|].
    split; [done|]. split; [done|]. intros k p Hk. by rewrite lookup_nil in Hk.
  - cbn [position_images_from] in Hrun. apply bind_Ok in Hrun as (s1 & Hone & Hrun).
    destruct (image_size h img_path) as [size|] eqn:Hsize;
      [|by unfold position_image in Hone; rewrite Hsize in Hone].
    destruct (position_image_panel h oy oz tw i img_path s size Hids Hsize)
      as (s1' & img & Hone' & Hobjs & Hids1 & Hname & Hrot & Hscale & Hext & Hy & Hz & Hx).
    rewrite Hone in Hone'. injection Hone' as <-.
    destruct (IH (S i) s1 Hids1 Hrun) as (panels & Hobjs' & Hlen & Hids' & Hall').
    exists (img :: panels).
    split; [by rewrite Hobjs', Hobjs, <- app_assoc|].
    split; [by cbn; rewrite Hlen|]. split; [done|].
    intros [|k] p Hk.
    + injection Hk as <-. exists img. split; [done|].
      rewrite Nat.add_0_r. by exists size.
    + destruct (Hall' k p Hk) as (img' & Hlook & Hpanel).
      exists img'. split; [done|]. by replace (i + S k)%nat with (S i + k)%nat by lia.
Qed.

(** X15. In a scene whose object identities are in order, whenever
    [import_and_position_images] returns it has left the objects that
    were there untouched and added one panel per image, in order.  The
    panel of image k is named [Image k], is 1 wide before scaling, is
    rotated by 1.5708 about X and scaled by the aspect ratio in X, stands
    at the given Y and Z offsets, and is centred at
    X = [k*w + w/2 - 1/2 + k/aspect]: the half width that is subtracted is
    that of the unscaled plane. *)
Theorem import_images_panels
    (h : host) (image_paths : list string) (oy oz tw : Q) (s s' : scene) :
  ids_below_next s ->
  import_and_position_images h image_paths oy oz tw s = Ok s' ->
  exists panels,
    objects s' = objects s ++ panels
    /\ length panels = length image_paths
    /\ (forall k img_path, image_paths !! k = Some img_path ->
          exists img, panels !! k = Some img
                      /\ is_image_panel h oy oz tw k img_path img).
Proof.
  intros Hids Hrun.
  destruct (position_images_from_panels h oy oz tw 0 image_paths s s' Hids Hrun)
    as (panels & Hobjs & Hlen & _ & Hpanels).
  exists panels. split; [done|]. split; [done|]. exact Hpanels.
Qed.

Lemma import_images_panels_witness :
  import_and_position_images Example.host_404 ["a.png"; "wide.png"]
    default_offset_y default_offset_z default_text_plane_width Example.empty_scene
  = Ok Example.panel_scene
  /\ exists panels,
       objects Example.panel_scene = objects Example.empty_scene ++ panels
       /\ length panels = length ["a.png"; "wide.png"]
       /\ (forall k img_path, ["a.png"; "wide.png"] !! k = Some img_path ->
             exists img, panels !! k = Some img
                         /\ is_image_panel Example.host_404 default_offset_y
                              default_offset_z default_text_plane_width k img_path img).
Proof.
  assert (import_and_position_images Example.host_404 ["a.png"; "wide.png"]
            default_offset_y default_offset_z default_text_plane_width Example.empty_scene
          = Ok Example.panel_scene) as E by (vm_compute; reflexivity).
  split; [exact E|].
  apply (import_images_panels Example.host_404 ["a.png"; "wide.png"]
           default_offset_y default_offset_z default_text_plane_width
           Example.empty_scene Example.panel_scene); [apply Forall_nil_2|exact E].
Defined.

End image_extras.

(** ** SceneComposer: what the slide loop needs from the scene *)

Section slide_errors.
Import PyStr Layout Reference.
Local Open Scope nat_scope.

Lemma import_curve_svg_keeps h svg_file s :
  camera (import_curve_svg h svg_file s) = camera s
  /\ (forall o, o ∈ objects s -> o ∈ objects (import_curve_svg h svg_file s)).
Proof.
  unfold import_curve_svg. generalize (svg_curves h svg_file) as names.
  intros names; revert s; induction names as [|name names IH]; intros s; [done|].
  cbn [foldl]. destruct (IH (new_object name 0 s)) as [Hc Ho].
  split; [by rewrite Hc|]. intros o Hin. apply Ho. cbn. apply elem_of_app. by left.
Qed.

(** X17. Without a material named [Slides], [import_and_transform_svgs]
    on a non-empty deck raises [KeyError] at the first slide. *)
Theorem slides_need_material
    (h : host) (svg_file : string) (rest : list string) (offset_x : Z) (s : scene) :
  "Slides" ∉ materials s ->
  import_and_transform_svgs h (svg_file :: rest) offset_x s = Raise KeyError.
Proof.
  intros Hm. unfold import_and_transform_svgs. cbn [import_slides_from].
  unfold import_slide, primitive_plane_add.
  change (active_object (new_object "Plane" 1%Q s)) with (@Ok nat (next_id s)).
  cbn [mbind result_bind]. unfold material.
  rewrite bool_decide_eq_false_2; [done|]. exact Hm.
Qed.

Lemma slides_need_material_witness :
  import_and_transform_svgs Example.host_404 ["s0.svg"; "s1.svg"] 3 Example.startup_scene
  = Raise KeyError.
Proof.
  apply (slides_need_material Example.host_404 "s0.svg" ["s1.svg"] 3 Example.startup_scene).
  apply not_elem_of_nil.
Defined.

(** X18. Without a scene camera, [import_and_transform_svgs] on a
    non-empty deck raises [AttributeError]: the plane of the first slide
    is always a new object, and the first round of the inner loop reaches
    for the camera. *)
Theorem slides_need_camera
    (h : host) (svg_file : string) (rest : list string) (offset_x : Z) (s : scene) :
  camera s = None ->
  "Slides" ∈ materials s ->
  ids_below_next s ->
  import_and_transform_svgs h (svg_file :: rest) offset_x s = Raise AttributeError.
Proof.
  intros Hc Hm Hids. unfold import_and_transform_svgs. cbn [import_slides_from].
  unfold import_slide, primitive_plane_add.
  change (active_object (new_object "Plane" 1%Q s)) with (@Ok nat (next_id s)).
  cbn [mbind result_bind]. unfold material.
  rewrite bool_decide_eq_true_2 by exact Hm. cbn [mbind result_bind].
  set (f2 := fun o : object => set_extent_x (2 * ob_extent_x o)%Q o).
  set (f3 := set_name ("Slide " +:+ pretty 0)).
  set (s3 := update_object (next_id s) f3
               (update_object (next_id s) f2 (new_object "Plane" 1%Q s))).
  assert (exists o, o ∈ objects s3 /\ ob_id o = next_id s) as (plane & Hplane & Hid).
  { apply has_object_update; [done|]. apply has_object_update; [done|].
    apply has_object_new. }
  destruct (import_curve_svg_keeps h svg_file s3) as [Hcam Hobjs].
  set (s4 := import_curve_svg h svg_file s3) in *.
  rewrite collect_new_foldl.
  pose proof (collect_finds_new (objects s4) (ob_id <$> objects s) [] plane
                (Hobjs _ Hplane)) as Hnew.
  destruct (foldl collect_step (ob_id <$> objects s, []) (objects s4))
    as [existing' new_objects].
  destruct new_objects as [|obj new_objects].
  { exfalso. apply Hnew; [|done]. rewrite Hid. intros Hin.
    apply list_elem_of_fmap in Hin as (o & Heq & Hin).
    unfold ids_below_next in Hids. rewrite Forall_forall in Hids.
    apply Hids in Hin. lia. }
  cbn [transform_objects]. unfold transform_object. cbn zeta.
  assert (camera s4 = None) as Hnone by (by rewrite Hcam).
  match goal with |- context [if contains "Slide" ?n then _ else _] =>
    destruct (contains "Slide" n) end;
    match goal with |- context [camera (frame_set h 1 ?x)] =>
      change (camera (frame_set h 1 x)) with (camera s4) end;
    by rewrite Hnone.
Qed.

Lemma slides_need_camera_witness :
  import_and_transform_svgs Example.host_404 ["s0.svg"] 3 Example.empty_scene
  = Raise AttributeError.
Proof.
  apply (slides_need_camera Example.host_404 "s0.svg" [] 3 Example.empty_scene).
  - reflexivity.
  - apply list_elem_of_here.
  - apply Forall_nil_2.
Defined.

End slide_errors.

(** ** SceneComposer: where slides and curves end up *)

Section placement_extras.
Import PyStr Layout Reference.
Local Open Scope nat_scope.

Lemma find_object_elem_of id l o : find_object id l = Some o -> o ∈ l.
Proof.
  induction l as [|x l IH]; [done|]. cbn. case_decide as Hx.
  - intros [= <-]. by left.
  - intros Hfind. right. by apply IH.
Qed.

(** One round of the inner loop, seen from the object [n]: it is placed
    if the round is its own, and left alone otherwise. *)
Lemma placed_keys offset_x i o : ob_keys (placed offset_x i o) = ob_keys o.
Proof. unfold placed. by destruct (contains "Slide" (ob_name o)). Qed.

Lemma transform_object_at h offset_x i obj cam s n o :
  camera s = Some cam -> n <> cam -> get_object n s = Some o -> ob_keys o = ∅ ->
  exists s',
    transform_object h offset_x i obj s = Ok s'
    /\ camera s' = Some cam
    /\ get_object n s' = Some (if decide (n = obj) then placed offset_x i o else o).
Proof.
  intros Hc Hn Ho Hkeys. unfold transform_object.
  set (f1 := set_rotation_x 1.5708).
  assert (keeps_id f1) as Hf1 by done.
  pose proof (get_object_update n obj f1 s o Hf1 Ho) as Ho1.
  set (s1 := update_object obj f1 s) in *.
  match goal with |- context [if contains "Slide" ?nm then update_object obj ?fa s1
                              else update_object obj ?fb s1] =>
    set (name := nm); set (fs := fa); set (fc := fb) end.
  assert (keeps_id fs) as Hfs by done. assert (keeps_id fc) as Hfc by done.
  set (s2 := if contains "Slide" name then update_object obj fs s1
             else update_object obj fc s1).
  assert (camera s2 = Some cam) as Hc2 by (subst s2; by destruct (contains "Slide" name)).
  assert (get_object n s2 = Some (if decide (n = obj) then placed offset_x i o else o))
    as Ho2.
  { subst s2. destruct (decide (n = obj)) as [->|Hne].
    - assert (name = ob_name o) as Hname by (subst name; by rewrite Ho1).
      unfold placed. rewrite <- Hname. destruct (contains "Slide" name).
      + rewrite (get_object_update obj obj fs s1 _ Hfs Ho1). by rewrite decide_True.
      + rewrite (get_object_update obj obj fc s1 _ Hfc Ho1). by rewrite decide_True.
    - destruct (contains "Slide" name).
      + rewrite (get_object_update n obj fs s1 _ Hfs Ho1). by rewrite decide_False.
      + rewrite (get_object_update n obj fc s1 _ Hfc Ho1). by rewrite decide_False. }
  clearbody s2. cbn zeta.
  change (camera (frame_set h (S i) s2)) with (camera s2). rewrite Hc2.
  assert (get_object n (frame_set h (S i) s2)
          = Some (if decide (n = obj) then placed offset_x i o else o)) as Ho3.
  { rewrite get_object_frame_set, Ho2. cbn. f_equal. apply evaluate_unkeyed.
    case_decide; [by rewrite placed_keys|done]. }
  eexists. split; [reflexivity|]. split; [done|].
  unfold keyframe_insert_location.
  match goal with |- get_object n (update_object cam ?k (update_object cam ?g ?s3)) = _ =>
    assert (keeps_id k) as Hk by done; assert (keeps_id g) as Hg by done;
    rewrite (get_object_update n cam k (update_object cam g s3) _ Hk
               (get_object_update n cam g s3 _ Hg Ho3)) end.
  by rewrite !decide_False by done.
Qed.

(** The inner loop over distinct objects: [n] is placed once if it is
    among them, and left alone otherwise. *)
Lemma transform_objects_at h offset_x i new_objects cam s n o :
  NoDup new_objects ->
  camera s = Some cam -> n <> cam -> get_object n s = Some o -> ob_keys o = ∅ ->
  exists s',
    transform_objects h offset_x i new_objects s = Ok s'
    /\ camera s' = Some cam
    /\ get_object n s'
       = Some (if bool_decide (n ∈ new_objects) then placed offset_x i o else o).
Proof.
  intros Hnd Hc Hn. revert s o Hc.
  induction Hnd as [|obj rest Hnotin _ IH]; intros s o Hc Ho Hkeys.
  - exists s. by repeat split.
  - destruct (transform_object_at h offset_x i obj cam s n o Hc Hn Ho Hkeys)
      as (s1 & Hrun & Hc1 & Ho1).
    destruct (IH s1 _ Hc1 Ho1) as (s' & Hrun' & Hc' & Ho');
      [case_decide; [by rewrite placed_keys|done]|].
    exists s'. cbn [transform_objects]. rewrite Hrun. cbn.
    split; [done|]. split; [done|]. rewrite Ho'. f_equal.
    destruct (decide (n = obj)) as [->|Hne].
    + rewrite (bool_decide_eq_false_2 (obj ∈ rest)) by done.
      rewrite bool_decide_eq_true_2; [done|]. by left.
    + destruct (bool_decide_reflect (n ∈ rest)) as [Hin|Hnin].
      * rewrite bool_decide_eq_true_2; [done|]. by right.
      * rewrite bool_decide_eq_false_2; [done|].
        intros Hin. apply elem_of_cons in Hin as [?|?]; done.
Qed.

(** The scan for new objects: what is in [existing_objects] stays there,
    every object scanned ends up there, and [new_objects] collects,
    without repetition, exactly the identities that were not there. *)
Lemma collect_existing_grows objs existing new id :
  id ∈ existing -> id ∈ (foldl collect_step (existing, new) objs).1.
Proof.
  revert existing new; induction objs as [|x objs IH]; intros existing new Hin; [done|].
  cbn. destruct (bool_decide (ob_id x ∈ existing)); apply IH; [done|].
  apply elem_of_app. by left.
Qed.

Lemma collect_covers objs existing new o :
  o ∈ objs -> ob_id o ∈ (foldl collect_step (existing, new) objs).1.
Proof.
  revert existing new; induction objs as [|x objs IH]; intros existing new Hin.
  - by apply elem_of_nil in Hin.
  - cbn. apply elem_of_cons in Hin as [->|Hin].
    + destruct (bool_decide_reflect (ob_id x ∈ existing));
        apply collect_existing_grows; [done|].
      apply elem_of_app. right. by left.
    + destruct (bool_decide (ob_id x ∈ existing)); by apply IH.
Qed.

Lemma collect_new_keeps objs existing new id :
  id ∈ new -> id ∈ (foldl collect_step (existing, new) objs).2.
Proof.
  revert existing new; induction objs as [|x objs IH]; intros existing new Hin; [done|].
  cbn. destruct (bool_decide (ob_id x ∈ existing)); apply IH; [done|].
  apply elem_of_app. by left.
Qed.

Lemma collect_new_finds objs existing new o :
  o ∈ objs -> ob_id o ∉ existing ->
  ob_id o ∈ (foldl collect_step (existing, new) objs).2.
Proof.
  revert existing new; induction objs as [|x objs IH]; intros existing new Hin Hex.
  - by apply elem_of_nil in Hin.
  - cbn. destruct (bool_decide_reflect (ob_id x ∈ existing)) as [Hx|Hx].
    + apply elem_of_cons in Hin as [->|Hin]; [done|]. by apply IH.
    + destruct (decide (ob_id o = ob_id x)) as [Heq|Hne].
      * apply collect_new_keeps. rewrite Heq. apply elem_of_app. right. by left.
      * apply elem_of_cons in Hin as [->|Hin]; [done|]. apply IH; [done|].
        intros Hin'. apply elem_of_app in Hin' as [?|Hin']; [done|].
        by apply list_elem_of_singleton in Hin'.
Qed.

Lemma collect_new_only objs existing new id :
  id ∈ (foldl collect_step (existing, new) objs).2 -> id ∈ new \/ id ∉ existing.
Proof.
  revert existing new; induction objs as [|x objs IH]; intros existing new Hin.
  - by left.
  - cbn in Hin. destruct (bool_decide_reflect (ob_id x ∈ existing)) as [Hx|Hx].
    + by apply IH.
    + apply IH in Hin as [Hin|Hin].
      * apply elem_of_app in Hin as [?|Hin]; [by left|].
        apply list_elem_of_singleton in Hin as ->. by right.
      * right. intros ?. apply Hin. apply elem_of_app. by left.
Qed.

Lemma collect_new_NoDup objs existing new :
  NoDup new -> (forall id, id ∈ new -> id ∈ existing) ->
  NoDup (foldl collect_step (existing, new) objs).2.
Proof.
  revert existing new; induction objs as [|x objs IH]; intros existing new Hnd Hsub; [done|].
  cbn. destruct (bool_decide_reflect (ob_id x ∈ existing)) as [Hx|Hx]; apply IH; try done.
  - apply NoDup_app. split; [done|]. split; [|apply NoDup_singleton].
    intros id Hin Hin'. apply list_elem_of_singleton in Hin' as ->. by apply Hx, Hsub.
  - intros id Hin. apply elem_of_app in Hin as [Hin|Hin]; apply elem_of_app;
      [left; by apply Hsub|by right].
Qed.

(** The importer adds the curves of the file as blank objects, with the
    next identities in file order, and leaves every object that was
    there as it is. *)
Lemma import_curve_svg_objects h svg_file s :
  ids_below_next s ->
  ids_below_next (import_curve_svg h svg_file s)
  /\ (forall m o, get_object m s = Some o ->
        get_object m (import_curve_svg h svg_file s) = Some o)
  /\ (forall j name, svg_curves h svg_file !! j = Some name ->
        get_object (next_id s + j) (import_curve_svg h svg_file s)
        = Some (blank_object (next_id s + j) name 0)).
Proof.
  unfold import_curve_svg. generalize (svg_curves h svg_file) as names.
  intros names; revert s; induction names as [|name names IH]; intros s Hids.
  - split; [done|]. split; [done|]. intros j nm Hj. by rewrite lookup_nil in Hj.
  - cbn [foldl].
    destruct (IH (new_object name 0 s) (ids_below_next_new _ _ _ Hids))
      as (Hids' & Hkeep & Hcurves).
    split; [done|]. split.
    + intros m o Ho. apply Hkeep. rewrite get_object_new; [done|by exists o].
    + intros [|j] nm Hj.
      * injection Hj as <-. rewrite Nat.add_0_r. apply Hkeep.
        unfold get_object, new_object. cbn. by apply find_object_snoc_fresh.
      * replace (next_id s + S j) with (next_id (new_object name 0 s) + j)
          by (cbn; lia).
        by apply Hcurves.
Qed.

Lemma contains_slide_name x : contains "Slide" ("Slide " +:+ x) = true.
Proof.
  unfold contains.
  by rewrite (str_find_prefix "Slide" ("Slide " +:+ x) (prefix_app "Slide" (" " +:+ x))).
Qed.

Lemma update_object_ids id f s :
  keeps_id f -> ob_id <$> objects (update_object id f s) = ob_id <$> objects s.
Proof.
  intros Hf. cbn. rewrite <- list_fmap_compose. apply list_fmap_ext.
  intros k o _. cbn. by rewrite keeps_id_guard.
Qed.

Lemma frame_set_ids h f s : ob_id <$> objects (frame_set h f s) = ob_id <$> objects s.
Proof.
  cbn. rewrite <- list_fmap_compose. apply list_fmap_ext.
  intros k o _. cbn. apply evaluate_id.
Qed.

Lemma transform_object_ids h offset_x i obj s s' :
  transform_object h offset_x i obj s = Ok s' ->
  ob_id <$> objects s' = ob_id <$> objects s.
Proof.
  unfold transform_object. cbn zeta.
  match goal with |- context [if contains "Slide" ?nm then ?a else ?b] =>
    set (s2 := if contains "Slide" nm then a else b) end.
  assert (ob_id <$> objects s2 = ob_id <$> objects s) as Hids.
  { subst s2. destruct (contains "Slide" _); by rewrite !update_object_ids. }
  clearbody s2. destruct (camera (frame_set h (S i) s2)) as [cam|]; [|done].
  intros [= <-]. unfold keyframe_insert_location.
  rewrite !update_object_ids by done. by rewrite frame_set_ids.
Qed.

Lemma transform_objects_ids h offset_x i new_objects s s' :
  transform_objects h offset_x i new_objects s = Ok s' ->
  ob_id <$> objects s' = ob_id <$> objects s.
Proof.
  revert s; induction new_objects as [|obj rest IH]; intros s.
  - by intros [= <-].
  - cbn [transform_objects]. intros H. apply bind_Ok in H as (s1 & H1 & H).
    apply IH in H. apply transform_object_ids in H1. congruence.
Qed.

(** One round of the outer loop, in full: the objects that were there
    and have no location keyframes stay as they are; the new plane and the
    new curves are placed. *)
Lemma import_slide_full h offset_x i svg_file existing cam s :
  scene_ready cam s ->
  (forall o, o ∈ objects s -> ob_id o ∈ existing) ->
  Forall (fun id => id < next_id s) existing ->
  exists existing' s',
    import_slide h offset_x i svg_file existing s = Ok (existing', s')
    /\ scene_ready cam s'
    /\ (forall o, o ∈ objects s' -> ob_id o ∈ existing')
    /\ Forall (fun id => id < next_id s') existing'
    /\ next_id s < next_id s'
    /\ (forall m o, m <> cam -> m < next_id s -> ob_keys o = ∅ ->
          get_object m s = Some o -> get_object m s' = Some o)
    /\ get_object (next_id s) s'
       = Some (as_slide offset_x i
                 (blank_object (next_id s) ("Slide " +:+ pretty i) 2))
    /\ (forall j name, svg_curves h svg_file !! j = Some name ->
          get_object (S (next_id s) + j) s'
          = Some (placed offset_x i (blank_object (S (next_id s) + j) name 0))).
Proof.
  intros Hr HJ Hex.
  assert (cam < next_id s) as Hcam.
  { destruct Hr as (_ & [c Hc] & _ & Hids).
    pose proof (find_object_id _ _ _ Hc) as Hid.
    apply find_object_elem_of in Hc. unfold ids_below_next in Hids.
    rewrite Forall_forall in Hids. apply Hids in Hc. lia. }
  unfold import_slide, primitive_plane_add.
  pose proof (scene_ready_new cam "Plane" 1%Q s Hr) as Hr1.
  assert (get_object (next_id s) (new_object "Plane" 1%Q s)
          = Some (blank_object (next_id s) "Plane" 1)) as Hp1.
  { unfold get_object, new_object. cbn. apply find_object_snoc_fresh; [apply Hr|done]. }
  set (s1 := new_object "Plane" 1%Q s) in *.
  change (active_object s1) with (@Ok nat (next_id s)). cbn [mbind result_bind].
  set (f2 := fun o : object => set_extent_x (2 * ob_extent_x o)%Q o).
  assert (keeps_id f2) as Hf2 by done.
  pose proof (scene_ready_update cam (next_id s) f2 s1 Hf2 Hr1) as Hr2.
  pose proof (get_object_update (next_id s) (next_id s) f2 s1 _ Hf2 Hp1) as Hp2.
  rewrite decide_True in Hp2 by done.
  assert (forall m o, m < next_id s -> get_object m s = Some o ->
            get_object m (update_object (next_id s) f2 s1) = Some o) as Hold2.
  { intros m o Hm Ho.
    rewrite (get_object_update m (next_id s) f2 s1 o Hf2).
    - rewrite decide_False by lia. done.
    - subst s1. rewrite get_object_new; [done|by exists o]. }
  set (s2 := update_object (next_id s) f2 s1) in *.
  unfold material. rewrite bool_decide_eq_true_2 by apply Hr2. cbn [mbind result_bind].
  set (f3 := set_name ("Slide " +:+ pretty i)).
  assert (keeps_id f3) as Hf3 by done.
  pose proof (scene_ready_update cam (next_id s) f3 s2 Hf3 Hr2) as Hr3.
  pose proof (get_object_update (next_id s) (next_id s) f3 s2 _ Hf3 Hp2) as Hp3.
  rewrite decide_True in Hp3 by done.
  assert (forall m o, m < next_id s -> get_object m s = Some o ->
            get_object m (update_object (next_id s) f3 s2) = Some o) as Hold3.
  { intros m o Hm Ho.
    rewrite (get_object_update m (next_id s) f3 s2 o Hf3 (Hold2 m o Hm Ho)).
    by rewrite decide_False by lia. }
  assert (next_id (update_object (next_id s) f3 s2) = S (next_id s)) as Hn3 by done.
  set (s3 := update_object (next_id s) f3 s2) in *.
  destruct (import_curve_svg_ready h svg_file cam s3 Hr3) as (Hr4 & _ & Hn4 & _).
  destruct (import_curve_svg_objects h svg_file s3) as (Hids4 & Hkeep4 & Hcurves4);
    [apply Hr3|].
  set (s4 := import_curve_svg h svg_file s3) in *.
  assert (forall id, id ∈ existing -> id < next_id s) as Hexlt
    by (intros id; rewrite Forall_forall in Hex; apply Hex).
  rewrite collect_new_foldl.
  pose proof (collect_new_NoDup (objects s4) existing [] (NoDup_nil_2)) as Hnd.
  pose proof (fun o => collect_covers (objects s4) existing [] o) as Hcov.
  pose proof (fun o => collect_new_finds (objects s4) existing [] o) as Hfind.
  pose proof (fun id => collect_new_only (objects s4) existing [] id) as Honly.
  pose proof (collect_bound (fun id => id < next_id s4) (objects s4) existing []) as Hbound.
  destruct (foldl collect_step (existing, []) (objects s4)) as [existing' new_objects].
  cbn [fst snd] in *.
  specialize (Hnd ltac:(intros id Hin; by apply elem_of_nil in Hin)).
  destruct (transform_objects_keys h offset_x i new_objects cam s4 Hr4)
    as (s' & Hrun & Hr' & Hn' & _ & _).
  pose proof (transform_objects_ids _ _ _ _ _ _ Hrun) as Hids'.
  assert (forall n o, n <> cam -> get_object n s4 = Some o -> ob_keys o = ∅ ->
            get_object n s'
            = Some (if bool_decide (n ∈ new_objects) then placed offset_x i o else o))
    as Hat.
  { intros n o Hn Ho Hkeys.
    destruct (transform_objects_at h offset_x i new_objects cam s4 n o Hnd
                (proj1 Hr4) Hn Ho Hkeys) as (s'' & Hrun'' & _ & Ho'').
    rewrite Hrun in Hrun''. by injection Hrun'' as <-. }
  assert (forall n o, get_object n s4 = Some o -> next_id s <= n -> n ∈ new_objects)
    as Hisnew.
  { intros n o Ho Hge. pose proof (find_object_id _ _ _ Ho) as Hid.
    apply find_object_elem_of in Ho. rewrite <- Hid. apply Hfind; [done|].
    intros Hin. apply Hexlt in Hin. lia. }
  exists existing', s'. rewrite Hrun. cbn.
  split; [done|]. split; [done|]. split.
  { intros o Ho.
    assert (ob_id o ∈ ob_id <$> objects s4) as Hin
      by (rewrite <- Hids'; by apply list_elem_of_fmap_2).
    apply list_elem_of_fmap in Hin as (o4 & -> & Ho4). by apply Hcov. }
  split.
  { rewrite Hn'. apply Hbound; [|apply Hr4].
    eapply Forall_impl; [exact Hex|]. cbn. intros id Hlt. lia. }
  split; [lia|]. split.
  { intros m o Hm Hlt Hkeys Ho.
    rewrite (Hat m o Hm (Hkeep4 _ _ (Hold3 m o Hlt Ho)) Hkeys).
    rewrite bool_decide_eq_false_2; [done|].
    intros Hin. apply Honly in Hin as [Hin|Hin]; [by apply elem_of_nil in Hin|].
    apply Hin. rewrite <- (find_object_id _ _ _ Ho).
    apply HJ. by apply find_object_elem_of in Ho. }
  split.
  { assert (next_id s <> cam) as Hne by lia.
    rewrite (Hat (next_id s) _ Hne (Hkeep4 _ _ Hp3) eq_refl).
    rewrite bool_decide_eq_true_2 by (eapply Hisnew; [apply Hkeep4, Hp3|lia]).
    unfold placed. cbn [ob_name f3 set_name f2 set_extent_x blank_object].
    by rewrite contains_slide_name. }
  intros j name Hj.
  specialize (Hcurves4 j name Hj). rewrite Hn3 in Hcurves4.
  assert (S (next_id s) + j <> cam) as Hne by lia.
  etrans; [exact (Hat _ _ Hne Hcurves4 eq_refl)|].
  rewrite bool_decide_eq_true_2; [done|]. eapply Hisnew; [exact Hcurves4|lia].
Qed.

Lemma get_object_below m o s :
  ids_below_next s -> get_object m s = Some o -> m < next_id s.
Proof.
  intros Hids Ho. rewrite <- (find_object_id _ _ _ Ho).
  apply find_object_elem_of in Ho. unfold ids_below_next in Hids.
  rewrite Forall_forall in Hids. by apply Hids.
Qed.

Lemma scene_ready_camera_below cam s : scene_ready cam s -> cam < next_id s.
Proof.
  intros (_ & [o Ho] & _ & Hids). by eapply get_object_below.
Qed.

(** The outer loop, from slide index [i] on: every object that was there
    and has no location keyframes is left alone, and the plane and the
    curves of the [k]-th file are where the inner loop of round [i + k] put
    them. *)
Lemma import_slides_full h offset_x svg_files i existing cam s :
  scene_ready cam s ->
  (forall o, o ∈ objects s -> ob_id o ∈ existing) ->
  Forall (fun id => id < next_id s) existing ->
  exists s',
    import_slides_from h offset_x i svg_files existing s = Ok s'
    /\ scene_ready cam s'
    /\ next_id s <= next_id s'
    /\ (forall m o, m <> cam -> m < next_id s -> ob_keys o = ∅ ->
          get_object m s = Some o -> get_object m s' = Some o)
    /\ (forall k svg_file, svg_files !! k = Some svg_file ->
          exists n, next_id s <= n
            /\ get_object n s'
               = Some (as_slide offset_x (i + k)
                         (blank_object n ("Slide " +:+ pretty (i + k)) 2))
            /\ (forall j name, svg_curves h svg_file !! j = Some name ->
                  get_object (S n + j) s'
                  = Some (placed offset_x (i + k) (blank_object (S n + j) name 0)))).
Proof.
  revert i existing s; induction svg_files as [|svg_file rest IH];
    intros i existing s Hr HJ Hex.
  - exists s. split; [done|]. split; [done|]. split; [lia|]. split; [done|].
    intros k f Hk. by rewrite lookup_nil in Hk.
  - pose proof (scene_ready_camera_below cam s Hr) as Hcam.
    destruct (import_slide_full h offset_x i svg_file existing cam s Hr HJ Hex)
      as (existing' & s1 & Hrun & Hr1 & HJ1 & Hex1 & Hlt & Hkeep & Hplane & Hcurves).
    destruct (IH (S i) existing' s1 Hr1 HJ1 Hex1)
      as (s' & Hrun' & Hr' & Hn' & Hkeep' & Hall).
    exists s'. cbn [import_slides_from]. rewrite Hrun. cbn [mbind result_bind].
    split; [exact Hrun'|]. split; [done|]. split; [lia|]. split.
    { intros m o Hm Hm' Hkeys Ho. apply Hkeep'; [done|lia|done|]. by apply Hkeep. }
    intros [|k] f Hk.
    + injection Hk as <-. exists (next_id s). rewrite Nat.add_0_r.
      split; [lia|]. split.
      * apply Hkeep'; [lia|lia|done|done].
      * intros j name Hj. specialize (Hcurves j name Hj).
        apply Hkeep'; [lia| |by rewrite placed_keys|done].
        eapply get_object_below; [apply Hr1|exact Hcurves].
    + cbn in Hk. destruct (Hall k f Hk) as (n & Hn & Hp & Hc).
      exists n. replace (i + S k) with (S i + k) by lia.
      split; [lia|]. split; [exact Hp|exact Hc].
Qed.

Lemma import_and_transform_svgs_full h svg_files offset_x cam s :
  scene_ready cam s ->
  exists s',
    import_and_transform_svgs h svg_files offset_x s = Ok s'
    /\ scene_ready cam s'
    /\ (forall m o, m <> cam -> ob_keys o = ∅ ->
          get_object m s = Some o -> get_object m s' = Some o)
    /\ (forall k svg_file, svg_files !! k = Some svg_file ->
          exists n, next_id s <= n
            /\ get_object n s'
               = Some (as_slide offset_x k (blank_object n ("Slide " +:+ pretty k) 2))
            /\ (forall j name, svg_curves h svg_file !! j = Some name ->
                  get_object (S n + j) s'
                  = Some (placed offset_x k (blank_object (S n + j) name 0)))).
Proof.
  intros Hr. unfold import_and_transform_svgs.
  destruct (import_slides_full h offset_x svg_files 0 (ob_id <$> objects s) cam s Hr)
    as (s' & Hrun & Hr' & _ & Hkeep & Hall).
  - intros o Ho. by apply list_elem_of_fmap_2.
  - apply Forall_fmap. apply Hr.
  - exists s'. split; [done|]. split; [done|]. split; [|exact Hall].
    intros m o Hm Hkeys Ho. apply Hkeep; [done| |done|done].
    eapply get_object_below; [apply Hr|exact Ho].
Qed.

(** X19. Whenever [import_and_transform_svgs] returns from a scene with
    the camera and the slide material, the scene holds for the [k]-th SVG
    file a new plane named [Slide k]: 2 wide, at X = [k * offset_x] with Y
    and Z untouched, turned by 1.5708 about X, at unit scale, with a
    Solidify modifier of offset 0 and thickness 0.02, and without
    keyframes. *)
Theorem slide_plane_placed (h : host) (svg_files : list string) (offset_x : Z)
    (cam : nat) (s s' : scene) (k : nat) (svg_file : string) :
  scene_ready cam s ->
  import_and_transform_svgs h svg_files offset_x s = Ok s' ->
  svg_files !! k = Some svg_file ->
  exists n,
    next_id s <= n
    /\ get_object n s'
       = Some (Object n ("Slide " +:+ pretty k)
                 (Vec3 (inject_Z (Z.of_nat k * offset_x)) 0 0) 1.5708 (Vec3 1 1 1) 2
                 (Some (Solidify 0 (2 # 100))) ∅).
Proof.
  intros Hr Hrun Hk.
  destruct (import_and_transform_svgs_full h svg_files offset_x cam s Hr)
    as (s'' & Hrun' & _ & _ & Hall).
  rewrite Hrun in Hrun'. injection Hrun' as <-.
  destruct (Hall k svg_file Hk) as (n & Hn & Hp & _).
  exists n. split; [done|]. exact Hp.
Qed.

Lemma slide_plane_placed_witness :
  import_and_transform_svgs Example.host_404 ["s0.svg"; "s1.svg"] 3 Example.camera_scene
  = Ok Example.deck_scene
  /\ exists n,
       next_id Example.camera_scene <= n
       /\ get_object n Example.deck_scene
          = Some (Object n ("Slide " +:+ pretty 1)
                    (Vec3 (inject_Z (Z.of_nat 1 * 3)) 0 0) 1.5708 (Vec3 1 1 1) 2
                    (Some (Solidify 0 (2 # 100))) ∅).
Proof.
  assert (import_and_transform_svgs Example.host_404 ["s0.svg"; "s1.svg"] 3
            Example.camera_scene = Ok Example.deck_scene) as E
    by (vm_compute; reflexivity).
  assert (scene_ready 0 Example.camera_scene) as Hr.
  { split; [done|]. split; [by eexists|]. split.
    - apply list_elem_of_here.
    - repeat constructor. }
  split; [exact E|].
  apply (slide_plane_placed Example.host_404 ["s0.svg"; "s1.svg"] 3 0
           Example.camera_scene Example.deck_scene 1 "s1.svg" Hr E).
  reflexivity.
Defined.

(** X20. From such a scene, every curve the importer adds for the [k]-th
    SVG file under a name without [Slide] ends up scaled to (10, 10, 10),
    turned by 1.5708 about X, at X = [k * offset_x - 0.9], moved by -0.05
    in Y and by +0.15 in Z, with a Solidify modifier of offset 0 and
    thickness 0.0010. *)
Theorem imported_curve_placed (h : host) (svg_files : list string) (offset_x : Z)
    (cam : nat) (s : scene) (k j : nat) (svg_file name : string) :
  scene_ready cam s ->
  svg_files !! k = Some svg_file ->
  svg_curves h svg_file !! j = Some name ->
  contains "Slide" name = false ->
  exists s' n,
    import_and_transform_svgs h svg_files offset_x s = Ok s'
    /\ next_id s <= n
    /\ get_object n s'
       = Some (Object n name
                 (Vec3 (inject_Z (Z.of_nat k * offset_x) - (9 # 10))
                       (0 - (5 # 100)) (0 + (15 # 100)))
                 1.5708 (Vec3 10 10 10) 0
                 (Some (Solidify 0 (10 # 10000))) ∅).
Proof.
  intros Hr Hk Hj Hname.
  destruct (import_and_transform_svgs_full h svg_files offset_x cam s Hr)
    as (s' & Hrun & _ & _ & Hall).
  destruct (Hall k svg_file Hk) as (n & Hn & _ & Hc).
  exists s', (S n + j). split; [done|]. split; [lia|].
  rewrite (Hc j name Hj). unfold placed. cbn [ob_name blank_object].
  by rewrite Hname.
Qed.

Lemma imported_curve_placed_witness :
  exists s' n,
    import_and_transform_svgs Example.host_200 ["s0.svg"; "s1.svg"] 3
      Example.camera_scene = Ok s'
    /\ next_id Example.camera_scene <= n
    /\ get_object n s'
       = Some (Object n "Curve.001"
                 (Vec3 (inject_Z (Z.of_nat 1 * 3) - (9 # 10))
                       (0 - (5 # 100)) (0 + (15 # 100)))
                 1.5708 (Vec3 10 10 10) 0
                 (Some (Solidify 0 (10 # 10000))) ∅).
Proof.
  assert (scene_ready 0 Example.camera_scene) as Hr.
  { split; [done|]. split; [by eexists|]. split.
    - apply list_elem_of_here.
    - repeat constructor. }
  apply (imported_curve_placed Example.host_200 ["s0.svg"; "s1.svg"] 3 0
           Example.camera_scene 1 1 "s1.svg" "Curve.001" Hr);
    reflexivity.
Defined.

(** X21. The test is on the name alone: a curve the importer adds under
    a name that contains [Slide] is treated like the backing plane.  It
    keeps its scale and its Y and Z, goes to X = [k * offset_x], and its
    Solidify modifier gets the thickness 0.02. *)
Theorem curve_named_slide_not_scaled (h : host) (svg_files : list string)
    (offset_x : Z) (cam : nat) (s : scene) (k j : nat) (svg_file name : string) :
  scene_ready cam s ->
  svg_files !! k = Some svg_file ->
  svg_curves h svg_file !! j = Some name ->
  contains "Slide" name = true ->
  exists s' n,
    import_and_transform_svgs h svg_files offset_x s = Ok s'
    /\ next_id s <= n
    /\ get_object n s'
       = Some (Object n name
                 (Vec3 (inject_Z (Z.of_nat k * offset_x)) 0 0)
                 1.5708 (Vec3 1 1 1) 0
                 (Some (Solidify 0 (2 # 100))) ∅).
Proof.
  intros Hr Hk Hj Hname.
  destruct (import_and_transform_svgs_full h svg_files offset_x cam s Hr)
    as (s' & Hrun & _ & _ & Hall).
  destruct (Hall k svg_file Hk) as (n & Hn & _ & Hc).
  exists s', (S n + j). split; [done|]. split; [lia|].
  rewrite (Hc j name Hj). unfold placed. cbn [ob_name blank_object].
  by rewrite Hname.
Qed.

Lemma curve_named_slide_not_scaled_witness :
  exists s' n,
    import_and_transform_svgs Example.host_titled ["s0.svg"] 3
      Example.camera_scene = Ok s'
    /\ next_id Example.camera_scene <= n
    /\ get_object n s'
       = Some (Object n "Slide title"
                 (Vec3 (inject_Z (Z.of_nat 0 * 3)) 0 0)
                 1.5708 (Vec3 1 1 1) 0
                 (Some (Solidify 0 (2 # 100))) ∅).
Proof.
  assert (scene_ready 0 Example.camera_scene) as Hr.
  { split; [done|]. split; [by eexists|]. split.
    - apply list_elem_of_here.
    - repeat constructor. }
  apply (curve_named_slide_not_scaled Example.host_titled ["s0.svg"] 3 0
           Example.camera_scene 0 1 "s0.svg" "Slide title" Hr);
    reflexivity.
Defined.

(** X22. Whenever [import_and_transform_svgs] returns from a scene with
    the camera and the slide material, every object that was in the scene,
    is not the camera and has no location keyframes is found unchanged.
    (An object with location keyframes is moved by [frame_set].) *)
Theorem import_keeps_other_objects (h : host) (svg_files : list string)
    (offset_x : Z) (cam : nat) (s s' : scene) (m : nat) (o : object) :
  scene_ready cam s ->
  import_and_transform_svgs h svg_files offset_x s = Ok s' ->
  m <> cam ->
  ob_keys o = ∅ ->
  get_object m s = Some o ->
  get_object m s' = Some o.
Proof.
  intros Hr Hrun Hm Hkeys Ho.
  destruct (import_and_transform_svgs_full h svg_files offset_x cam s Hr)
    as (s'' & Hrun' & _ & Hkeep & _).
  rewrite Hrun in Hrun'. injection Hrun' as <-.
  by apply Hkeep.
Qed.

Lemma import_keeps_other_objects_witness :
  import_and_transform_svgs Example.host_404 ["s0.svg"; "s1.svg"] 3
    Example.cube_camera_scene = Ok Example.cube_deck_scene
  /\ get_object 0 Example.cube_deck_scene = Some (blank_object 0 "Cube" 2).
Proof.
  assert (import_and_transform_svgs Example.host_404 ["s0.svg"; "s1.svg"] 3
            Example.cube_camera_scene = Ok Example.cube_deck_scene) as E
    by (vm_compute; reflexivity).
  assert (scene_ready 1 Example.cube_camera_scene) as Hr.
  { split; [done|]. split; [by eexists|]. split.
    - apply list_elem_of_here.
    - repeat constructor. }
  split; [exact E|].
  apply (import_keeps_other_objects Example.host_404 ["s0.svg"; "s1.svg"] 3 1
           Example.cube_camera_scene Example.cube_deck_scene 0
           (blank_object 0 "Cube" 2) Hr E).
  - discriminate.
  - reflexivity.
  - reflexivity.
Defined.

End placement_extras.

(** ** The scene that [main] composes *)

Section scene_extras.
Import PyStr Layout Pipeline Reference.
Local Open Scope nat_scope.

Lemma ids_below_next_material name s :
  ids_below_next s -> ids_below_next (create_material name s).
Proof. done. Qed.

(** A round of the image loop adds materials and keeps the identities in
    order. *)
Lemma position_image_inv h oy oz tw i img_path s s' :
  position_image h oy oz tw i img_path s = Ok s' ->
  ids_below_next s ->
  ids_below_next s' /\ (forall m, m ∈ materials s -> m ∈ materials s').
Proof.
  unfold position_image. destruct (image_size h img_path) as [[width height]|]; [|done].
  unfold primitive_plane_add.
  change (active_object (new_object "Plane" 1%Q s)) with (@Ok nat (next_id s)).
  cbn [mbind result_bind].
  intros [= <-] Hids. split.
  - apply ids_below_next_update; [done|]. apply ids_below_next_material.
    do 3 (apply ids_below_next_update; [done|]).
    by apply ids_below_next_new.
  - intros m Hm. cbn. apply elem_of_app. by left.
Qed.

Lemma position_images_from_inv h oy oz tw i image_paths s s' :
  position_images_from h oy oz tw i image_paths s = Ok s' ->
  ids_below_next s ->
  ids_below_next s' /\ (forall m, m ∈ materials s -> m ∈ materials s').
Proof.
  revert i s; induction image_paths as [|img_path rest IH]; intros i s.
  - by intros [= <-].
  - cbn [position_images_from]. intros H Hids.
    apply bind_Ok in H as (s1 & Hone & H).
    destruct (position_image_inv _ _ _ _ _ _ _ _ Hone Hids) as [Hids1 Hm1].
    destruct (IH _ _ H Hids1) as [Hids' Hm'].
    split; [done|]. intros m Hm. by apply Hm', Hm1.
Qed.

(** Once the image panels are in place, the rest of the scene part of
    [main] goes through: the material and the camera that
    [import_and_transform_svgs] looks up have just been made. *)
Lemma compose_scene_after_images h image_paths svg_files s s1 :
  import_and_position_images h image_paths
    default_offset_y default_offset_z default_text_plane_width
    (create_material "Slides"
       (Scene [] (next_id s) None None (frame_current s) (materials s))) = Ok s1 ->
  exists s',
    compose_scene h image_paths svg_files s = Ok s'
    /\ dom (camera_keys s') = (set_seq 1 (length svg_files) : gset nat)
    /\ (forall f v, camera_keys s' !! f = Some v ->
          vx v = inject_Z (3 * (Z.of_nat f - 1))).
Proof.
  intros Himg. unfold compose_scene. cbn zeta. rewrite Himg. cbn [mbind result_bind].
  destruct (position_images_from_inv _ _ _ _ _ _ _ _ Himg) as [Hids1 Hm1];
    [apply Forall_nil_2|].
  change (active_object (new_object "Camera" 0%Q s1)) with (@Ok nat (next_id s1)).
  cbn [mbind result_bind].
  set (f := fun o : object =>
              set_rotation_x 1.5708 (set_location (Vec3 0 (- (65 # 10)) 3) o)).
  set (s2 := new_object "Camera" 0%Q s1).
  set (s3 := Scene (objects s2) (next_id s2) (active s2) (Some (next_id s1))
               (frame_current s2) (materials s2)).
  assert (keeps_id f) as Hf by done.
  assert (get_object (next_id s1) s3 = Some (blank_object (next_id s1) "Camera" 0)) as Hcam.
  { unfold get_object. cbn. by apply find_object_snoc_fresh. }
  assert (scene_ready (next_id s1) s3) as Hr3.
  { split; [done|]. split; [by rewrite Hcam|]. split.
    - apply Hm1. cbn. apply elem_of_app. right. apply list_elem_of_here.
    - by apply ids_below_next_new. }
  pose proof (scene_ready_update _ (next_id s1) f s3 Hf Hr3) as Hr4.
  pose proof (get_object_update (next_id s1) (next_id s1) f s3 _ Hf Hcam) as Hcam4.
  rewrite decide_True in Hcam4 by done.
  assert (camera_keys (update_object (next_id s1) f s3) = ∅) as Hk4.
  { by rewrite (camera_keys_ready (next_id s1) _ _ (proj1 Hr4) Hcam4). }
  set (s4 := update_object (next_id s1) f s3) in *.
  unfold import_and_transform_svgs.
  destruct (import_slides_keys h 3 svg_files 0 (ob_id <$> objects s4) (next_id s1) s4 Hr4)
    as (s5 & Hrun & Hdom & Hval).
  { apply Forall_fmap. apply Hr4. }
  { by rewrite Hk4, dom_empty_L. }
  { intros fr v. by rewrite Hk4, lookup_empty. }
  destruct (import_slides_full h 3 svg_files 0 (ob_id <$> objects s4) (next_id s1) s4 Hr4)
    as (s5' & Hrun' & Hr5 & _).
  { intros o Ho. by apply list_elem_of_fmap_2. }
  { apply Forall_fmap. apply Hr4. }
  rewrite Hrun in Hrun'. injection Hrun' as <-.
  rewrite Hrun. cbn [mbind result_bind].
  pose proof (scene_ready_camera_below _ _ Hr5) as Hlt.
  pose proof (camera_keys_frame_set _ h 1 s5 Hr5) as Hfs.
  apply (scene_ready_frame_set _ h 1) in Hr5.
  set (s6 := frame_set h 1 s5) in *.
  unfold place_backdrop.
  change (active_object (new_object "backdrop" 1%Q s6)) with (@Ok nat (next_id s6)).
  cbn [mbind result_bind]. eexists. split; [reflexivity|].
  pose proof (scene_ready_new _ "backdrop" 1%Q s6 Hr5) as Hr7.
  pose proof (camera_keys_new _ "backdrop" 1%Q s6 Hr5) as Hk7.
  set (s7 := new_object "backdrop" 1%Q s6) in *.
  set (g1 := fun o : object =>
               set_scale (Vec3 (inject_Z (Z.of_nat (length svg_files) * 6)) 10 10) o).
  set (g2 := fun o : object =>
               set_location
                 (set_x (inject_Z (Z.of_nat (length svg_files) * 6) / 2 - (5 # 10))%Q
                    (ob_location o)) o).
  assert (keeps_id g1) as Hg1 by done.
  assert (keeps_id g2) as Hg2 by done.
  pose proof (scene_ready_update _ (next_id s6) g1 s7 Hg1 Hr7) as Hr8.
  pose proof (camera_keys_update _ (next_id s6) g1 s7 Hg1 (fun _ => eq_refl) Hr7) as Hk8.
  pose proof (camera_keys_update _ (next_id s6) g2 _ Hg2 (fun _ => eq_refl) Hr8) as Hk9.
  change (camera_keys (create_material "Backdrop" ?x)) with (camera_keys x).
  rewrite Hk9, Hk8, Hk7, Hfs. split; [exact Hdom|exact Hval].
Qed.

(** X24. In every run of [main] that completes, the camera of the saved
    scene has one keyframe per section of the cleaned document, the empty
    sections included: at exactly the frames 1, ..., N, the one at frame f
    with X = 3 * (f - 1). *)
Theorem main_camera_track
    (h : host) (inkscape : Installer.installer) (input_md : string)
    (w : world) (s : scene) (r : run_report) :
  main h inkscape input_md w s = Ok r ->
  dom (camera_keys (final_scene r))
    = (set_seq 1 (length (split_markdown (cleaned_md_content r))) : gset nat)
  /\ (forall f v, camera_keys (final_scene r) !! f = Some v ->
        vx v = inject_Z (3 * (Z.of_nat f - 1))).
Proof.
  unfold main. cbn zeta. intros H.
  apply bind_Ok in H as (w1 & _ & H).
  apply bind_Ok in H as (w2 & _ & H).
  apply bind_Ok in H as (input_md_content & _ & H).
  apply bind_Ok in H as (w3 & _ & H).
  apply bind_Ok in H as ([[paths cleaned] w4] & _ & H).
  apply bind_Ok in H as ([svgs w5] & Hsvgs & H).
  apply bind_Ok in H as (s' & Hscene & H).
  injection H as <-. cbn [final_scene cleaned_md_content].
  apply convert_to_svgs_from_length in Hsvgs. rewrite <- Hsvgs.
  pose proof Hscene as Himg. unfold compose_scene in Himg. cbn zeta in Himg.
  apply bind_Ok in Himg as (s1 & Himg & _).
  destruct (compose_scene_after_images h paths svgs s s1 Himg)
    as (s'' & Hrun & Hdom & Hval).
  rewrite Hscene in Hrun. injection Hrun as <-. by split.
Qed.

Lemma main_camera_track_witness :
  main Example.host_404 Installer.MacOSInkscapeInstaller "deck.md"
    Example.installed_world Example.startup_scene = Ok Example.deck_report
  /\ dom (camera_keys (final_scene Example.deck_report))
     = (set_seq 1 (length (split_markdown (cleaned_md_content Example.deck_report)))
        : gset nat)
  /\ (forall f v, camera_keys (final_scene Example.deck_report) !! f = Some v ->
        vx v = inject_Z (3 * (Z.of_nat f - 1))).
Proof.
  assert (main Example.host_404 Installer.MacOSInkscapeInstaller "deck.md"
            Example.installed_world Example.startup_scene = Ok Example.deck_report) as E
    by (vm_compute; reflexivity).
  split; [exact E|].
  exact (main_camera_track Example.host_404 Installer.MacOSInkscapeInstaller
           "deck.md" Example.installed_world Example.startup_scene Example.deck_report E).
Defined.

End scene_extras.

(** ** The first statements of [main] *)

Section main_extras.
Import Installer Pipeline Reference.

(** X25. On Windows the first statement of [main] cannot install
    Inkscape.  It calls [install] only when the install directory is
    missing, and [install] writes the archive into that directory without
    creating it: the call ends in the error of the request or in
    [FileNotFoundError], or it returns after a refused download with
    Inkscape still not installed; the extraction command is never run. *)
Theorem windows_first_run_never_installs (h : host) (w : world) :
  is_installed h w = false ->
  match ensure_installed WindowsInkscapeInstaller h w with
  | Ok w' =>
      is_installed h w' = false
      /\ (forall argv, Subprocess argv ∈ events w' -> Subprocess argv ∈ events w)
  | Raise e => e = ConnectionError \/ e = FileNotFoundError
  end.
Proof.
  intros Hni. unfold ensure_installed. rewrite Hni. cbn [install].
  unfold install_windows, http_get.
  destruct (requests_get h windows_url) as [r|]; cbn; [|by left].
  destruct (status_code r =? 200)%Z.
  - unfold write_in. cbn.
    unfold is_installed, path_exists in Hni. apply bool_decide_eq_false in Hni.
    apply eq_None_not_Some in Hni. rewrite Hni. cbn. by right.
  - cbn. split; [exact Hni|]. intros argv Hin.
    rewrite !elem_of_app, !list_elem_of_singleton in Hin.
    by destruct Hin as [[[Hin|Hin]|Hin]|Hin].
Qed.

Lemma windows_first_run_never_installs_witness :
  match ensure_installed WindowsInkscapeInstaller Example.host_200 Example.fresh_world with
  | Ok w' =>
      is_installed Example.host_200 w' = false
      /\ (forall argv, Subprocess argv ∈ events w' ->
            Subprocess argv ∈ events Example.fresh_world)
  | Raise e => e = ConnectionError \/ e = FileNotFoundError
  end.
Proof.
  apply (windows_first_run_never_installs Example.host_200 Example.fresh_world).
  reflexivity.
Defined.



End main_extras.
